(** * angular-api-provider: endpoint configuration, dispatch and registry

    A shallow embedding of [angular-api-provider.js].  The program is a
    handful of constructors and prototype methods that mutate shared
    JavaScript objects, so the embedding keeps an explicit object heap:
    every object is a cell holding its prototype, its own properties in
    insertion order and, for arrays, its elements.  Methods are looked up
    the way JavaScript does it (own properties first, then the prototype),
    which matters for this program: [route] and [model] assign to the
    property they are themselves found under.

    Host services ([angular.*], [$injector], [$resource], promises) are not
    part of the repository; they are modelled from their documented
    behaviour, and the application's own functions (model constructors,
    hooks) and the HTTP transport are parameters of the development. *)

From Stdlib Require Import ZArith String Ascii List Lia.
From stdpp Require Import base list strings pretty.

Local Open Scope string_scope.
Local Open Scope list_scope.

(** ** Values and objects *)

Abbreviation loc := nat.

(** Values and function values.  Functions of the program are named after
    the source; [Bound] is the result of [angular.bind] / [Function.bind],
    [OnResponse] the closure passed to [then] in [getRequestWithModel]
    (it captures [instantiateModel]), [User n] a function of the
    application (a model constructor or a hook). *)
Inductive value : Type :=
| VUndef
| VNull
| VBool (b : bool)
| VNum (n : Z)
| VStr (s : string)
| VRef (l : loc)
| VFun (f : fn)
| VError (name msg : string)
| VInjector
| VPromise (fulfilled : bool) (v : value)
with fn : Type :=
| ApiEndpointConfig
| Config_route
| Config_model
| Config_addHttpAction
| Config_enableQuery
| ApiEndpoint
| Endpoint_instantiateModel
| Endpoint_request
| Endpoint_getRequestWithModel
| Endpoint_saveRequestWithModel
| OnResponse (instantiateModel : value)
| ApiProvider
| Provider_setBaseRoute
| Provider_endpoint
| Provider_get
| Bound (f : fn) (self : value) (curry : list value)
| Function_bind
| Array_map
| Injector_instantiate
| Resource_action (url name : string)
| Promise_then
| User (n : nat).

(** The prototype of an object: [Object.prototype], [Array.prototype] or
    [F.prototype] for a constructor [F]. *)
Inductive proto : Type :=
| PObject
| PArray
| PCtor (f : fn).

Abbreviation props := (list (string * value)).

Record obj : Type := Obj {
  oproto : proto;
  oprops : props;
  oelems : option (list value)
}.

Abbreviation heap := (list obj).

Definition plain (ps : props) : obj :=
  {| oproto := PObject; oprops := ps; oelems := None |}.

Definition array (vs : list value) : obj :=
  {| oproto := PArray; oprops := []; oelems := Some vs |}.

(** What the run leaves behind for the outside world: requests handed to
    the transport and calls into application functions, the latter with the
    receiver's own properties at the time of the call. *)
Inductive event : Type :=
| ETransport (url action : string) (params data : value)
| ECall (f : nat) (this : value) (args : list value) (own : props).

Record state : Type := State {
  st_heap : heap;
  st_trace : list event
}.

(** ** Property lists *)

Fixpoint assoc_get (k : string) (ps : props) : option value :=
  match ps with
  | [] => None
  | (k', v) :: r => if String.eqb k k' then Some v else assoc_get k r
  end.

(** Assignment keeps the position of an existing key and appends a new one,
    as JavaScript's property order does. *)
Fixpoint assoc_set (k : string) (v : value) (ps : props) : props :=
  match ps with
  | [] => [(k, v)]
  | (k', v') :: r =>
      if String.eqb k k' then (k, v) :: r else (k', v') :: assoc_set k v r
  end.

Definition index_props (vs : list value) : props :=
  imap (fun i v => (pretty i, v)) vs.

(** Own enumerable properties: array indices first, then named ones. *)
Definition own_props (o : obj) : props :=
  match oelems o with
  | Some vs => index_props vs ++ oprops o
  | None => oprops o
  end.

Fixpoint index_of_name (k : string) (i n : nat) : option nat :=
  match n with
  | O => None
  | S n' => if String.eqb k (pretty i) then Some i else index_of_name k (S i) n'
  end.

(** [o[k] = v]: an index of an existing array element updates the element,
    anything else is a named property.  (Growing an array by assigning past
    its end is outside the model; the program never does it.) *)
Definition obj_set (k : string) (v : value) (o : obj) : obj :=
  match oelems o with
  | Some vs =>
      match index_of_name k 0 (length vs) with
      | Some i => {| oproto := oproto o; oprops := oprops o;
                     oelems := Some (<[i := v]> vs) |}
      | None => {| oproto := oproto o; oprops := assoc_set k v (oprops o);
                   oelems := oelems o |}
      end
  | None => {| oproto := oproto o; oprops := assoc_set k v (oprops o);
               oelems := None |}
  end.

Definition empty_obj : obj := plain [].

Definition is_array (o : obj) : bool :=
  match oelems o with
  | Some _ => true
  | None => false
  end.

Definition hget (h : heap) (l : loc) : obj := default empty_obj (h !! l).

(** ** Primitive conversions *)

Definition truthy (v : value) : bool :=
  match v with
  | VUndef | VNull => false
  | VBool b => b
  | VNum n => negb (Z.eqb n 0)
  | VStr s => negb (String.eqb s "")
  | _ => true
  end.

Definition is_object (v : value) : bool :=
  match v with
  | VRef _ | VFun _ | VInjector | VPromise _ _ | VError _ _ => true
  | _ => false
  end.

(** [ToString], as far as this program can tell the difference: the text of
    a function or the rendering of an object only ever ends up in a URL. *)
Definition to_js_string (v : value) : string :=
  match v with
  | VUndef => "undefined"
  | VNull => "null"
  | VBool true => "true"
  | VBool false => "false"
  | VNum n => pretty n
  | VStr s => s
  | VRef _ => "[object Object]"
  | VFun _ => "function"
  | VError n m => n ++ ": " ++ m
  | VInjector => "[object Object]"
  | VPromise _ _ => "[object Object]"
  end.

(** [a + b] where the program uses it: [baseRoute + endpointConfig.route]. *)
Definition js_add (a b : value) : value :=
  match a, b with
  | VNum x, VNum y => VNum (x + y)
  | _, _ => VStr (to_js_string a ++ to_js_string b)
  end.

(** [v === 'lit'] against a string literal. *)
Definition is_str (v : value) (lit : string) : bool :=
  match v with
  | VStr s => String.eqb s lit
  | _ => false
  end.

Definition upper_ascii (c : ascii) : ascii :=
  let n := nat_of_ascii c in
  if (97 <=? n)%nat && (n <=? 122)%nat then ascii_of_nat (n - 32) else c.

(** [String.prototype.toUpperCase] on ASCII text (HTTP method names). *)
Fixpoint to_upper (s : string) : string :=
  match s with
  | EmptyString => EmptyString
  | String c r => String (upper_ascii c) (to_upper r)
  end.

Definition arg (i : nat) (args : list value) : value :=
  default VUndef (args !! i).

(** ** The monad: state, with thrown values *)

Definition M (A : Type) : Type := state -> (value + A) * state.

Definition ret {A} (a : A) : M A := fun s => (inr a, s).

Definition bind {A B} (m : M A) (k : A -> M B) : M B :=
  fun s => match m s with
           | (inl e, s') => (inl e, s')
           | (inr a, s') => k a s'
           end.

Definition throw {A} (e : value) : M A := fun s => (inl e, s).

Notation "'let*' x ':=' c1 'in' c2" := (bind c1 (fun x => c2))
  (at level 10, x pattern, c1 at level 100, c2 at level 200).

Definition type_error {A} (msg : string) : M A := throw (VError "TypeError" msg).
Definition range_error {A} : M A :=
  throw (VError "RangeError" "Maximum call stack size exceeded").

Definition alloc (o : obj) : M value :=
  fun s => (inr (VRef (length (st_heap s))),
            {| st_heap := st_heap s ++ [o]; st_trace := st_trace s |}).

Definition read (l : loc) : M obj :=
  fun s => (inr (hget (st_heap s) l), s).

Definition write (l : loc) (o : obj) : M unit :=
  fun s => (inr tt, {| st_heap := <[l := o]> (st_heap s); st_trace := st_trace s |}).

Definition emit (e : event) : M unit :=
  fun s => (inr tt, {| st_heap := st_heap s; st_trace := st_trace s ++ [e] |}).

Fixpoint mapM {A B} (f : A -> M B) (xs : list A) : M (list B) :=
  match xs with
  | [] => ret []
  | x :: r => let* y := f x in let* ys := mapM f r in ret (y :: ys)
  end.

Fixpoint iterM {A} (f : A -> M unit) (xs : list A) : M unit :=
  match xs with
  | [] => ret tt
  | x :: r => let* _ := f x in iterM f r
  end.

(** ** Property access *)

Definition config_prototype : props :=
  [("route", VFun Config_route); ("model", VFun Config_model);
   ("addHttpAction", VFun Config_addHttpAction);
   ("enableQuery", VFun Config_enableQuery)].

Definition endpoint_prototype : props :=
  [("instantiateModel", VFun Endpoint_instantiateModel);
   ("request", VFun Endpoint_request);
   ("getRequestWithModel", VFun Endpoint_getRequestWithModel);
   ("saveRequestWithModel", VFun Endpoint_saveRequestWithModel)].

Definition provider_prototype : props :=
  [("setBaseRoute", VFun Provider_setBaseRoute);
   ("endpoint", VFun Provider_endpoint);
   ("$get", VFun Provider_get)].

(** ** A small application

    A model class [Song] (function 0) whose prototype carries both hooks:
    [afterLoad] (function 1) marks the instance as loaded, [beforeSave]
    (function 2) renames it.  Function 3 is a model class without hooks.
    The transport answers [query] with the array [[{id:1},{id:2}]] and every
    other action with [{id:5}]. *)

Definition set_own (h : heap) (this : value) (k : string) (v : value) : heap :=
  match this with
  | VRef l => <[l := obj_set k v (hget h l)]> h
  | _ => h
  end.

Definition demo_call (n : nat) (this : value) (args : list value) (h : heap)
    : (value + value) * heap :=
  match n with
  | 1 => (inr VUndef, set_own h this "loaded" (VBool true))
  | 2 => (inr VUndef, set_own h this "name" (VStr "saved"))
  | _ => (inr VUndef, h)
  end.

Definition demo_proto (n : nat) : props :=
  match n with
  | 0 => [("afterLoad", VFun (User 1)); ("beforeSave", VFun (User 2))]
  | _ => []
  end.

Definition demo_resource (url name : string) (params data : value) (h : heap)
    : (value + value) * heap :=
  let n := length h in
  if String.eqb name "query" then
    (inr (VRef (n + 4)),
     h ++ [plain [("id", VNum 1)]; plain [("id", VNum 2)];
           array [VRef n; VRef (n + 1)];
           plain [("data", VRef (n + 2))];
           plain [("$promise", VPromise true (VRef (n + 3)))]])
  else
    (inr (VRef (n + 2)),
     h ++ [plain [("id", VNum 5)];
           plain [("data", VRef n)];
           plain [("$promise", VPromise true (VRef (n + 1)))]]).

Definition empty_state : state := {| st_heap := []; st_trace := [] |}.

(** The heap after the application has configured one endpoint and built it:

      c = new ApiEndpointConfig().route('songs/:id').model(factory)
      c.addHttpAction('get', 'get', undefined, {model: true})
      c.addHttpAction('post', 'save', undefined, {model: true})
      c.addHttpAction('get', 'query', undefined, {model: true, isArray: true})
      e = new ApiEndpoint('api/', c)

    followed by a song [{name: 'x', tags: ['a']}] made by the application.
    The config is at 0, its action map at 1, the endpoint at 12, its resource
    at 13, the song at 15 and its tags at 14. *)
Definition demo_heap_with (factory : value) : heap :=
  [ {| oproto := PCtor ApiEndpointConfig;
       oprops := [("actions", VRef 1); ("route", VStr "songs/:id"); ("model", factory)];
       oelems := None |};
    plain [("get", VRef 8); ("update", VRef 3); ("save", VRef 9);
           ("patch", VRef 5); ("remove", VRef 6); ("query", VRef 11)];
    plain [("method", VStr "GET"); ("params", VUndef)];
    plain [("method", VStr "PUT"); ("params", VUndef)];
    plain [("method", VStr "POST"); ("params", VUndef)];
    plain [("method", VStr "PATCH"); ("params", VUndef)];
    plain [("method", VStr "DELETE"); ("params", VUndef)];
    plain [("model", VBool true)];
    plain [("method", VStr "GET"); ("params", VUndef); ("model", VBool true)];
    plain [("method", VStr "POST"); ("params", VUndef); ("model", VBool true)];
    plain [("model", VBool true); ("isArray", VBool true)];
    plain [("method", VStr "GET"); ("params", VUndef); ("model", VBool true);
           ("isArray", VBool true)];
    {| oproto := PCtor ApiEndpoint;
       oprops :=
         [("config", VRef 0); ("$injector", VInjector); ("resource", VRef 13);
          ("get", VFun (Bound Endpoint_getRequestWithModel (VRef 12) [VStr "get"]));
          ("update", VFun (Bound Endpoint_request (VRef 12) [VStr "update"]));
          ("save", VFun (Bound Endpoint_saveRequestWithModel (VRef 12) [VStr "save"]));
          ("patch", VFun (Bound Endpoint_request (VRef 12) [VStr "patch"]));
          ("remove", VFun (Bound Endpoint_request (VRef 12) [VStr "remove"]));
          ("query", VFun (Bound Endpoint_getRequestWithModel (VRef 12) [VStr "query"]))];
       oelems := None |};
    plain [("get", VFun (Resource_action "api/songs/:id" "get"));
           ("update", VFun (Resource_action "api/songs/:id" "update"));
           ("save", VFun (Resource_action "api/songs/:id" "save"));
           ("patch", VFun (Resource_action "api/songs/:id" "patch"));
           ("remove", VFun (Resource_action "api/songs/:id" "remove"));
           ("query", VFun (Resource_action "api/songs/:id" "query"))];
    array [VStr "a"];
    {| oproto := PCtor (User 0);
       oprops := [("name", VStr "x"); ("tags", VRef 14)];
       oelems := None |} ].

(** The endpoint with [Song] as its model, and with the class without hooks. *)
Definition demo_state : state :=
  {| st_heap := demo_heap_with (VFun (User 0)); st_trace := [] |}.

Definition bare_state : state :=
  {| st_heap := demo_heap_with (VFun (User 3)); st_trace := [] |}.

(** The heap once the transport has answered [query] on [demo_state]: the
    response is at 19 and its payload, the array of two raw items, at 18. *)
Definition demo_loaded : heap :=
  snd (demo_resource "api/songs/:id" "query" VUndef VUndef (st_heap demo_state)).

(** A registry just constructed: the provider at 0, its endpoints at 1. *)
Definition registry_state : state :=
  {| st_heap := [ {| oproto := PCtor ApiProvider;
                     oprops := [("baseRoute", VStr ""); ("endpoints", VRef 1)];
                     oelems := None |};
                  plain [] ];
     st_trace := [] |}.

(** ** An application and a transport that fail

    Every function of this application validates its receiver: it throws
    unless the receiver is an object with a truthy own [id].  This transport
    throws on [remove] and answers every other action with a rejected
    promise. *)

Definition strict_call (n : nat) (this : value) (args : list value) (h : heap)
    : (value + value) * heap :=
  match this with
  | VRef l =>
      if truthy (default VUndef (assoc_get "id" (oprops (hget h l))))
      then (inr VUndef, h)
      else (inl (VError "Error" "invalid"), h)
  | _ => (inl (VError "Error" "invalid"), h)
  end.

Definition failing_resource (url name : string) (params data : value) (h : heap)
    : (value + value) * heap :=
  if String.eqb name "remove" then (inl (VError "Error" "offline"), h)
  else (inr (VRef (length h)),
        h ++ [plain [("$promise", VPromise false (VStr "500"))]]).

(** ** Reachability and depth *)

(** The values an object holds: its elements and its property values. *)
Definition values (o : obj) : list value :=
  default [] (oelems o) ++ map snd (oprops o).

(** [reach h v l]: the object at [l] is [v] itself or is held, directly or
    not, by the object [v] refers to. *)
Inductive reach (h : heap) : value -> loc -> Prop :=
| reach_here (l : loc) : reach h (VRef l) l
| reach_step (l : loc) (o : obj) (v : value) (m : loc) :
    h !! l = Some o -> In v (values o) -> reach h v m -> reach h (VRef l) m.

(** [deep d h v]: everything [v] holds is allocated and nested less than
    [d] objects deep (so [v] is a finite tree or DAG, not a cycle). *)
Fixpoint deep (d : nat) (h : heap) (v : value) : bool :=
  match v with
  | VRef l =>
      match d with
      | O => false
      | S d' =>
          match h !! l with
          | Some o => forallb (deep d' h) (values o)
          | None => false
          end
      end
  | _ => true
  end.

(** [deep_eq d h1 v1 h2 v2]: [v1] in [h1] and [v2] in [h2] are the same
    value up to the identity of the objects: same prototypes, same keys in
    the same order, same primitive values, all the way down. *)
Fixpoint deep_eq (d : nat) (h1 : heap) (v1 : value) (h2 : heap) (v2 : value)
    {struct d} : Prop :=
  match v1, v2 with
  | VRef a, VRef b =>
      match d with
      | O => False
      | S d' =>
          match h1 !! a, h2 !! b with
          | Some o1, Some o2 =>
              oproto o1 = oproto o2
              /\ map fst (oprops o1) = map fst (oprops o2)
              /\ Forall2 (fun x y => deep_eq d' h1 x h2 y)
                   (map snd (oprops o1)) (map snd (oprops o2))
              /\ option_Forall2 (Forall2 (fun x y => deep_eq d' h1 x h2 y))
                   (oelems o1) (oelems o2)
          | _, _ => False
          end
      end
  | VRef _, _ => False
  | _, VRef _ => False
  | _, _ => v1 = v2
  end.

(** Own properties of whatever [v] refers to; a primitive has none. *)
Definition own_of (h : heap) (v : value) : props :=
  match v with
  | VRef l => own_props (hget h l)
  | _ => []
  end.

Definition is_transport (e : event) : bool :=
  match e with
  | ETransport _ _ _ _ => true
  | ECall _ _ _ _ => false
  end.

Section Program.

(** The application: what calling its function [n] with a receiver and
    arguments does to the heap, and what [n.prototype] holds. *)
Variable user_call : nat -> value -> list value -> heap -> (value + value) * heap.
Variable user_proto : nat -> props.

(** The transport behind [$resource]: called with the URL template, the
    action name, the parameters and the payload, it returns the resource
    object whose [$promise] the program reads (or throws). *)
Variable resource_call :
  string -> string -> value -> value -> heap -> (value + value) * heap.

Definition proto_props (p : proto) : props :=
  match p with
  | PObject => []
  | PArray => [("map", VFun Array_map)]
  | PCtor ApiEndpointConfig => config_prototype
  | PCtor ApiEndpoint => endpoint_prototype
  | PCtor ApiProvider => provider_prototype
  | PCtor (User n) => user_proto n
  | PCtor _ => []
  end.

(** [o.k] on an object cell: own property, else the prototype's. *)
Definition obj_get (o : obj) (k : string) : value :=
  match assoc_get k (own_props o) with
  | Some v => v
  | None => default VUndef (assoc_get k (proto_props (oproto o)))
  end.

(** [v.k]: reading a property of [undefined] or [null] throws. *)
Definition get_prop (v : value) (k : string) : M value :=
  match v with
  | VUndef | VNull => type_error ("Cannot read property " ++ k)
  | VRef l => let* o := read l in ret (obj_get o k)
  | VFun _ => ret (if String.eqb k "bind" then VFun Function_bind else VUndef)
  | VInjector =>
      ret (if String.eqb k "instantiate" then VFun Injector_instantiate else VUndef)
  | VPromise _ _ => ret (if String.eqb k "then" then VFun Promise_then else VUndef)
  | _ => ret VUndef
  end.

(** [v.k = x]: assigning to a property of [undefined] or [null] throws, on
    another primitive it is silently dropped (the source is sloppy-mode). *)
Definition set_prop (v : value) (k : string) (x : value) : M unit :=
  match v with
  | VUndef | VNull => type_error ("Cannot set property " ++ k)
  | VRef l => let* o := read l in write l (obj_set k x o)
  | _ => ret tt
  end.

(** ** Host services *)

Definition call_value (call : fn -> value -> list value -> M value)
    (f this : value) (args : list value) : M value :=
  match f with
  | VFun g => call g this args
  | _ => type_error "not a function"
  end.

Definition call_method (call : fn -> value -> list value -> M value)
    (recv : value) (k : string) (args : list value) : M value :=
  let* f := get_prop recv k in call_value call f recv args.

(** [new F(args)] and [$injector.instantiate(F)]: allocate an object whose
    prototype is [F.prototype], run [F] on it, keep what [F] returns if that
    is an object. *)
Definition construct (call : fn -> value -> list value -> M value)
    (f : value) (args : list value) : M value :=
  match f with
  | VFun g =>
      let* inst := alloc {| oproto := PCtor g; oprops := []; oelems := None |} in
      let* r := call g inst args in
      ret (if is_object r then r else inst)
  | _ => type_error "not a constructor"
  end.

(** [angular.forEach(obj, iterator)] over the own properties of an object or
    the elements of an array; other values are not iterated. *)
Definition angular_forEach (v : value) (iterator : value -> string -> M unit) : M unit :=
  match v with
  | VRef l =>
      let* o := read l in
      iterM (fun kv => iterator (snd kv) (fst kv)) (own_props o)
  | _ => ret tt
  end.

Definition same_ref (a b : value) : bool :=
  match a, b with
  | VRef x, VRef y => Nat.eqb x y
  | _, _ => false
  end.

(** [angular.extend(dst, src...)]: copies the own properties of each source
    onto [dst], in order, and returns [dst]. *)
Definition angular_extend (dst : value) (srcs : list value) : M value :=
  let* _ := iterM (fun src =>
              if same_ref src dst then ret tt
              else angular_forEach src (fun value key => set_prop dst key value))
            srcs in
  ret dst.

Definition angular_isArray (v : value) : M bool :=
  match v with
  | VRef l => let* o := read l in ret (is_array o)
  | _ => ret false
  end.

(** [angular.bind(self, fn, args...)]: a function is curried, anything else
    is handed back as it is. *)
Definition angular_bind (self f : value) (curry : list value) : value :=
  match f with
  | VFun g => VFun (Bound g self curry)
  | _ => f
  end.

(** [angular.copy(source)]: a deep copy of an object or array, the prototype
    kept; any other value is returned as it is.  The recursion is bounded by
    the call stack. *)
Fixpoint angular_copy (depth : nat) (v : value) : M value :=
  match v with
  | VRef l =>
      match depth with
      | O => range_error
      | S d =>
          let* o := read l in
          let* es := match oelems o with
                     | Some vs => let* vs' := mapM (angular_copy d) vs in ret (Some vs')
                     | None => ret None
                     end in
          let* ps := mapM (fun kv => let* x := angular_copy d (snd kv) in
                                     ret (fst kv, x)) (oprops o) in
          alloc {| oproto := oproto o; oprops := ps; oelems := es |}
      end
  | _ => ret v
  end.

(** [$resource(url, {}, actions)]: one callable per action name. *)
Definition resource_factory (url : value) (actions : value) : M value :=
  let names := fun o : obj => map fst (own_props o) in
  let* ns := match actions with
             | VRef l => let* o := read l in ret (names o)
             | _ => ret []
             end in
  alloc (plain (map (fun n => (n, VFun (Resource_action (to_js_string url) n))) ns)).

Definition run_user (n : nat) (this : value) (args : list value) : M value :=
  let* own := match this with
              | VRef l => let* o := read l in ret (own_props o)
              | _ => ret []
              end in
  let* _ := emit (ECall n this args own) in
  fun s => let '(r, h) := user_call n this args (st_heap s) in
           (r, {| st_heap := h; st_trace := st_trace s |}).

Definition run_resource (url name : string) (args : list value) : M value :=
  let* _ := emit (ETransport url name (arg 0 args) (arg 1 args)) in
  fun s => let '(r, h) := resource_call url name (arg 0 args) (arg 1 args) (st_heap s) in
           (r, {| st_heap := h; st_trace := st_trace s |}).

(** [promise.then(onFulfilled)], as the eventual outcome: the callback runs on
    the fulfilment value, its result fulfils the new promise and what it
    throws rejects it; a rejection passes through untouched. *)
Definition promise_then (call : fn -> value -> list value -> M value)
    (this : value) (args : list value) : M value :=
  match this with
  | VPromise true v =>
      fun s => match call_value call (arg 0 args) VUndef [v] s with
               | (inl e, s') => (inr (VPromise false e), s')
               | (inr (VPromise ok w), s') => (inr (VPromise ok w), s')
               | (inr w, s') => (inr (VPromise true w), s')
               end
  | VPromise false e => ret (VPromise false e)
  | _ => type_error "then: not a promise"
  end.

(** [Array.prototype.map]: a new array of the callback's results, in order. *)
Definition array_map (call : fn -> value -> list value -> M value)
    (this : value) (args : list value) : M value :=
  match this with
  | VRef l =>
      let* o := read l in
      let* rs := mapM (fun iv => call_value call (arg 0 args) VUndef
                                   [snd iv; VNum (Z.of_nat (fst iv)); this])
                      (imap (fun i v => (i, v)) (default [] (oelems o))) in
      alloc (array rs)
  | _ => type_error "map: not an array"
  end.

(** The base of a property reference must be coercible to an object before
    the right-hand side of an assignment to it is evaluated. *)
Definition check_coercible (v : value) : M unit :=
  match v with
  | VUndef | VNull => type_error "Cannot set property of undefined"
  | _ => ret tt
  end.

Section Methods.

Variable call : fn -> value -> list value -> M value.

(** ** [app.ApiEndpointConfig] *)

(** The default actions defined for every endpoint, method first. *)
Definition defaultActions : list (string * string) :=
  [("GET", "get"); ("PUT", "update"); ("POST", "save");
   ("PATCH", "patch"); ("DELETE", "remove")].

Definition apiEndpointConfig (this : value) (args : list value) : M value :=
  let* actions := alloc (plain []) in
  let* _ := set_prop this "actions" actions in
  let self := this in
  let* _ := iterM (fun ma =>
              let method := fst ma in
              let alias := snd ma in
              let* _ := call_method call self "addHttpAction" [VStr method; VStr alias] in
              ret tt) defaultActions in
  ret VUndef.

Definition config_route (this : value) (args : list value) : M value :=
  let route := arg 0 args in
  let* _ := set_prop this "route" route in
  ret this.

Definition config_model (this : value) (args : list value) : M value :=
  let model := arg 0 args in
  let* _ := set_prop this "model" model in
  ret this.

(** [method.toUpperCase()] *)
Definition toUpperCase (v : value) : M value :=
  match v with
  | VStr s => ret (VStr (to_upper s))
  | _ => call_method call v "toUpperCase" []
  end.

Definition config_addHttpAction (this : value) (args : list value) : M value :=
  let method := arg 0 args in
  let name := arg 1 args in
  let params := arg 2 args in
  let options := arg 3 args in
  let* actions := get_prop this "actions" in
  let* _ := check_coercible actions in
  let* m := toUpperCase method in
  let* literal := alloc (plain [("method", m); ("params", params)]) in
  let* action := angular_extend literal [options] in
  let* _ := set_prop actions (to_js_string name) action in
  ret this.

Definition config_enableQuery (this : value) (args : list value) : M value :=
  let name := if truthy (arg 0 args) then arg 0 args else VStr "query" in
  let key := to_js_string name in
  let* actions := get_prop this "actions" in
  let* _ := check_coercible actions in
  let* actions' := get_prop this "actions" in
  let* current := get_prop actions' key in
  let* action := if truthy current then ret current else alloc (plain []) in
  let* _ := set_prop actions key action in
  let* actions'' := get_prop this "actions" in
  let* action' := get_prop actions'' key in
  let* _ := set_prop action' "isArray" (VBool true) in
  ret this.

(** ** [app.ApiEndpoint] *)

(** The body of the loop over [endpointConfig.actions] in the constructor:
    which prototype method the action is bound to. *)
Definition select_actionMethod (self action : value) : M value :=
  let* actionMethod := get_prop self "request" in
  let* model := get_prop action "model" in
  if truthy model then
    let* method := get_prop action "method" in
    if is_str method "GET" then get_prop self "getRequestWithModel"
    else if is_str method "PUT" || is_str method "POST"
         then get_prop self "saveRequestWithModel"
         else ret actionMethod
  else ret actionMethod.

Definition apiEndpoint (this : value) (args : list value) : M value :=
  let baseRoute := arg 0 args in
  let endpointConfig := arg 1 args in
  let* _ := set_prop this "config" endpointConfig in
  let* _ := set_prop this "$injector" VInjector in
  let* route := get_prop endpointConfig "route" in
  let* actions := get_prop endpointConfig "actions" in
  let* resource := resource_factory (js_add baseRoute route) actions in
  let* _ := set_prop this "resource" resource in
  let self := this in
  let* actions' := get_prop endpointConfig "actions" in
  let* _ := angular_forEach actions' (fun action actionName =>
              let* actionMethod := select_actionMethod self action in
              set_prop self actionName
                (angular_bind self actionMethod [VStr actionName])) in
  ret VUndef.

Definition endpoint_instantiateModel (this : value) (args : list value) : M value :=
  let data := arg 0 args in
  let* injector := get_prop this "$injector" in
  let* instantiate := get_prop injector "instantiate" in
  let* config := get_prop this "config" in
  let* factory := get_prop config "model" in
  let* model := call_value call instantiate injector [factory] in
  let* _ := angular_extend model [data] in
  let* _ := call_method call model "afterLoad" [] in
  ret model.

Definition endpoint_request (this : value) (args : list value) : M value :=
  let action := arg 0 args in
  let params := arg 1 args in
  let data := arg 2 args in
  let* resource := get_prop this "resource" in
  let* r := call_method call resource (to_js_string action) [params; data] in
  get_prop r "$promise".

(** The callback given to [then] in [getRequestWithModel]; it has no
    [return]. *)
Definition on_response (instantiateModel : value) (args : list value) : M value :=
  let response := arg 0 args in
  let* data := get_prop response "data" in
  let* isArray := angular_isArray data in
  let* wrapped := if isArray then call_method call data "map" [instantiateModel]
                  else call_value call instantiateModel VUndef [data] in
  let* _ := set_prop response "data" wrapped in
  ret VUndef.

Definition endpoint_getRequestWithModel (this : value) (args : list value) : M value :=
  let action := arg 0 args in
  let params := arg 1 args in
  let* promise := call_method call this "request" [action; params] in
  let* unbound := get_prop this "instantiateModel" in
  let* instantiateModel := call_method call unbound "bind" [this] in
  call_method call promise "then" [VFun (OnResponse instantiateModel)].

(** The part of [saveRequestWithModel] before the request: copy the payload
    and run the copy's [beforeSave] when there is one. *)
Definition prepare_model (depth : nat) (data : value) : M value :=
  let* model := angular_copy depth data in
  let* _ := if truthy model then
              let* hook := get_prop model "beforeSave" in
              if truthy hook then
                let* _ := call_method call model "beforeSave" [] in ret tt
              else ret tt
            else ret tt in
  ret model.

Definition endpoint_saveRequestWithModel (depth : nat) (this : value)
    (args : list value) : M value :=
  let action := arg 0 args in
  let params := arg 1 args in
  let data := arg 2 args in
  let* model := prepare_model depth data in
  call_method call this "request" [action; params; model].

(** ** [app.ApiProvider] *)

Definition apiProvider (this : value) (args : list value) : M value :=
  let* _ := set_prop this "baseRoute" (VStr "") in
  let* endpoints := alloc (plain []) in
  let* _ := set_prop this "endpoints" endpoints in
  ret VUndef.

Definition provider_setBaseRoute (this : value) (args : list value) : M value :=
  let route := arg 0 args in
  let* _ := set_prop this "baseRoute" route in
  ret VUndef.

Definition provider_endpoint (this : value) (args : list value) : M value :=
  let name := arg 0 args in
  let* endpointConfig := construct call (VFun ApiEndpointConfig) [] in
  let* endpoints := get_prop this "endpoints" in
  let* _ := set_prop endpoints (to_js_string name) endpointConfig in
  ret endpointConfig.

(** [$get]: the injector builds each endpoint from the locals [baseRoute]
    and [endpointConfig]. *)
Definition provider_get (this : value) (args : list value) : M value :=
  let* api := alloc (plain []) in
  let self := this in
  let* endpoints := get_prop this "endpoints" in
  let* _ := angular_forEach endpoints (fun endpointConfig name =>
              let* baseRoute := get_prop self "baseRoute" in
              let* endpoint := call_method call VInjector "instantiate"
                                 [VFun ApiEndpoint; baseRoute; endpointConfig] in
              set_prop api name endpoint) in
  ret api.

Definition function_bind (this : value) (args : list value) : M value :=
  match this with
  | VFun g => ret (VFun (Bound g (arg 0 args) (tail args)))
  | _ => type_error "bind: not a function"
  end.

End Methods.

(** ** Calling a function value

    [fuel] bounds the depth of the call stack; running out of it is the
    engine's [RangeError]. *)
Fixpoint call_fn (fuel : nat) (f : fn) (this : value) (args : list value) : M value :=
  match fuel with
  | O => range_error
  | S n =>
      let call := call_fn n in
      match f with
      | ApiEndpointConfig => apiEndpointConfig call this args
      | Config_route => config_route this args
      | Config_model => config_model this args
      | Config_addHttpAction => config_addHttpAction call this args
      | Config_enableQuery => config_enableQuery this args
      | ApiEndpoint => apiEndpoint this args
      | Endpoint_instantiateModel => endpoint_instantiateModel call this args
      | Endpoint_request => endpoint_request call this args
      | Endpoint_getRequestWithModel => endpoint_getRequestWithModel call this args
      | Endpoint_saveRequestWithModel => endpoint_saveRequestWithModel call n this args
      | OnResponse instantiateModel => on_response call instantiateModel args
      | ApiProvider => apiProvider this args
      | Provider_setBaseRoute => provider_setBaseRoute this args
      | Provider_endpoint => provider_endpoint call this args
      | Provider_get => provider_get call this args
      | Bound g self curry => call g self (curry ++ args)
      | Function_bind => function_bind this args
      | Array_map => array_map call this args
      | Injector_instantiate => construct call (arg 0 args) (tail args)
      | Resource_action url name => run_resource url name args
      | Promise_then => promise_then call this args
      | User k => run_user k this args
      end
  end.

(** [new F(args)] and [recv.k(args)] from the outside. *)
Definition new (fuel : nat) (f : fn) (args : list value) : M value :=
  construct (call_fn fuel) (VFun f) args.

Definition invoke (fuel : nat) (recv : value) (k : string) (args : list value) : M value :=
  call_method (call_fn fuel) recv k args.

(** ** Observations on a heap *)

(** [v.k] as a pure read: [undefined] where JavaScript would throw. *)
Definition field (h : heap) (v : value) (k : string) : value :=
  match v with
  | VRef l => obj_get (hget h l) k
  | _ => VUndef
  end.

(** The action map of a config, as pairs of action name and HTTP method. *)
Definition action_methods (h : heap) (config : value) : list (string * value) :=
  map (fun kv => (fst kv, field h (snd kv) "method"))
      (own_of h (field h config "actions")).

(** The cells a fresh [ApiEndpointConfig] occupies when it is allocated at
    [n]: the config, its action map and the five default actions. *)
Definition fresh_config (n : nat) : list obj :=
  [ {| oproto := PCtor ApiEndpointConfig;
       oprops := [("actions", VRef (n + 1))]; oelems := None |};
    plain [("get", VRef (n + 2)); ("update", VRef (n + 3));
           ("save", VRef (n + 4)); ("patch", VRef (n + 5));
           ("remove", VRef (n + 6))];
    plain [("method", VStr "GET"); ("params", VUndef)];
    plain [("method", VStr "PUT"); ("params", VUndef)];
    plain [("method", VStr "POST"); ("params", VUndef)];
    plain [("method", VStr "PATCH"); ("params", VUndef)];
    plain [("method", VStr "DELETE"); ("params", VUndef)] ].

(** What [angular.extend] leaves in the property list of a plain object. *)
Definition extend_props (ps : props) (src : props) : props :=
  fold_left (fun acc kv => assoc_set (fst kv) (snd kv) acc) src ps.

(** [h'] extends [h]: it is at least as long and agrees with it on every
    object of [h]. *)
Definition extends (h h' : heap) : Prop :=
  length h <= length h'
  /\ forall l, l < length h -> h' !! l = h !! l.

(** [own] holds every property of [raw], with the same value. *)
Definition carries (own raw : props) : Prop :=
  forall key v, assoc_get key raw = Some v -> assoc_get key own = Some v.

(** The calls into the application that instantiating a model of class [n]
    with hook [k] makes, for each instance with the own properties it has
    when the hook runs: the constructor on the empty instance, then
    [afterLoad]. *)
Definition hook_events (n k : nat) (calls : list (loc * props)) : list event :=
  flat_map (fun c => [ECall n (VRef (fst c)) [] [];
                      ECall k (VRef (fst c)) [] (snd c)]) calls.

(** What the read path instantiates models from: the elements of an array
    payload, or the payload itself. *)
Definition payload_items (h : heap) (payload : value) : list value :=
  match payload with
  | VRef l => match oelems (hget h l) with
              | Some vs => vs
              | None => [payload]
              end
  | _ => [payload]
  end.

Definition payload_is_array (h : heap) (payload : value) : bool :=
  match payload with
  | VRef l => is_array (hget h l)
  | _ => false
  end.

(** A raw item of a payload: allocated if it is an object, with distinct
    keys, none of them [afterLoad]. *)
Definition raw_ok (h : heap) (raw : value) : Prop :=
  (forall l, raw = VRef l -> l < length h)
  /\ NoDup (map fst (own_of h raw))
  /\ assoc_get "afterLoad" (own_of h raw) = None.

(** A computation only ever appends to the trace. *)
Definition grows {A} (m : M A) : Prop :=
  forall s, exists rest, st_trace (snd (m s)) = st_trace s ++ rest.

(** An application function is local when it leaves alone every object its
    receiver does not hold: it may change the receiver and what the
    receiver reaches, and allocate. *)
Definition local (n : nat) : Prop :=
  forall this args h l,
    l < length h -> ~ reach h this l ->
    snd (user_call n this args h) !! l = h !! l.

(** An application function is confined when it changes no existing object
    but its receiver, and the heap only grows. *)
Definition confined (n : nat) : Prop :=
  forall this args h,
    length h <= length (snd (user_call n this args h))
    /\ forall l, l < length h -> this <> VRef l ->
         snd (user_call n this args h) !! l = h !! l.

(** The endpoint [e] still has what the constructor gave it for requests:
    [request] is the prototype's, [resource] is [r] and [r] has the action. *)
Definition wired (h : heap) (e r : loc) (url action : string) : Prop :=
  field h (VRef e) "request" = VFun Endpoint_request
  /\ field h (VRef e) "resource" = VRef r
  /\ field h (VRef r) action = VFun (Resource_action url action).

(** The endpoint [e] can instantiate models of class [n]: [instantiateModel]
    is the prototype's, the injector is in place and its config [c] has the
    class as its model. *)
Definition models (h : heap) (e c : loc) (n : nat) : Prop :=
  field h (VRef e) "instantiateModel" = VFun Endpoint_instantiateModel
  /\ field h (VRef e) "$injector" = VInjector
  /\ field h (VRef e) "config" = VRef c
  /\ field h (VRef c) "model" = VFun (User n).

(** A hook value the write path can meet: nothing (a falsy value), or a
    local function of the application. *)
Definition app_hook (v : value) : Prop :=
  match v with
  | VFun (User n) => local n
  | VFun _ => False
  | _ => truthy v = false
  end.

(** What the write path does with the [beforeSave] it finds on the copy. *)
Definition run_hook (hook model : value) : M value :=
  match hook with
  | VFun (User n) => run_user n model []
  | _ => ret VUndef
  end.

(** Every object the cell [o] holds lives at [n] or above. *)
Definition refs_above (n : nat) (o : obj) : Prop :=
  forall l, In (VRef l) (values o) -> n <= l.

(** A model class [n] with [afterLoad] hook [k]: the constructor returns
    nothing, leaves the instance a plain instance of the class without an
    own [afterLoad], and both are confined and do not throw. *)
Record model_class (n k : nat) : Prop := {
  mc_hook : assoc_get "afterLoad" (user_proto n) = Some (VFun (User k));
  mc_ctor_confined : confined n;
  mc_hook_confined : confined k;
  mc_ctor_returns : forall this args h,
    exists r, fst (user_call n this args h) = inr r /\ is_object r = false;
  mc_ctor_instance : forall l args h o,
    h !! l = Some o -> oproto o = PCtor (User n) -> oelems o = None -> oprops o = [] ->
    exists o', snd (user_call n (VRef l) args h) !! l = Some o'
      /\ oproto o' = PCtor (User n) /\ oelems o' = None
      /\ assoc_get "afterLoad" (oprops o') = None;
  mc_hook_returns : forall this args h,
    exists r, fst (user_call k this args h) = inr r
}.

(** A model class [n] that provides no [afterLoad]: neither its prototype
    nor the instance its constructor leaves has one. *)
Record hookless_class (n : nat) : Prop := {
  hc_nohook : assoc_get "afterLoad" (user_proto n) = None;
  hc_ctor_confined : confined n;
  hc_ctor_returns : forall this args h,
    exists r, fst (user_call n this args h) = inr r /\ is_object r = false;
  hc_ctor_instance : forall l args h o,
    h !! l = Some o -> oproto o = PCtor (User n) -> oelems o = None -> oprops o = [] ->
    exists o', snd (user_call n (VRef l) args h) !! l = Some o'
      /\ oproto o' = PCtor (User n) /\ oelems o' = None
      /\ assoc_get "afterLoad" (oprops o') = None
}.

(** ** Further observations *)

(** The property name [enableQuery] works on: [name || 'query']. *)
Definition query_key (name : value) : string :=
  to_js_string (if truthy name then name else VStr "query").

(** A config [c] whose action map is the plain object [a]. *)
Definition config_at (h : heap) (c a : loc) : Prop :=
  field h (VRef c) "actions" = VRef a
  /\ a < length h /\ a <> c /\ oelems (hget h a) = None.

(** What the action map [a] holds under [key]: nothing (a falsy value), or
    an own entry that is a plain object [x]. *)
Definition entry_at (h : heap) (a : loc) (key : string) : Prop :=
  truthy (field h (VRef a) key) = false
  \/ exists x, assoc_get key (oprops (hget h a)) = Some (VRef x)
               /\ x < length h /\ x <> a /\ oelems (hget h x) = None.

(** The prototype method the constructor of [ApiEndpoint] picks for an
    action object, read off the heap: the wrapped request only for an action
    with a truthy [model] whose method is GET, PUT or POST. *)
Definition strategy (h : heap) (action : value) : fn :=
  if truthy (field h action "model") then
    if is_str (field h action "method") "GET" then Endpoint_getRequestWithModel
    else if is_str (field h action "method") "PUT"
            || is_str (field h action "method") "POST"
         then Endpoint_saveRequestWithModel
         else Endpoint_request
  else Endpoint_request.

(** The property names an endpoint uses itself; an action of one of these
    names would replace what the endpoint relies on. *)
Definition reserved : list string :=
  ["config"; "$injector"; "resource"; "instantiateModel"; "request";
   "getRequestWithModel"; "saveRequestWithModel"].

(** The callables the constructor attaches to the endpoint [e] for the
    actions [acts], in order. *)
Definition callables (h : heap) (e : loc) (acts : props) : props :=
  map (fun kv => (fst kv, VFun (Bound (strategy h (snd kv)) (VRef e) [VStr (fst kv)])))
      acts.

(** The cells a new endpoint occupies: the endpoint itself, then its
    resource with one transport callable per action name. *)
Definition endpoint_cell (h : heap) (e : loc) (config : value) (res : loc)
    (acts : props) : obj :=
  {| oproto := PCtor ApiEndpoint;
     oprops := extend_props [("config", config); ("$injector", VInjector);
                             ("resource", VRef res)] (callables h e acts);
     oelems := None |}.

Definition resource_cell (url : string) (acts : props) : obj :=
  plain (map (fun n => (n, VFun (Resource_action url n))) (map fst acts)).

(** The actions of a config are objects of the heap, under distinct names,
    none of them reserved. *)
Definition actions_ok (h : heap) (acts : props) : Prop :=
  Forall (fun kv => exists x, snd kv = VRef x /\ x < length h) acts
  /\ Forall (fun k => ~ In k reserved) (map fst acts)
  /\ NoDup (map fst acts).

(** A config of the registry: an object whose action map is an object of the
    heap with well-formed actions, and whose route is a string. *)
Definition config_ok (h : heap) (config : value) : Prop :=
  exists c a route,
    config = VRef c
    /\ field h (VRef c) "actions" = VRef a /\ a < length h
    /\ field h (VRef c) "route" = VStr route
    /\ actions_ok h (own_of h (VRef a)).

(** What [$get] leaves in the heap for the registry entries [reg] when the
    next free location is [n]: the entries of the api object, and for each
    entry the endpoint followed by its resource. *)
Fixpoint api_entries (n : nat) (reg : props) : props :=
  match reg with
  | [] => []
  | kv :: rest => (fst kv, VRef n) :: api_entries (n + 2) rest
  end.

Fixpoint api_cells (h : heap) (base : value) (n : nat) (reg : props) : list obj :=
  match reg with
  | [] => []
  | kv :: rest =>
      endpoint_cell h n (snd kv) (n + 1) (own_of h (field h (snd kv) "actions"))
      :: resource_cell (to_js_string (js_add base (field h (snd kv) "route")))
           (own_of h (field h (snd kv) "actions"))
      :: api_cells h base (n + 2) rest
  end.

(** The configuration the README shows, from a new provider to the api
    service:

      apiProvider.setBaseRoute(base);
      apiProvider.endpoint(name).route(route).model(model);

    followed by the [$get] Angular runs when the service is first injected. *)
Definition readme_usage (fuel : nat) (base name route : string) (model : value) :
    M value :=
  let* provider := new fuel ApiProvider [] in
  let* _ := invoke fuel provider "setBaseRoute" [VStr base] in
  let* config := invoke fuel provider "endpoint" [VStr name] in
  let* config' := invoke fuel config "route" [VStr route] in
  let* _ := invoke fuel config' "model" [model] in
  invoke fuel provider "$get" [].

(** The cells [readme_usage] allocates when the next free location is [n]:
    the provider, its registry, the config with its action map and five
    default actions, the api object, the endpoint and its resource. *)
Definition readme_cells (n : nat) (base name route : string) (model : value) :
    list obj :=
  [ {| oproto := PCtor ApiProvider;
       oprops := [("baseRoute", VStr base); ("endpoints", VRef (n + 1))];
       oelems := None |};
    plain [(name, VRef (n + 2))];
    {| oproto := PCtor ApiEndpointConfig;
       oprops := [("actions", VRef (n + 3)); ("route", VStr route); ("model", model)];
       oelems := None |};
    plain [("get", VRef (n + 4)); ("update", VRef (n + 5)); ("save", VRef (n + 6));
           ("patch", VRef (n + 7)); ("remove", VRef (n + 8))];
    plain [("method", VStr "GET"); ("params", VUndef)];
    plain [("method", VStr "PUT"); ("params", VUndef)];
    plain [("method", VStr "POST"); ("params", VUndef)];
    plain [("method", VStr "PATCH"); ("params", VUndef)];
    plain [("method", VStr "DELETE"); ("params", VUndef)];
    plain [(name, VRef (n + 10))];
    {| oproto := PCtor ApiEndpoint;
       oprops :=
         [("config", VRef (n + 2)); ("$injector", VInjector); ("resource", VRef (n + 11));
          ("get", VFun (Bound Endpoint_request (VRef (n + 10)) [VStr "get"]));
          ("update", VFun (Bound Endpoint_request (VRef (n + 10)) [VStr "update"]));
          ("save", VFun (Bound Endpoint_request (VRef (n + 10)) [VStr "save"]));
          ("patch", VFun (Bound Endpoint_request (VRef (n + 10)) [VStr "patch"]));
          ("remove", VFun (Bound Endpoint_request (VRef (n + 10)) [VStr "remove"]))];
       oelems := None |};
    plain [("get", VFun (Resource_action (base ++ route) "get"));
           ("update", VFun (Resource_action (base ++ route) "update"));
           ("save", VFun (Resource_action (base ++ route) "save"));
           ("patch", VFun (Resource_action (base ++ route) "patch"));
           ("remove", VFun (Resource_action (base ++ route) "remove"))] ].

(** The state the README configuration leaves when run on the empty heap,
    for the endpoint [songs]: the provider is at 0, its registry at 1, the
    config at 2. *)
Definition songs_state : state :=
  {| st_heap := readme_cells 0 "api/" "songs" "songs/:id" (VFun (User 0));
     st_trace := [] |}.

(** * Properties *)

(** ** Running the program symbolically *)

Lemma call_fn_S (n : nat) (f : fn) (this : value) (args : list value) :
  call_fn (S n) f this args =
  match f with
  | ApiEndpointConfig => apiEndpointConfig (call_fn n) this args
  | Config_route => config_route this args
  | Config_model => config_model this args
  | Config_addHttpAction => config_addHttpAction (call_fn n) this args
  | Config_enableQuery => config_enableQuery this args
  | ApiEndpoint => apiEndpoint this args
  | Endpoint_instantiateModel => endpoint_instantiateModel (call_fn n) this args
  | Endpoint_request => endpoint_request (call_fn n) this args
  | Endpoint_getRequestWithModel => endpoint_getRequestWithModel (call_fn n) this args
  | Endpoint_saveRequestWithModel => endpoint_saveRequestWithModel (call_fn n) n this args
  | OnResponse instantiateModel => on_response (call_fn n) instantiateModel args
  | ApiProvider => apiProvider this args
  | Provider_setBaseRoute => provider_setBaseRoute this args
  | Provider_endpoint => provider_endpoint (call_fn n) this args
  | Provider_get => provider_get (call_fn n) this args
  | Bound g self curry => call_fn n g self (curry ++ args)
  | Function_bind => function_bind this args
  | Array_map => array_map (call_fn n) this args
  | Injector_instantiate => construct (call_fn n) (arg 0 args) (tail args)
  | Resource_action url name => run_resource url name args
  | Promise_then => promise_then (call_fn n) this args
  | User k => run_user k this args
  end.
Proof. reflexivity. Qed.

Opaque call_fn.

Lemma hget_app_r (h l : heap) (k : nat) :
  hget (h ++ l) (length h + k) = default empty_obj (l !! k).
Proof.
  unfold hget. rewrite lookup_app_r by lia.
  by replace (length h + k - length h) with k by lia.
Qed.

Lemma hget_lt (h l : heap) (k : nat) :
  k < length h -> hget (h ++ l) k = hget h k.
Proof. intros Hk. unfold hget. by rewrite lookup_app_l. Qed.

Lemma hget_Some (h : heap) (l : loc) (o : obj) : h !! l = Some o -> hget h l = o.
Proof. unfold hget. by intros ->. Qed.

Lemma length_app_heap (h l : heap) : length (h ++ l) = length h + length l.
Proof. apply length_app. Qed.

Lemma hget_app_r0 (h l : heap) :
  hget (h ++ l) (length h) = default empty_obj (l !! 0).
Proof. pose proof (hget_app_r h l 0) as H. by rewrite Nat.add_0_r in H. Qed.

Lemma insert_app_r0 (h l : heap) (o : obj) :
  <[length h := o]> (h ++ l) = h ++ <[0 := o]> l.
Proof. pose proof (insert_app_r h l 0 o) as H. by rewrite Nat.add_0_r in H. Qed.

Lemma hget_insert_eq (h : heap) (l : loc) (o : obj) :
  l < length h -> hget (<[l := o]> h) l = o.
Proof. intros Hl. unfold hget. by rewrite list_lookup_insert_eq. Qed.

Lemma hget_insert_ne (h : heap) (l l' : loc) (o : obj) :
  l <> l' -> hget (<[l := o]> h) l' = hget h l'.
Proof. intros Hl. unfold hget. by rewrite list_lookup_insert_ne. Qed.

Create Rewrite HintDb heap.
#[local] Hint Rewrite hget_app_r hget_app_r0 insert_app_r0 length_app_heap : heap.
#[local] Hint Rewrite <- app_assoc : heap.
#[local] Hint Rewrite @insert_app_r : heap.
#[local] Hint Rewrite hget_lt hget_insert_eq hget_insert_ne using (simpl; lia) : heap.
#[local] Hint Rewrite @insert_app_l using (simpl; lia) : heap.
#[local] Hint Rewrite @length_insert : heap.

(** Locations are kept in the form [length h + k] over a heap [h ++ cells]. *)
Ltac step :=
  repeat (progress (rewrite ?call_fn_S;
                    unfold bind, ret, alloc, read, write, throw, emit;
                    cbn -[Nat.add pretty upper_ascii to_upper];
                    autorewrite with heap)).

Lemma to_upper_methods :
  to_upper "GET" = "GET" /\ to_upper "PUT" = "PUT" /\ to_upper "POST" = "POST"
  /\ to_upper "PATCH" = "PATCH" /\ to_upper "DELETE" = "DELETE".
Proof. by vm_compute. Qed.

(** The constructor of [ApiEndpointConfig], run on any state. *)
Lemma new_config (fuel : nat) (h : heap) (t : list event) :
  new (3 + fuel) ApiEndpointConfig [] {| st_heap := h; st_trace := t |} =
  (inr (VRef (length h)),
   {| st_heap := h ++ fresh_config (length h); st_trace := t |}).
Proof.
  change (3 + fuel) with (S (S (S fuel))). unfold new, construct. step.
  destruct to_upper_methods as (-> & -> & -> & -> & ->). reflexivity.
Qed.

Lemma action_methods_fresh (h : heap) :
  action_methods (h ++ fresh_config (length h)) (VRef (length h)) =
  [("get", VStr "GET"); ("update", VStr "PUT"); ("save", VStr "POST");
   ("patch", VStr "PATCH"); ("remove", VStr "DELETE")].
Proof.
  unfold action_methods, field, own_of, obj_get, fresh_config. step. reflexivity.
Qed.

(** C9. A freshly constructed [ApiEndpointConfig] is a new object whose
    action map holds exactly the five default actions [get], [update],
    [save], [patch], [remove], bound to GET, PUT, POST, PATCH, DELETE in that
    order, before any builder call; nothing else in the heap changes. *)
Theorem default_actions_seeded (fuel : nat) (s : state) :
  exists s',
    new (3 + fuel) ApiEndpointConfig [] s = (inr (VRef (length (st_heap s))), s')
    /\ action_methods (st_heap s') (VRef (length (st_heap s))) =
         [("get", VStr "GET"); ("update", VStr "PUT"); ("save", VStr "POST");
          ("patch", VStr "PATCH"); ("remove", VStr "DELETE")]
    /\ (forall l, l < length (st_heap s) -> st_heap s' !! l = st_heap s !! l)
    /\ st_trace s' = st_trace s.
Proof.
  destruct s as [h t]. rewrite new_config. eexists. split. { reflexivity. }
  cbn [st_heap st_trace]. split; [ | split; [ | reflexivity ] ].
  - apply action_methods_fresh.
  - intros l Hl. by rewrite lookup_app_l by lia.
Qed.

(** C3. On a fresh config the first [route(a)] stores [a] and returns the
    config, but it stores it under the very name the method is found under:
    the second [route(b)] finds the string [a] instead of a function and
    throws a TypeError, leaving the template at [a]. *)
Theorem route_twice_throws (fuel : nat) (s : state) (a b : string) :
  let c := VRef (length (st_heap s)) in
  exists s1 s2,
    new (3 + fuel) ApiEndpointConfig [] s = (inr c, s1)
    /\ invoke (1 + fuel) c "route" [VStr a] s1 = (inr c, s2)
    /\ field (st_heap s2) c "route" = VStr a
    /\ invoke (1 + fuel) c "route" [VStr b] s2 =
         (inl (VError "TypeError" "not a function"), s2).
Proof.
  destruct s as [h t]. cbn [st_heap]. cbv zeta. rewrite new_config.
  change (1 + fuel) with (S fuel).
  eexists _, _. split. { reflexivity. }
  unfold invoke, call_method, fresh_config. step.
  split. { reflexivity. }
  split. { unfold field, obj_get. step. reflexivity. }
  step. reflexivity.
Qed.

(** C1. With the model set on the config, as the README does, the
    constructor of [ApiEndpoint] still binds every default action to the
    plain [request]: it tests [action.model], which no default action has,
    and never looks at the model of the config. *)
Theorem config_model_not_consulted (fuel : nat) (s : state)
    (route base : string) (factory : value) :
  let c := VRef (length (st_heap s)) in
  let e := VRef (length (st_heap s) + 7) in
  exists s1 s2 s3 s4,
    new (3 + fuel) ApiEndpointConfig [] s = (inr c, s1)
    /\ invoke (1 + fuel) c "route" [VStr route] s1 = (inr c, s2)
    /\ invoke (1 + fuel) c "model" [factory] s2 = (inr c, s3)
    /\ new (1 + fuel) ApiEndpoint [VStr base; c] s3 = (inr e, s4)
    /\ field (st_heap s4) c "model" = factory
    /\ field (st_heap s4) e "get" = VFun (Bound Endpoint_request e [VStr "get"])
    /\ field (st_heap s4) e "update" = VFun (Bound Endpoint_request e [VStr "update"])
    /\ field (st_heap s4) e "save" = VFun (Bound Endpoint_request e [VStr "save"]).
Proof.
  destruct s as [h t]. cbn [st_heap]. cbv zeta. rewrite new_config.
  change (1 + fuel) with (S fuel).
  eexists _, _, _, _. split. { reflexivity. }
  unfold invoke, call_method, fresh_config. step.
  split. { reflexivity. }
  step. split. { reflexivity. }
  unfold new, construct, apiEndpoint, resource_factory, angular_forEach,
    select_actionMethod. step.
  split. { reflexivity. }
  unfold field, obj_get. step. done.
Qed.

(** ** Property lists and [angular.extend] *)

Lemma assoc_get_set_eq (k : string) (v : value) (ps : props) :
  assoc_get k (assoc_set k v ps) = Some v.
Proof.
  induction ps as [|[k' v'] ps IH]; cbn.
  - by rewrite String.eqb_refl.
  - destruct (String.eqb k k') eqn:E; cbn; rewrite ?String.eqb_refl, ?E; done.
Qed.

Lemma assoc_get_set_ne (k k' : string) (v : value) (ps : props) :
  k <> k' -> assoc_get k (assoc_set k' v ps) = assoc_get k ps.
Proof.
  intros Hne. apply String.eqb_neq in Hne.
  induction ps as [|[k0 v0] ps IH]; cbn.
  - by rewrite Hne.
  - destruct (String.eqb k' k0) eqn:E; cbn.
    + apply String.eqb_eq in E. subst k0. by rewrite Hne.
    + by rewrite IH.
Qed.

Lemma obj_set_plain (k : string) (v : value) (o : obj) :
  oelems o = None ->
  obj_set k v o =
  {| oproto := oproto o; oprops := assoc_set k v (oprops o); oelems := None |}.
Proof. unfold obj_set. by intros ->. Qed.

Lemma obj_get_set_eq (k : string) (v : value) (o : obj) :
  oelems o = None -> obj_get (obj_set k v o) k = v.
Proof.
  intros Ho. rewrite obj_set_plain by done. unfold obj_get, own_props. cbn.
  by rewrite assoc_get_set_eq.
Qed.

Lemma obj_get_set_ne (k k' : string) (v : value) (o : obj) :
  oelems o = None -> k <> k' -> obj_get (obj_set k' v o) k = obj_get o k.
Proof.
  intros Ho Hne. rewrite obj_set_plain by done. unfold obj_get, own_props. cbn.
  by rewrite Ho, assoc_get_set_ne.
Qed.

(** Assigning a list of properties to one object, one after the other. *)
Lemma set_props_run (ps : props) (n : loc) :
  forall (h : heap) (t : list event) (o : obj),
    h !! n = Some o ->
    iterM (fun kv => set_prop (VRef n) (fst kv) (snd kv)) ps
      {| st_heap := h; st_trace := t |} =
    (inr tt,
     {| st_heap := <[n := fold_left (fun acc kv => obj_set (fst kv) (snd kv) acc) ps o]> h;
        st_trace := t |}).
Proof.
  induction ps as [|[k v] ps IH]; intros h t o Hn.
  - cbn. unfold ret. by rewrite list_insert_id.
  - cbn [iterM fold_left fst snd]. unfold bind at 1. unfold set_prop.
    unfold bind at 1, read, write. cbn [st_heap st_trace].
    rewrite (hget_Some _ _ _ Hn).
    rewrite (IH _ _ (obj_set k v o)).
    + by rewrite list_insert_insert_eq.
    + apply list_lookup_insert_eq. by eapply lookup_lt_Some.
Qed.

Lemma fold_obj_set_plain (ps : props) :
  forall o, oelems o = None ->
    fold_left (fun acc kv => obj_set (fst kv) (snd kv) acc) ps o =
    {| oproto := oproto o; oprops := extend_props (oprops o) ps; oelems := None |}.
Proof.
  induction ps as [|[k v] ps IH]; intros o Ho; cbn.
  - destruct o; cbn in *; by subst.
  - rewrite IH by (by rewrite obj_set_plain). by rewrite obj_set_plain.
Qed.

Lemma extend_props_keeps (k : string) (src : props) :
  forall base, assoc_get k src = None ->
    assoc_get k (extend_props base src) = assoc_get k base.
Proof.
  induction src as [|[k' v] src IH]; intros base Hk; [done|].
  cbn [assoc_get] in Hk. destruct (String.eqb k k') eqn:E; [done|].
  cbn [extend_props fold_left fst snd]. fold (extend_props (assoc_set k' v base) src).
  rewrite IH by done. apply assoc_get_set_ne. by apply String.eqb_neq.
Qed.

(** [angular.extend(dst, [src])] for a plain destination that is not the source. *)
Lemma extend_run (h : heap) (t : list event) (n : loc) (o : obj) (src : value) :
  h !! n = Some o -> oelems o = None -> src <> VRef n ->
  angular_extend (VRef n) [src] {| st_heap := h; st_trace := t |} =
  (inr (VRef n),
   {| st_heap := <[n := {| oproto := oproto o;
                           oprops := extend_props (oprops o) (own_of h src);
                           oelems := None |}]> h;
      st_trace := t |}).
Proof.
  intros Hn Ho Hsrc. unfold angular_extend. cbn [iterM].
  assert (Hid : <[n := {| oproto := oproto o; oprops := oprops o; oelems := None |}]> h = h).
  { apply list_insert_id. rewrite Hn. destruct o; cbn in *; by subst. }
  destruct src as [| | | | |l| | | |]; cbn [same_ref angular_forEach own_of extend_props fold_left];
    try (unfold bind, ret; cbn; by rewrite Hid).
  destruct (Nat.eqb l n) eqn:E.
  { apply Nat.eqb_eq in E. congruence. }
  unfold bind, read, ret. cbn [st_heap st_trace].
  rewrite (set_props_run _ _ _ _ _ Hn). by rewrite fold_obj_set_plain.
Qed.

(** ** [addHttpAction] *)

Lemma field_allocated (h : heap) (l : loc) (k : string) (v : value) :
  field h (VRef l) k = v -> v <> VUndef -> l < length h.
Proof.
  unfold field, hget. intros Hf Hv.
  destruct (h !! l) eqn:E; [by eapply lookup_lt_Some|].
  cbn in Hf. congruence.
Qed.

Lemma addHttpAction_run (fuel : nat) (h : heap) (t : list event) (c a : loc)
    (method name : string) (params options : value) :
  field h (VRef c) "actions" = VRef a ->
  a < length h ->
  (forall o, options = VRef o -> o < length h) ->
  call_fn (1 + fuel) Config_addHttpAction (VRef c)
    [VStr method; VStr name; params; options] {| st_heap := h; st_trace := t |} =
  (inr (VRef c),
   {| st_heap :=
        <[a := obj_set name (VRef (length h)) (hget h a)]> h ++
        [plain (extend_props [("method", VStr (to_upper method)); ("params", params)]
                  (own_of h options))];
      st_trace := t |}).
Proof.
  intros Hf Ha Hopt. unfold field in Hf.
  change (1 + fuel) with (S fuel). rewrite call_fn_S.
  unfold config_addHttpAction. step. rewrite Hf. step.
  rewrite (extend_run _ _ _ (plain [("method", VStr (to_upper method)); ("params", params)])).
  - step. do 4 f_equal.
    destruct options; try reflexivity. cbn [own_of].
    rewrite hget_lt; [done|]. by apply Hopt.
  - by rewrite lookup_app_r, Nat.sub_diag by lia.
  - reflexivity.
  - intros ->. specialize (Hopt _ eq_refl). lia.
Qed.

(** C8 (amended). [addHttpAction(method, name, params, options)] returns the
    config and stores under [name] a new object that is exactly the literal
    [{method: method.toUpperCase(), params}] extended with the own properties
    of [options]: nothing of an action stored under [name] before survives,
    the other actions are kept, and the stored method is the upper-cased
    argument whenever [options] carries no [method] of its own. *)
Theorem addHttpAction_overwrites (fuel : nat) (s : state) (c a : loc)
    (method name : string) (params options : value) :
  field (st_heap s) (VRef c) "actions" = VRef a ->
  a < length (st_heap s) ->
  oelems (hget (st_heap s) a) = None ->
  (forall o, options = VRef o -> o < length (st_heap s)) ->
  exists s',
    call_fn (1 + fuel) Config_addHttpAction (VRef c)
      [VStr method; VStr name; params; options] s = (inr (VRef c), s')
    /\ field (st_heap s') (VRef a) name = VRef (length (st_heap s))
    /\ own_of (st_heap s') (VRef (length (st_heap s))) =
         extend_props [("method", VStr (to_upper method)); ("params", params)]
           (own_of (st_heap s) options)
    /\ (assoc_get "method" (own_of (st_heap s) options) = None ->
        field (st_heap s') (VRef (length (st_heap s))) "method" = VStr (to_upper method))
    /\ (forall k, k <> name ->
        field (st_heap s') (VRef a) k = field (st_heap s) (VRef a) k)
    /\ (forall l, l < length (st_heap s) -> l <> a ->
        st_heap s' !! l = st_heap s !! l)
    /\ st_trace s' = st_trace s.
Proof.
  destruct s as [h t]. cbn [st_heap st_trace]. intros Hf Ha Hplain Hopt.
  rewrite (addHttpAction_run fuel h t c a) by done.
  eexists. split. { reflexivity. } cbn [st_heap st_trace].
  assert (Hnew : hget (<[a := obj_set name (VRef (length h)) (hget h a)]> h ++
             [plain (extend_props [("method", VStr (to_upper method)); ("params", params)]
                       (own_of h options))]) (length h)
           = plain (extend_props [("method", VStr (to_upper method)); ("params", params)]
                       (own_of h options))).
  { rewrite <- (length_insert h a (obj_set name (VRef (length h)) (hget h a))) at 2.
    by rewrite hget_app_r0. }
  repeat split.
  - unfold field. rewrite hget_lt by (by rewrite length_insert).
    rewrite hget_insert_eq by done. by apply obj_get_set_eq.
  - unfold own_of at 1. by rewrite Hnew.
  - intros Hm. unfold field. rewrite Hnew. unfold obj_get, own_props.
    cbn [plain oelems oprops]. rewrite extend_props_keeps by done.
    cbn [assoc_get]. by rewrite String.eqb_refl.
  - intros k Hk. unfold field. rewrite hget_lt by (by rewrite length_insert).
    rewrite hget_insert_eq by done. by apply obj_get_set_ne.
  - intros l Hl Hla. rewrite lookup_app_l by (by rewrite length_insert).
    by rewrite list_lookup_insert_ne.
Qed.

(** ** The registry *)

Lemma provider_endpoint_run (fuel : nat) (h : heap) (t : list event)
    (p e : loc) (x : string) :
  field h (VRef p) "endpoints" = VRef e ->
  e < length h ->
  call_fn (4 + fuel) Provider_endpoint (VRef p) [VStr x]
    {| st_heap := h; st_trace := t |} =
  (inr (VRef (length h)),
   {| st_heap := <[e := obj_set x (VRef (length h)) (hget h e)]> h
                 ++ fresh_config (length h);
      st_trace := t |}).
Proof.
  intros Hf He.
  assert (Hp : p < length h) by (by eapply field_allocated).
  unfold field in Hf.
  change (4 + fuel) with (S (3 + fuel)). rewrite call_fn_S.
  unfold provider_endpoint.
  change (construct (call_fn (3 + fuel)) (VFun ApiEndpointConfig) [])
    with (new (3 + fuel) ApiEndpointConfig []).
  unfold bind at 1. rewrite new_config.
  step. rewrite Hf. step. reflexivity.
Qed.

(** C2 (amended). Every call of [endpoint(x)] builds a new config, stores
    it under [x] in place of whatever was there and returns it.  Two calls
    with the same name therefore return two different objects, the registry
    keeps the second, and a [route] set through the first handle is not seen
    through the second, which still has no template of its own. *)
Theorem endpoint_always_creates (fuel : nat) (s : state) (p e : loc)
    (x : string) (template : value) :
  field (st_heap s) (VRef p) "endpoints" = VRef e ->
  e < length (st_heap s) ->
  e <> p ->
  oelems (hget (st_heap s) e) = None ->
  exists c1 c2 s1 s2 s3,
    call_fn (4 + fuel) Provider_endpoint (VRef p) [VStr x] s = (inr (VRef c1), s1)
    /\ call_fn (4 + fuel) Provider_endpoint (VRef p) [VStr x] s1 = (inr (VRef c2), s2)
    /\ c1 = length (st_heap s) /\ c2 = length (st_heap s1) /\ c1 < c2
    /\ field (st_heap s1) (VRef e) x = VRef c1
    /\ field (st_heap s2) (VRef e) x = VRef c2
    /\ invoke (1 + fuel) (VRef c1) "route" [template] s2 = (inr (VRef c1), s3)
    /\ field (st_heap s3) (VRef c1) "route" = template
    /\ field (st_heap s3) (VRef c2) "route" = VFun Config_route.
Proof.
  destruct s as [h t]. cbn [st_heap st_trace]. intros Hf He Hne Hplain.
  assert (Hp : p < length h) by (by eapply field_allocated).
  set (o1 := obj_set x (VRef (length h)) (hget h e)).
  set (h1 := <[e := o1]> h ++ fresh_config (length h)).
  assert (Hlen1 : length h1 = length h + 7).
  { unfold h1. rewrite length_app, length_insert. reflexivity. }
  assert (Hf1 : field h1 (VRef p) "endpoints" = VRef e).
  { unfold field, h1. rewrite hget_lt by (by rewrite length_insert).
    by rewrite hget_insert_ne. }
  assert (He1 : hget h1 e = o1).
  { unfold h1. rewrite hget_lt by (by rewrite length_insert).
    by rewrite hget_insert_eq. }
  set (o2 := obj_set x (VRef (length h1)) o1).
  exists (length h), (length h1).
  eexists {| st_heap := h1; st_trace := t |}.
  eexists {| st_heap := <[e := o2]> h1 ++ fresh_config (length h1); st_trace := t |}.
  eexists.
  split. { by apply provider_endpoint_run. }
  split. { rewrite (provider_endpoint_run fuel h1 t p e) by (done || lia).
           by rewrite He1. }
  cbn [st_heap]. split; [done|]. split; [done|]. split; [lia|].
  assert (Ho1 : oelems o1 = None) by (unfold o1; by rewrite obj_set_plain).
  split. { unfold field. rewrite He1. by apply obj_get_set_eq. }
  split. { unfold field. rewrite hget_lt by (rewrite length_insert; lia).
           rewrite hget_insert_eq by lia. by apply obj_get_set_eq. }
  assert (Hc1 : hget (<[e := o2]> h1 ++ fresh_config (length h1)) (length h) =
                {| oproto := PCtor ApiEndpointConfig;
                   oprops := [("actions", VRef (length h + 1))]; oelems := None |}).
  { rewrite hget_lt by (rewrite length_insert; lia).
    rewrite hget_insert_ne by lia. unfold h1.
    rewrite <- (length_insert h e o1) at 2. by rewrite hget_app_r0. }
  split.
  { unfold invoke, call_method, get_prop. change (1 + fuel) with (S fuel).
    unfold bind at 1. unfold bind at 1, read, ret. cbn [st_heap st_trace].
    rewrite Hc1. cbn -[Nat.add]. rewrite call_fn_S. unfold config_route, set_prop.
    unfold bind, read, write, ret. cbn [st_heap st_trace arg]. rewrite Hc1.
    reflexivity. }
  cbn [st_heap].
  assert (Hc1' : length h < length (<[e := o2]> h1 ++ fresh_config (length h1))).
  { rewrite length_app, length_insert. lia. }
  split.
  { unfold field. rewrite hget_insert_eq by done.
    rewrite obj_get_set_eq; done. }
  unfold field. rewrite hget_insert_ne by lia.
  rewrite <- (length_insert h1 e o2) at 2. rewrite hget_app_r0. reflexivity.
Qed.

(** ** The trace only grows *)

Lemma grows_ret {A} (a : A) : grows (ret a).
Proof. intros s. exists []. by rewrite app_nil_r. Qed.

Lemma grows_throw {A} (e : value) : grows (@throw A e).
Proof. intros s. exists []. by rewrite app_nil_r. Qed.

Lemma grows_bind {A B} (m : M A) (k : A -> M B) :
  grows m -> (forall a, grows (k a)) -> grows (bind m k).
Proof.
  intros Hm Hk s. unfold bind. destruct (Hm s) as [r1 H1].
  destruct (m s) as [[e|a] s1]; cbn in *.
  - by exists r1.
  - destruct (Hk a s1) as [r2 H2]. exists (r1 ++ r2).
    by rewrite H2, H1, app_assoc.
Qed.

Lemma grows_alloc (o : obj) : grows (alloc o).
Proof. intros s. exists []. by rewrite app_nil_r. Qed.

Lemma grows_read (l : loc) : grows (read l).
Proof. intros s. exists []. by rewrite app_nil_r. Qed.

Lemma grows_write (l : loc) (o : obj) : grows (write l o).
Proof. intros s. exists []. by rewrite app_nil_r. Qed.

Lemma grows_emit (e : event) : grows (emit e).
Proof. intros s. by exists [e]. Qed.

Lemma grows_iterM {A} (f : A -> M unit) (xs : list A) :
  (forall x, grows (f x)) -> grows (iterM f xs).
Proof.
  intros Hf. induction xs as [|x xs IH]; cbn.
  - apply grows_ret.
  - apply grows_bind; [apply Hf | by intros _].
Qed.

Lemma grows_mapM {A B} (f : A -> M B) (xs : list A) :
  (forall x, grows (f x)) -> grows (mapM f xs).
Proof.
  intros Hf. induction xs as [|x xs IH]; cbn.
  - apply grows_ret.
  - apply grows_bind; [apply Hf | intros y].
    apply grows_bind; [apply IH | intros ys]. apply grows_ret.
Qed.

Ltac grow :=
  repeat first
    [ apply grows_ret | apply grows_throw | apply grows_alloc | apply grows_read
    | apply grows_write | apply grows_emit
    | apply grows_bind; [ | intros ? ]
    | apply grows_iterM; intros ?
    | apply grows_mapM; intros ?
    | assumption
    | match goal with
      | |- grows (if ?b then _ else _) => destruct b
      | |- grows (match ?x with _ => _ end) => destruct x
      end ].

Lemma grows_get_prop (v : value) (k : string) : grows (get_prop v k).
Proof. unfold get_prop, type_error. grow. Qed.

Lemma grows_set_prop (v : value) (k : string) (x : value) : grows (set_prop v k x).
Proof. unfold set_prop, type_error. grow. Qed.

Lemma grows_forEach (v : value) (it : value -> string -> M unit) :
  (forall x k, grows (it x k)) -> grows (angular_forEach v it).
Proof. intros Hit. unfold angular_forEach. grow. apply Hit. Qed.

Lemma grows_extend (dst : value) (srcs : list value) : grows (angular_extend dst srcs).
Proof.
  unfold angular_extend. grow. apply grows_forEach. intros. apply grows_set_prop.
Qed.

Lemma grows_isArray (v : value) : grows (angular_isArray v).
Proof. unfold angular_isArray. grow. Qed.

Lemma grows_copy (depth : nat) : forall v, grows (angular_copy depth v).
Proof.
  induction depth as [|d IH]; intros v; destruct v; cbn; unfold range_error; grow;
    apply IH.
Qed.

Lemma grows_resource_factory (url actions : value) : grows (resource_factory url actions).
Proof. unfold resource_factory. grow. Qed.

Lemma grows_run_user (n : nat) (this : value) (args : list value) :
  grows (run_user n this args).
Proof.
  unfold run_user. grow.
  intros s. exists []. cbn. destruct (user_call _ _ _ _). cbn. by rewrite app_nil_r.
Qed.

Lemma grows_run_resource (url name : string) (args : list value) :
  grows (run_resource url name args).
Proof.
  unfold run_resource. grow.
  intros s. exists []. cbn. destruct (resource_call _ _ _ _ _). cbn. by rewrite app_nil_r.
Qed.

Section Grows.

Variable call : fn -> value -> list value -> M value.
Hypothesis grows_call : forall f this args, grows (call f this args).

Lemma grows_call_value (f this : value) (args : list value) :
  grows (call_value call f this args).
Proof. unfold call_value, type_error. grow. apply grows_call. Qed.

Lemma grows_call_method (recv : value) (k : string) (args : list value) :
  grows (call_method call recv k args).
Proof. unfold call_method. grow; [apply grows_get_prop | apply grows_call_value]. Qed.

Lemma grows_construct (f : value) (args : list value) : grows (construct call f args).
Proof. unfold construct, type_error. grow. apply grows_call. Qed.

Lemma grows_promise_then (this : value) (args : list value) :
  grows (promise_then call this args).
Proof.
  unfold promise_then, type_error. destruct this as [| | | | | | | | |[] v]; grow.
  intros s. destruct (grows_call_value (arg 0 args) VUndef [v] s) as [rest Hr].
  exists rest. destruct (call_value _ _ _ _ _) as [[e|w] s']; [done|].
  by destruct w.
Qed.

Lemma grows_array_map (this : value) (args : list value) :
  grows (array_map call this args).
Proof. unfold array_map, type_error. grow. apply grows_call_value. Qed.

End Grows.

Lemma grows_call_fn (fuel : nat) :
  forall f this args, grows (call_fn fuel f this args).
Proof.
  induction fuel as [|n IH]; intros f this args.
  - Transparent call_fn. cbn. Opaque call_fn. apply grows_throw.
  - rewrite call_fn_S.
    destruct f;
      unfold apiEndpointConfig, config_route, config_model, config_addHttpAction,
        config_enableQuery, apiEndpoint, endpoint_instantiateModel, endpoint_request,
        endpoint_getRequestWithModel, endpoint_saveRequestWithModel, on_response,
        apiProvider, provider_setBaseRoute, provider_endpoint, provider_get,
        function_bind, prepare_model, select_actionMethod, toUpperCase,
        check_coercible, type_error;
      repeat first
        [ apply grows_get_prop | apply grows_set_prop | apply grows_extend
        | apply grows_isArray | apply grows_copy | apply grows_resource_factory
        | apply grows_run_user | apply grows_run_resource
        | apply grows_call_method; assumption
        | apply grows_call_value; assumption
        | apply grows_construct; assumption
        | apply grows_promise_then; assumption
        | apply grows_array_map; assumption
        | apply IH
        | apply grows_forEach; intros ? ?
        | progress grow ].
Qed.

(** ** The plain request and the read path *)

Lemma grows_after {A B} (m : M A) (k : A -> M B) (s : state) :
  (forall a, grows (k a)) ->
  exists rest, st_trace (snd (bind m k s)) = st_trace (snd (m s)) ++ rest.
Proof.
  intros Hk. unfold bind. destruct (m s) as [[e|a] s1]; cbn.
  - exists []. by rewrite app_nil_r.
  - apply Hk.
Qed.

(** [this.request(action, params, data)] on an endpoint whose [request] and
    [resource] are the ones the constructor installed. *)
Lemma request_run (fuel : nat) (s : state) (e r : loc) (url action : string)
    (args : list value) :
  field (st_heap s) (VRef e) "resource" = VRef r ->
  field (st_heap s) (VRef r) action = VFun (Resource_action url action) ->
  arg 0 args = VStr action ->
  call_fn (2 + fuel) Endpoint_request (VRef e) args s =
  (let* res := run_resource url action [arg 1 args; arg 2 args] in
   get_prop res "$promise") s.
Proof.
  destruct s as [h t]. cbn [st_heap]. unfold field. intros Hr Ha Harg.
  change (2 + fuel) with (S (S fuel)). rewrite call_fn_S.
  unfold endpoint_request, call_method. rewrite Harg.
  step. rewrite Hr. step. rewrite Ha. step.
  reflexivity.
Qed.

Lemma request_trace (url action : string) (params data : value) (s : state) :
  st_trace (snd ((let* res := run_resource url action [params; data] in
                  get_prop res "$promise") s)) =
  st_trace s ++ [ETransport url action params data].
Proof.
  destruct s as [h t]. unfold run_resource. step.
  destruct (resource_call url action params data h) as [[err|res] h1]; [done|].
  destruct res; done.
Qed.

(** C10. The callable of a read-with-model action behaves the same whatever
    is passed as [data], and the request it hands to the transport carries
    no payload; the callable of a plain action hands the transport both the
    parameters and the payload it was given. *)
Theorem read_with_model_drops_data (fuel : nat) (s : state) (e r : loc)
    (url action : string) (this params data : value) :
  field (st_heap s) (VRef e) "request" = VFun Endpoint_request ->
  field (st_heap s) (VRef e) "resource" = VRef r ->
  field (st_heap s) (VRef r) action = VFun (Resource_action url action) ->
  let read := Bound Endpoint_getRequestWithModel (VRef e) [VStr action] in
  let plain := Bound Endpoint_request (VRef e) [VStr action] in
  call_fn (4 + fuel) read this [params; data] s =
    call_fn (4 + fuel) read this [params] s
  /\ (exists rest,
        st_trace (snd (call_fn (4 + fuel) read this [params; data] s)) =
        st_trace s ++ ETransport url action params VUndef :: rest)
  /\ st_trace (snd (call_fn (3 + fuel) plain this [params; data] s)) =
       st_trace s ++ [ETransport url action params data].
Proof.
  intros Hreq Hres Hact read plain. subst read plain.
  change (4 + fuel) with (S (S (2 + fuel))). change (3 + fuel) with (S (2 + fuel)).
  rewrite !call_fn_S. cbn [app].
  split; [reflexivity|]. split.
  - unfold endpoint_getRequestWithModel. cbn [arg lookup list_lookup default].
    unfold call_method at 1.
    assert (Hget : get_prop (VRef e) "request" s = (inr (VFun Endpoint_request), s)).
    { destruct s as [h t]. unfold field in Hreq. cbn in *. unfold bind, read, ret.
      cbn. by rewrite Hreq. }
    match goal with
    | |- context [bind (bind ?m ?k1) ?k2 s] =>
        destruct (grows_after (bind m k1) k2 s) as [rest Hrest]
    end.
    { intros promise.
      apply grows_bind; [apply grows_get_prop | intros unbound].
      apply grows_bind; [ | intros bound];
        apply grows_call_method, grows_call_fn. }
    rewrite Hrest. unfold bind at 1. rewrite Hget. cbn [call_value].
    rewrite (request_run fuel s e r url action) by done.
    rewrite request_trace. exists rest. by rewrite <- app_assoc.
  - rewrite (request_run fuel s e r url action) by done. apply request_trace.
Qed.

(** ** Instantiating models *)

Lemma extends_refl (h : heap) : extends h h.
Proof. split; [lia|done]. Qed.

Lemma extends_trans (h1 h2 h3 : heap) :
  extends h1 h2 -> extends h2 h3 -> extends h1 h3.
Proof.
  intros [L1 A1] [L2 A2]. split; [lia|].
  intros l Hl. rewrite A2 by lia. by apply A1.
Qed.

Lemma extends_hget (h h' : heap) (l : loc) :
  extends h h' -> l < length h -> hget h' l = hget h l.
Proof. intros [_ A] Hl. unfold hget. by rewrite A. Qed.

Lemma extends_field (h h' : heap) (l : loc) (k : string) :
  extends h h' -> l < length h -> field h' (VRef l) k = field h (VRef l) k.
Proof. intros He Hl. unfold field. by rewrite (extends_hget h h'). Qed.

Lemma extends_own_of (h h' : heap) (v : value) :
  extends h h' -> (forall l, v = VRef l -> l < length h) -> own_of h' v = own_of h v.
Proof.
  intros He Hv. destruct v; try reflexivity. cbn.
  rewrite (extends_hget h h'); [done|done|]. by apply Hv.
Qed.

Lemma extends_app (h x : heap) : extends h (h ++ x).
Proof.
  split; [rewrite length_app; lia|]. intros l Hl. by rewrite lookup_app_l.
Qed.

Lemma extends_insert_fresh (h h' : heap) (l : loc) (o : obj) :
  extends h h' -> length h <= l -> extends h (<[l := o]> h').
Proof.
  intros [L A] Hl. split; [by rewrite length_insert|].
  intros l' Hl'. rewrite list_lookup_insert_ne by lia. by apply A.
Qed.

Lemma confined_extends (n : nat) (h hb : heap) (this : value) (args : list value) :
  confined n -> extends hb h -> (forall l, this = VRef l -> length hb <= l) ->
  extends hb (snd (user_call n this args h)).
Proof.
  intros Hc [L A] Hthis. destruct (Hc this args h) as [L' A'].
  split; [lia|]. intros l Hl. rewrite A'; [by apply A|lia|].
  intros ->. specialize (Hthis _ eq_refl). lia.
Qed.

Lemma extend_props_gets (key : string) (v : value) (src : props) :
  forall base, NoDup (map fst src) -> assoc_get key src = Some v ->
    assoc_get key (extend_props base src) = Some v.
Proof.
  induction src as [|[k' v'] src IH]; intros base Hnd Hk; [done|].
  cbn [map fst] in Hnd. apply NoDup_cons in Hnd as [Hnotin Hnd].
  cbn [assoc_get] in Hk. cbn [extend_props fold_left fst snd].
  fold (extend_props (assoc_set k' v' base) src).
  destruct (String.eqb key k') eqn:E.
  - apply String.eqb_eq in E. subst k'. injection Hk as ->.
    rewrite extend_props_keeps; [apply assoc_get_set_eq|].
    clear -Hnotin. induction src as [|[k0 v0] src IH]; [done|].
    cbn in *. destruct (String.eqb key k0) eqn:E.
    + apply String.eqb_eq in E. subst. exfalso. apply Hnotin. by left.
    + apply IH. intros Hin. apply Hnotin. by right.
  - by apply IH.
Qed.


(** One call of [instantiateModel]: the instance is a new object, the
    constructor and then [afterLoad] are called on it once each, and when
    [afterLoad] runs the instance carries every property of the raw item. *)
Lemma instantiateModel_run (fuel : nat) (hb h : heap) (t : list event)
    (e c : loc) (n k : nat) (raw : value) (more : list value) :
  model_class n k ->
  models hb e c n ->
  extends hb h ->
  raw_ok hb raw ->
  exists own h',
    call_fn (3 + fuel) Endpoint_instantiateModel (VRef e) (raw :: more)
      {| st_heap := h; st_trace := t |} =
    (inr (VRef (length h)),
     {| st_heap := h'; st_trace := t ++ hook_events n k [(length h, own)] |})
    /\ carries own (own_of hb raw)
    /\ extends hb h'
    /\ length h < length h'.
Proof.
  intros MC (Him & Hinj & Hcfg & Hmodel) Hext (Hraw & Hnodup & Hnohook).
  assert (He : e < length hb) by (by eapply field_allocated).
  assert (Hc : c < length hb) by (by eapply field_allocated).
  rewrite <- (extends_field hb h) in Hinj, Hcfg, Hmodel by done.
  unfold field in Hinj, Hcfg, Hmodel.
  change (3 + fuel) with (S (S (S fuel))). rewrite call_fn_S.
  unfold endpoint_instantiateModel. step. rewrite Hinj. step. rewrite Hcfg. step.
  rewrite Hmodel. step. unfold construct. step. unfold run_user. step.
  set (inst := {| oproto := PCtor (User n); oprops := []; oelems := None |}).
  set (m := length h).
  assert (Hm : (h ++ [inst]) !! m = Some inst).
  { unfold m. by rewrite lookup_app_r, Nat.sub_diag by lia. }
  destruct (mc_ctor_returns _ _ MC (VRef m) [] (h ++ [inst])) as (r0 & Hr0 & Hobj).
  destruct (mc_ctor_instance _ _ MC m [] (h ++ [inst]) inst Hm eq_refl eq_refl eq_refl)
    as (o' & Ho' & Hproto & Helems & Hown).
  pose proof (mc_ctor_confined _ _ MC (VRef m) [] (h ++ [inst])) as [Hlen2 Hsame2].
  destruct (user_call n (VRef m) [] (h ++ [inst])) as [r h2]. cbn [fst snd] in *.
  subst r. rewrite Hobj.
  assert (Hext2 : extends hb h2).
  { destruct Hext as [L A]. split; [rewrite length_app in Hlen2; lia|].
    intros l Hl. rewrite Hsame2.
    - rewrite lookup_app_l by lia. by apply A.
    - rewrite length_app. lia.
    - unfold m. intros [= Heq]. lia. }
  assert (Hraw_m : raw <> VRef m).
  { intros ->. specialize (Hraw _ eq_refl). destruct Hext. lia. }
  rewrite (extend_run h2 _ m o') by done.
  rewrite (extends_own_of hb h2) by done.
  set (own := extend_props (oprops o') (own_of hb raw)).
  set (o2 := {| oproto := oproto o'; oprops := own; oelems := None |}).
  assert (Hm2 : m < length h2) by (by eapply lookup_lt_Some).
  assert (Hhook : obj_get o2 "afterLoad" = VFun (User k)).
  { unfold obj_get, own_props, o2, own. cbn [oelems oprops oproto].
    rewrite extend_props_keeps, Hown, Hproto by done.
    cbn [proto_props]. by rewrite (mc_hook _ _ MC). }
  unfold call_method. step. rewrite Hhook. step. unfold run_user. step.
  destruct (mc_hook_returns _ _ MC (VRef m) [] (<[m := o2]> h2)) as (r1 & Hr1).
  pose proof (mc_hook_confined _ _ MC (VRef m) [] (<[m := o2]> h2)) as [Hlen3 Hsame3].
  destruct (user_call k (VRef m) [] (<[m := o2]> h2)) as [r h3]. cbn [fst snd] in *.
  subst r. exists own, h3. split.
  { reflexivity. }
  rewrite length_insert in Hlen3. rewrite length_insert in Hsame3.
  split.
  { intros key v Hkv. unfold own. by apply extend_props_gets. }
  split.
  - destruct Hext2 as [L A]. split; [lia|]. intros l Hl.
    rewrite Hsame3.
    + rewrite list_lookup_insert_ne; [by apply A|]. destruct Hext. unfold m. lia.
    + lia.
    + destruct Hext. unfold m. intros [= Heq]. lia.
  - unfold m in *. lia.
Qed.

(** [data.map(instantiateModel)]: the items are instantiated one after the
    other, in order. *)
Lemma instantiate_all (fuel : nat) (hb : heap) (e c : loc) (n k : nat) (arr : value) :
  model_class n k ->
  models hb e c n ->
  forall (ivs : list (nat * value)) (h : heap) (t : list event),
    extends hb h ->
    Forall (fun iv => raw_ok hb (snd iv)) ivs ->
    exists calls h',
      mapM (fun iv => call_value (call_fn (4 + fuel))
                        (VFun (Bound Endpoint_instantiateModel (VRef e) [])) VUndef
                        [snd iv; VNum (Z.of_nat (fst iv)); arr]) ivs
        {| st_heap := h; st_trace := t |} =
      (inr (map (fun c => VRef (fst c)) calls),
       {| st_heap := h'; st_trace := t ++ hook_events n k calls |})
      /\ Forall2 (fun iv c => carries (snd c) (own_of hb (snd iv))) ivs calls
      /\ Forall (fun c => length h <= fst c < length h') calls
      /\ NoDup (map fst calls)
      /\ extends hb h'
      /\ length h <= length h'.
Proof.
  intros MC Hmodels ivs. induction ivs as [|[i raw] ivs IH]; intros h t Hext Hok.
  - exists [], h. cbn. unfold ret. rewrite app_nil_r.
    split; [done|]. split; [constructor|]. split; [constructor|].
    split; [apply NoDup_nil_2|]. split; [done|lia].
  - apply Forall_cons in Hok as [Hraw Hok]. cbn [snd fst] in *.
    destruct (instantiateModel_run fuel hb h t e c n k raw
                [VNum (Z.of_nat i); arr] MC Hmodels Hext Hraw)
      as (own & h1 & Hrun & Hcar & Hext1 & Hlt).
    destruct (IH h1 (t ++ hook_events n k [(length h, own)]) Hext1 Hok)
      as (calls & h2 & Hrest & Hall & Hrange & Hnd & Hext2 & Hle).
    exists ((length h, own) :: calls), h2.
    split.
    { cbn [mapM]. unfold bind at 1. cbn [call_value fst snd].
      change (4 + fuel) with (S (3 + fuel)). rewrite call_fn_S. cbn [app].
      rewrite Hrun. unfold bind at 1.
      change (S (3 + fuel)) with (4 + fuel). cbn [call_value] in Hrest. rewrite Hrest.
      unfold ret. cbn [map fst]. do 2 f_equal.
      unfold hook_events. cbn [flat_map]. by rewrite <- app_assoc. }
    split. { by constructor. }
    split.
    { constructor; [cbn; lia|]. eapply Forall_impl; [exact Hrange|].
      cbn. intros. lia. }
    split.
    { cbn [map fst]. apply NoDup_cons. split; [|done].
      intros Hin. apply list_elem_of_fmap in Hin as (c0 & Heq & Hin).
      rewrite Forall_forall in Hrange. specialize (Hrange _ Hin). lia. }
    split; [done|lia].
Qed.

Lemma snd_imap_pairs (vs : list value) :
  forall g : nat -> nat, map snd (imap (fun i v => (g i, v)) vs) = vs.
Proof.
  induction vs as [|v vs IH]; intros g; [done|].
  cbn. f_equal. apply (IH (g ∘ S)).
Qed.

Lemma snd_imap_index (vs : list value) :
  snd <$> imap (fun i v => (i, v)) vs = vs.
Proof. exact (snd_imap_pairs vs id). Qed.

(** C7. On the read path, when the transport resolves with a response whose
    payload is an array, every element is instantiated in the original order
    and the response's payload becomes the array of the instances; when the
    payload is not an array, it is instantiated once and replaced by the
    instance.  Each instance is a new object of the model class on which the
    constructor and then [afterLoad] are called exactly once, and it holds
    every field of its raw item when [afterLoad] runs. *)
Theorem read_with_model_instantiates (fuel : nat) (s : state)
    (e r c resp : loc) (n k : nat) (url action : string)
    (params res payload : value) (h1 : heap) :
  model_class n k ->
  wired (st_heap s) e r url action ->
  resource_call url action params VUndef (st_heap s) = (inr res, h1) ->
  field h1 res "$promise" = VPromise true (VRef resp) ->
  resp < length h1 ->
  oelems (hget h1 resp) = None ->
  field h1 (VRef resp) "data" = payload ->
  (payload_is_array h1 payload = true -> field h1 payload "map" = VFun Array_map) ->
  models h1 e c n ->
  Forall (raw_ok h1) (payload_items h1 payload) ->
  exists calls s',
    call_fn (8 + fuel) Endpoint_getRequestWithModel (VRef e) [VStr action; params] s =
      (inr (VPromise true VUndef), s')
    /\ st_trace s' =
         st_trace s ++ ETransport url action params VUndef :: hook_events n k calls
    /\ Forall2 (fun raw call => carries (snd call) (own_of h1 raw))
         (payload_items h1 payload) calls
    /\ NoDup (map fst calls)
    /\ Forall (fun call => length h1 <= fst call) calls
    /\ if payload_is_array h1 payload
       then exists a, field (st_heap s') (VRef resp) "data" = VRef a
                      /\ oelems (hget (st_heap s') a) =
                           Some (map (fun call => VRef (fst call)) calls)
       else exists m own, calls = [(m, own)]
                          /\ field (st_heap s') (VRef resp) "data" = VRef m.
Proof.
  destruct s as [h t]. cbn [st_heap st_trace].
  intros MC (Hreq & Hres & Hact) Hcall Hpromise Hresp Hplain Hdata Hmap Hmodels Hraws.
  pose proof Hmodels as (Him & _).
  assert (He : e < length h1) by (by eapply field_allocated).
  change (8 + fuel) with (S (S (S (S (S (S (2 + fuel))))))). rewrite call_fn_S.
  unfold endpoint_getRequestWithModel. cbn [arg lookup list_lookup default].
  unfold call_method at 1. unfold bind at 1. unfold bind at 1.
  assert (Hget : get_prop (VRef e) "request" {| st_heap := h; st_trace := t |} =
                 (inr (VFun Endpoint_request), {| st_heap := h; st_trace := t |})).
  { unfold field in Hreq. cbn. unfold bind, read, ret. cbn. by rewrite Hreq. }
  rewrite Hget. cbn [call_value].
  change (S (S (S (S (S (2 + fuel)))))) with (2 + (5 + fuel)).
  rewrite (request_run (5 + fuel) _ e r url action) by done.
  unfold run_resource. cbn [arg lookup list_lookup default]. step.
  rewrite Hcall. destruct res as [| | | | |x| | | |]; try (cbn in Hpromise; discriminate).
  unfold field in Hpromise, Him, Hdata. step. rewrite Hpromise. rewrite Him. step.
  change (2 + (5 + fuel)) with (S (S (S (4 + fuel)))).
  unfold call_method. step. rewrite Hdata.
  set (t1 := t ++ [ETransport url action params VUndef]).
  assert (Htrace : forall evs, t1 ++ evs = t ++ ETransport url action params VUndef :: evs).
  { intros evs. unfold t1. by rewrite <- app_assoc. }
  destruct payload as [| | | | |a| | | |];
    try (cbn [angular_isArray payload_is_array payload_items] in *; unfold ret;
         apply Forall_cons in Hraws as [Hraw _];
         change (4 + fuel) with (3 + (1 + fuel));
         destruct (instantiateModel_run (1 + fuel) h1 h1 t1 e c n k _ [] MC Hmodels
                     (extends_refl h1) Hraw) as (own & h2 & Hrun & Hcar & Hext & Hlt);
         rewrite Hrun; cbn [st_heap st_trace];
         exists [(length h1, own)]; eexists; split; [reflexivity|];
         cbn [st_heap st_trace]; split; [apply Htrace|];
         split; [by repeat constructor|]; split; [apply NoDup_singleton|];
         split; [by repeat constructor|];
         exists (length h1), own; split; [done|];
         rewrite hget_insert_eq by (destruct Hext; lia);
         rewrite (extends_hget h1 h2) by done; by apply obj_get_set_eq).
  cbn [angular_isArray payload_is_array payload_items] in *. unfold bind, read, ret.
  cbn [st_heap st_trace]. unfold is_array in *.
  destruct (oelems (hget h1 a)) as [vs|] eqn:Hvs.
  - specialize (Hmap eq_refl). unfold field in Hmap. unfold get_prop. step.
    rewrite Hmap. cbn [call_value]. rewrite call_fn_S. unfold array_map.
    cbn [arg lookup list_lookup default from_option id]. unfold bind at 1.
    unfold read at 1. cbn [st_heap st_trace]. rewrite Hvs.
    cbn [default from_option id].
    destruct (instantiate_all fuel h1 e c n k (VRef a) MC Hmodels
                (imap (fun i v => (i, v)) vs) h1 t1 (extends_refl h1))
      as (calls & h2 & Hrun & Hall & Hrange & Hnd & Hext & Hle).
    { apply (Forall_fmap snd (raw_ok h1)). by rewrite snd_imap_index. }
    unfold bind at 1. rewrite Hrun. step.
    exists calls. eexists. split; [reflexivity|]. cbn [st_heap st_trace].
    split; [apply Htrace|].
    split.
    { apply (Forall2_fmap_l snd (fun raw call => carries (snd call) (own_of h1 raw))) in Hall.
      by rewrite snd_imap_index in Hall. }
    split; [done|].
    split. { eapply Forall_impl; [exact Hrange|]. cbn. intros. lia. }
    exists (length h2). destruct Hext as [L A].
    assert (Hr2 : hget h2 resp = hget h1 resp) by (apply extends_hget; [by split|done]).
    split.
    + rewrite hget_lt by (rewrite length_insert; lia).
      rewrite hget_insert_eq by lia. apply obj_get_set_eq. by rewrite Hr2.
    + rewrite <- (length_insert h2 resp (obj_set "data" (VRef (length h2)) (hget h2 resp))) at 2.
      by rewrite hget_app_r0.
  - apply Forall_cons in Hraws as [Hraw _].
    change (4 + fuel) with (3 + (1 + fuel)).
    destruct (instantiateModel_run (1 + fuel) h1 h1 t1 e c n k _ [] MC Hmodels
                (extends_refl h1) Hraw) as (own & h2 & Hrun & Hcar & Hext & Hlt).
    rewrite Hrun. cbn [st_heap st_trace].
    exists [(length h1, own)]. eexists. split; [reflexivity|].
    cbn [st_heap st_trace]. split; [apply Htrace|].
    split; [by repeat constructor|]. split; [apply NoDup_singleton|].
    split; [by repeat constructor|].
    exists (length h1), own. split; [done|].
    rewrite hget_insert_eq by (destruct Hext; lia).
    rewrite (extends_hget h1 h2) by done. by apply obj_get_set_eq.
Qed.

(** ** [angular.copy] *)

Lemma deep_eq_app_r (d : nat) (h1 h2 x : heap) :
  forall v1 v2, deep_eq d h1 v1 h2 v2 -> deep_eq d h1 v1 (h2 ++ x) v2.
Proof.
  induction d as [|d IH]; intros v1 v2; destruct v1, v2; cbn; try done.
  destruct (h1 !! l) as [o1|]; [|done].
  destruct (h2 !! l0) as [o2|] eqn:E2; [|done].
  rewrite (lookup_app_l_Some _ _ _ _ E2).
  intros (Hp & Hk & Hv & He). repeat split; try done.
  - eapply Forall2_impl; [exact Hv|]. intros. by apply IH.
  - destruct He as [vs1 vs2 He|]; constructor.
    eapply Forall2_impl; [exact He|]. intros. by apply IH.
Qed.

Lemma deep_eq_nonref (d : nat) (h1 h2 : heap) (v1 v2 : value) :
  (forall l, v1 <> VRef l) -> deep_eq d h1 v1 h2 v2 -> v2 = v1.
Proof.
  intros Hn. destruct d, v1, v2; cbn; try done; try congruence;
    intros; exfalso; by eapply Hn.
Qed.

Lemma deep_eq_prim (d : nat) (h1 h2 : heap) (v : value) :
  (forall l, v <> VRef l) -> deep_eq d h1 v h2 v.
Proof. intros Hn. destruct d, v; cbn; try done; exfalso; by eapply Hn. Qed.

Lemma refs_above_mono (n n' : nat) (o : obj) :
  n <= n' -> refs_above n' o -> refs_above n o.
Proof. intros Hle Hr l Hl. specialize (Hr l Hl). lia. Qed.

Section CopyLists.

Variables (d depth : nat).

(** What copying one value at depth [d] achieves, as the induction
    hypothesis for the lists of values an object holds. *)
Hypothesis copy_value : forall (v : value) (h0 ext : heap) (t : list event),
  deep d h0 v = true ->
  exists v' new,
    angular_copy depth v {| st_heap := h0 ++ ext; st_trace := t |} =
      (inr v', {| st_heap := (h0 ++ ext) ++ new; st_trace := t |})
    /\ deep_eq d h0 v ((h0 ++ ext) ++ new) v'
    /\ Forall (refs_above (length (h0 ++ ext))) new
    /\ (forall l, v' = VRef l ->
          length (h0 ++ ext) <= l < length ((h0 ++ ext) ++ new)).

Lemma copy_elems (vs : list value) :
  forall (h0 ext : heap) (t : list event),
    forallb (deep d h0) vs = true ->
    exists vs' new,
      mapM (angular_copy depth) vs {| st_heap := h0 ++ ext; st_trace := t |} =
        (inr vs', {| st_heap := (h0 ++ ext) ++ new; st_trace := t |})
      /\ Forall2 (fun v v' => deep_eq d h0 v ((h0 ++ ext) ++ new) v') vs vs'
      /\ Forall (refs_above (length (h0 ++ ext))) new
      /\ Forall (fun v' => forall l, v' = VRef l ->
                   length (h0 ++ ext) <= l < length ((h0 ++ ext) ++ new)) vs'.
Proof.
  induction vs as [|v vs IH]; intros h0 ext t Hdeep.
  - exists [], []. cbn. unfold ret. rewrite app_nil_r. by repeat split.
  - cbn [forallb] in Hdeep. apply andb_true_iff in Hdeep as [Hv Hvs].
    destruct (copy_value v h0 ext t Hv) as (v' & new1 & Hrun1 & Heq1 & Hab1 & Hr1).
    destruct (IH h0 (ext ++ new1) t Hvs) as (vs' & new2 & Hrun2 & Heq2 & Hab2 & Hr2).
    rewrite !app_assoc in Hrun2, Heq2, Hab2, Hr2.
    exists (v' :: vs'), (new1 ++ new2). rewrite !app_assoc.
    split. { cbn [mapM]. unfold bind at 1. rewrite Hrun1. unfold bind at 1.
             by rewrite Hrun2. }
    split. { constructor; [by apply deep_eq_app_r|done]. }
    split. { apply Forall_app. split; [done|].
             eapply Forall_impl; [exact Hab2|]. intros o. apply refs_above_mono.
             rewrite !length_app. lia. }
    constructor.
    + intros l Hl. specialize (Hr1 l Hl). rewrite !length_app in *. lia.
    + eapply Forall_impl; [exact Hr2|]. cbn. intros w Hw l Hl.
      specialize (Hw l Hl). rewrite !length_app in *. lia.
Qed.

Lemma copy_props (ps : props) :
  forall (h0 ext : heap) (t : list event),
    forallb (deep d h0) (map snd ps) = true ->
    exists ps' new,
      mapM (fun kv => let* x := angular_copy depth (snd kv) in ret (fst kv, x)) ps
        {| st_heap := h0 ++ ext; st_trace := t |} =
        (inr ps', {| st_heap := (h0 ++ ext) ++ new; st_trace := t |})
      /\ map fst ps' = map fst ps
      /\ Forall2 (fun v v' => deep_eq d h0 v ((h0 ++ ext) ++ new) v')
           (map snd ps) (map snd ps')
      /\ Forall (refs_above (length (h0 ++ ext))) new
      /\ Forall (fun v' => forall l, v' = VRef l ->
                   length (h0 ++ ext) <= l < length ((h0 ++ ext) ++ new)) (map snd ps').
Proof.
  induction ps as [|[k v] ps IH]; intros h0 ext t Hdeep.
  - exists [], []. cbn. unfold ret. rewrite app_nil_r. by repeat split.
  - cbn [forallb map snd] in Hdeep. apply andb_true_iff in Hdeep as [Hv Hvs].
    destruct (copy_value v h0 ext t Hv) as (v' & new1 & Hrun1 & Heq1 & Hab1 & Hr1).
    destruct (IH h0 (ext ++ new1) t Hvs) as (ps' & new2 & Hrun2 & Hk2 & Heq2 & Hab2 & Hr2).
    rewrite !app_assoc in Hrun2, Heq2, Hab2, Hr2.
    exists ((k, v') :: ps'), (new1 ++ new2). rewrite !app_assoc.
    split. { cbn [mapM fst snd]. unfold bind at 1. unfold bind at 1. rewrite Hrun1.
             unfold ret at 1. unfold bind at 1. by rewrite Hrun2. }
    split. { cbn. by rewrite Hk2. }
    split. { cbn [map snd]. constructor; [by apply deep_eq_app_r|done]. }
    split. { apply Forall_app. split; [done|].
             eapply Forall_impl; [exact Hab2|]. intros o. apply refs_above_mono.
             rewrite !length_app. lia. }
    cbn [map snd]. constructor.
    + intros l Hl. specialize (Hr1 l Hl). rewrite !length_app in *. lia.
    + eapply Forall_impl; [exact Hr2|]. cbn. intros w Hw l Hl.
      specialize (Hw l Hl). rewrite !length_app in *. lia.
Qed.

End CopyLists.

(** [angular.copy] of a value nested at most [d] deep succeeds whenever the
    stack allows [d] levels: it only allocates, the copy is deep-equal to the
    source, and the new cells hold no reference to an old object. *)
Lemma copy_run (d : nat) :
  forall (depth : nat), d <= depth ->
  forall (v : value) (h0 ext : heap) (t : list event),
    deep d h0 v = true ->
    exists v' new,
      angular_copy depth v {| st_heap := h0 ++ ext; st_trace := t |} =
        (inr v', {| st_heap := (h0 ++ ext) ++ new; st_trace := t |})
      /\ deep_eq d h0 v ((h0 ++ ext) ++ new) v'
      /\ Forall (refs_above (length (h0 ++ ext))) new
      /\ (forall l, v' = VRef l ->
            length (h0 ++ ext) <= l < length ((h0 ++ ext) ++ new)).
Proof.
  induction d as [|d IH]; intros depth Hle v h0 ext t Hdeep.
  - destruct v; try discriminate;
      (eexists; exists []; rewrite app_nil_r;
       split; [destruct depth; reflexivity|]; split; [by cbn|];
       split; [constructor|]; intros ? Hx; discriminate Hx).
  - destruct v as [| | | | |l| | | |];
      try (eexists; exists []; rewrite app_nil_r;
           split; [destruct depth; reflexivity|]; split; [by cbn|];
           split; [constructor|]; intros ? Hx; discriminate Hx).
    destruct depth as [|depth]; [lia|]. assert (Hle' : d <= depth) by lia.
    cbn [deep] in Hdeep. destruct (h0 !! l) as [o|] eqn:Hl; [|done].
    unfold values in Hdeep. rewrite forallb_app in Hdeep.
    apply andb_true_iff in Hdeep as [Hde Hdp].
    cbn [angular_copy]. unfold bind at 1. unfold read at 1. cbn [st_heap st_trace].
    rewrite (hget_Some _ _ o (lookup_app_l_Some _ _ _ _ Hl)).
    assert (Helems : exists es new1,
      (match oelems o with
       | Some vs => let* vs' := mapM (angular_copy depth) vs in ret (Some vs')
       | None => ret None
       end) {| st_heap := h0 ++ ext; st_trace := t |} =
        (inr es, {| st_heap := (h0 ++ ext) ++ new1; st_trace := t |})
      /\ option_Forall2 (Forall2 (fun v v' => deep_eq d h0 v ((h0 ++ ext) ++ new1) v'))
           (oelems o) es
      /\ Forall (refs_above (length (h0 ++ ext))) new1
      /\ Forall (fun v' => forall l, v' = VRef l ->
                   length (h0 ++ ext) <= l < length ((h0 ++ ext) ++ new1))
           (default [] es)).
    { destruct (oelems o) as [vs|].
      - destruct (copy_elems d depth (IH depth Hle') vs h0 ext t Hde)
          as (vs' & new1 & Hrun & Heq & Hab & Hr).
        exists (Some vs'), new1. unfold bind. rewrite Hrun. unfold ret.
        repeat split; try done. by constructor.
      - exists None, []. unfold ret. rewrite app_nil_r.
        repeat split; try done; constructor. }
    destruct Helems as (es & new1 & Hrun1 & Heq1 & Hab1 & Hr1).
    unfold bind at 1. rewrite Hrun1.
    destruct (copy_props d depth (IH depth Hle') (oprops o) h0 (ext ++ new1) t Hdp)
      as (ps & new2 & Hrun2 & Hk2 & Heq2 & Hab2 & Hr2).
    rewrite !app_assoc in Hrun2, Heq2, Hab2, Hr2.
    unfold bind at 1. rewrite Hrun2. unfold alloc. cbn [st_heap st_trace].
    set (cell := {| oproto := oproto o; oprops := ps; oelems := es |}).
    exists (VRef (length (((h0 ++ ext) ++ new1) ++ new2))), (new1 ++ new2 ++ [cell]).
    rewrite !app_assoc. split; [reflexivity|].
    split.
    { cbn [deep_eq]. rewrite Hl.
      rewrite lookup_app_r, Nat.sub_diag by lia. cbn [lookup list_lookup].
      unfold cell. cbn [oproto oprops oelems]. repeat split; try done.
      - eapply Forall2_impl; [exact Heq2|]. intros. by apply deep_eq_app_r.
      - destruct Heq1 as [vs1 vs2 He|]; constructor.
        eapply Forall2_impl; [exact He|]. intros.
        rewrite <- (app_assoc _ new2 [cell]). by apply deep_eq_app_r. }
    split.
    { apply Forall_app. split; [apply Forall_app; split|].
      - done.
      - eapply Forall_impl; [exact Hab2|]. intros o'. apply refs_above_mono.
        rewrite !length_app. lia.
      - constructor; [|constructor]. intros x Hx. unfold values, cell in Hx.
        cbn [oelems oprops] in Hx. apply in_app_or in Hx as [Hx|Hx].
        + rewrite Forall_forall in Hr1. apply list_elem_of_In in Hx.
          specialize (Hr1 _ Hx x eq_refl). lia.
        + rewrite Forall_forall in Hr2. apply list_elem_of_In in Hx.
          specialize (Hr2 _ Hx x eq_refl). rewrite !length_app in *. lia. }
    intros x [= <-]. rewrite !length_app. cbn. lia.
Qed.

Lemma reach_above (h new : heap) (v : value) (m : loc) :
  Forall (refs_above (length h)) new ->
  reach (h ++ new) v m ->
  (forall l, v = VRef l -> length h <= l) ->
  length h <= m.
Proof.
  intros Hnew Hreach. induction Hreach as [l|l o v m Hl Hin Hreach IH]; intros Hv.
  - by apply Hv.
  - apply IH. intros l' ->.
    specialize (Hv l eq_refl). rewrite lookup_app_r in Hl by done.
    rewrite Forall_forall in Hnew. apply (Hnew o); [|done].
    by eapply list_elem_of_lookup_2.
Qed.

Lemma assoc_get_related (R : value -> value -> Prop) (k : string) (ps : props) :
  forall ps', map fst ps = map fst ps' ->
    Forall2 R (map snd ps) (map snd ps') ->
    option_Forall2 R (assoc_get k ps) (assoc_get k ps').
Proof.
  induction ps as [|[k1 v1] ps IH]; intros [|[k2 v2] ps'] Hk Hv; try done.
  - constructor.
  - cbn in Hk, Hv. injection Hk as -> Hk. apply Forall2_cons in Hv as [Hv Hvs].
    cbn. destruct (String.eqb k k2); [by constructor|by apply IH].
Qed.

Lemma fst_imap_length {K} (vs : list value) :
  forall (vs' : list value) (g : nat -> K), length vs = length vs' ->
    map fst (imap (fun i v => (g i, v)) vs) = map fst (imap (fun i v => (g i, v)) vs').
Proof.
  induction vs as [|v vs IH]; intros [|v' vs'] g Hlen; try done.
  cbn. f_equal. apply (IH vs' (g ∘ S)). cbn in Hlen. lia.
Qed.

Lemma snd_imap_keys {K} (vs : list value) :
  forall g : nat -> K, map snd (imap (fun i v => (g i, v)) vs) = vs.
Proof.
  induction vs as [|v vs IH]; intros g; [done|].
  cbn. f_equal. apply (IH (g ∘ S)).
Qed.

(** A property that is not an object reads the same on a deep copy. *)
Lemma copy_field (d : nat) (h h' : heap) (l l' : loc) (k : string) :
  deep_eq (S d) h (VRef l) h' (VRef l') ->
  (forall x, field h (VRef l) k <> VRef x) ->
  field h' (VRef l') k = field h (VRef l) k.
Proof.
  cbn [deep_eq]. unfold field, hget.
  destruct (h !! l) as [o1|]; [|done]. destruct (h' !! l') as [o2|]; [|done].
  cbn [default from_option id]. intros (Hp & Hk & Hv & He) Hnr.
  assert (Hown : option_Forall2 (fun x y => deep_eq d h x h' y)
                   (assoc_get k (own_props o1)) (assoc_get k (own_props o2))).
  { apply assoc_get_related; unfold own_props.
    - destruct He as [vs1 vs2 He|]; [|done].
      rewrite !map_app, Hk. f_equal. apply fst_imap_length.
      by eapply Forall2_length.
    - destruct He as [vs1 vs2 He|]; [|done].
      rewrite !map_app. apply Forall2_app; [|done].
      unfold index_props. by rewrite !snd_imap_keys. }
  unfold obj_get in *. destruct Hown as [v1 v2 Hd|].
  - by apply deep_eq_nonref in Hd.
  - by rewrite Hp.
Qed.

Lemma deep_allocated (d : nat) (h : heap) (l : loc) :
  deep d h (VRef l) = true -> l < length h.
Proof.
  destruct d; [done|]. cbn. destruct (h !! l) eqn:E; [|done].
  intros _. by eapply lookup_lt_Some.
Qed.

(** The write path, run on a payload nested at most [d] deep. *)
Lemma save_run (fuel d : nat) (s : state) (e r l : loc)
    (url action : string) (params : value) :
  deep d (st_heap s) (VRef l) = true ->
  d <= 2 + fuel ->
  app_hook (field (st_heap s) (VRef l) "beforeSave") ->
  wired (st_heap s) e r url action ->
  exists l' s1,
    angular_copy (2 + fuel) (VRef l) s = (inr (VRef l'), s1)
    /\ (exists new, s1 = {| st_heap := st_heap s ++ new; st_trace := st_trace s |})
    /\ length (st_heap s) <= l'
    /\ deep_eq d (st_heap s) (VRef l) (st_heap s1) (VRef l')
    /\ (forall x, x < length (st_heap s) ->
          st_heap (snd (run_hook (field (st_heap s) (VRef l) "beforeSave")
                          (VRef l') s1)) !! x = st_heap s !! x)
    /\ call_fn (3 + fuel) Endpoint_saveRequestWithModel (VRef e)
         [VStr action; params; VRef l] s =
       (let* _ := run_hook (field (st_heap s) (VRef l) "beforeSave") (VRef l') in
        let* res := run_resource url action [params; VRef l'] in
        get_prop res "$promise") s1.
Proof.
  destruct s as [h t]. cbn [st_heap st_trace].
  intros Hdeep Hle Hhook (Hreq & Hres & Hact).
  destruct (copy_run d (2 + fuel) Hle (VRef l) h [] t Hdeep)
    as (v' & new & Hcopy & Heq & Habove & Hrange).
  rewrite !app_nil_r in *.
  assert (Hl : l < length h) by (by eapply deep_allocated).
  destruct d as [|d]; [done|].
  destruct v' as [| | | | |l'| | | |]; try (by destruct Heq).
  specialize (Hrange l' eq_refl).
  exists l', {| st_heap := h ++ new; st_trace := t |}.
  split; [done|]. split; [by exists new|]. split; [lia|]. split; [done|]. cbn [st_heap].
  set (hook := field h (VRef l) "beforeSave") in *.
  assert (Hnoref : forall x, hook <> VRef x).
  { intros x Hx. rewrite Hx in Hhook. cbn in Hhook. done. }
  assert (Hfield : field (h ++ new) (VRef l') "beforeSave" = hook).
  { by eapply copy_field. }
  assert (Hframe : forall x, x < length h ->
            st_heap (snd (run_hook hook (VRef l')
                            {| st_heap := h ++ new; st_trace := t |})) !! x = h !! x).
  { intros x Hx. unfold run_hook.
    destruct hook as [| | | | | |f| | |]; try (cbn; by rewrite lookup_app_l).
    destruct f; try (cbn; by rewrite lookup_app_l).
    cbn in Hhook. unfold run_user. step.
    pose proof (Hhook (VRef l') [] (h ++ new) x) as Hloc.
    destruct (user_call n (VRef l') [] (h ++ new)) as [res h2]. cbn [snd st_heap] in *.
    rewrite Hloc.
    - by rewrite lookup_app_l.
    - rewrite length_app. lia.
    - intros Hreach. apply (reach_above h new) in Hreach; [lia|done|].
      intros ? [= <-]. lia. }
  split; [exact Hframe|].
  change (3 + fuel) with (S (2 + fuel)). rewrite call_fn_S.
  unfold endpoint_saveRequestWithModel, prepare_model.
  cbn [arg lookup list_lookup default from_option id].
  unfold bind at 1. unfold bind at 1. rewrite Hcopy. cbn [truthy].
  assert (Hget : get_prop (VRef l') "beforeSave" {| st_heap := h ++ new; st_trace := t |}
                 = (inr hook, {| st_heap := h ++ new; st_trace := t |})).
  { unfold field in Hfield. cbn. unfold bind, read, ret. cbn. by rewrite Hfield. }
  assert (Hreq2 : forall s2 : state,
            (forall x, x < length h -> st_heap s2 !! x = h !! x) ->
            call_method (call_fn (2 + fuel)) (VRef e) "request"
              [VStr action; params; VRef l'] s2 =
            (let* res := run_resource url action [params; VRef l'] in
             get_prop res "$promise") s2).
  { intros s2 Hs2.
    assert (He : e < length h) by (by eapply field_allocated).
    assert (Hr : r < length h) by (by eapply field_allocated).
    assert (Hf : forall x k, x < length h -> field (st_heap s2) (VRef x) k = field h (VRef x) k).
    { intros x k Hx. unfold field, hget. by rewrite Hs2. }
    unfold call_method. unfold bind at 1.
    assert (Hg : get_prop (VRef e) "request" s2 = (inr (VFun Endpoint_request), s2)).
    { destruct s2 as [h2 t2]. cbn. unfold bind, read, ret. cbn.
      specialize (Hf e "request" He). unfold field in Hf, Hreq. cbn in Hf.
      by rewrite Hf, Hreq. }
    rewrite Hg. cbn [call_value].
    rewrite (request_run fuel s2 e r url action); [done| | |done].
    - by rewrite Hf.
    - by rewrite Hf. }
  unfold bind at 1. unfold bind at 1. rewrite Hget.
  unfold run_hook in *.
  destruct hook as [| | |z|str| |f| | |] eqn:Ehook; cbn in Hhook; try done;
    cbn [truthy]; try rewrite Hhook;
    try (unfold ret at 1; unfold ret at 1; unfold bind at 1; unfold ret at 1;
         apply Hreq2; intros x Hx; cbn; by rewrite lookup_app_l).
  destruct f; try done. cbn [truthy].
  unfold bind at 1. unfold call_method at 1. unfold bind at 1. rewrite Hget.
  cbn [call_value]. change (2 + fuel) with (S (1 + fuel)) at 1. rewrite call_fn_S.
  change (S (1 + fuel)) with (2 + fuel).
  unfold bind at 1.
  destruct (run_user n (VRef l') [] {| st_heap := h ++ new; st_trace := t |})
    as [[err|res] s2] eqn:Erun; [reflexivity|].
  unfold ret at 1. unfold ret at 1. apply Hreq2.
  intros x Hx. exact (Hframe x Hx).
Qed.

(** C6. A write-with-model call first makes a deep copy of the payload in
    new objects, then runs the copy's [beforeSave] on the copy, then hands
    the transport the copy, never the caller's object.  Whatever the hook
    does to its receiver and to what the receiver holds, every object that
    existed before the call, the payload among them, is unchanged when the
    request is made. *)
Theorem write_with_model_copies (fuel d : nat) (s : state) (e r l : loc)
    (url action : string) (params : value) :
  deep d (st_heap s) (VRef l) = true ->
  d <= 2 + fuel ->
  app_hook (field (st_heap s) (VRef l) "beforeSave") ->
  wired (st_heap s) e r url action ->
  exists l' s1,
    angular_copy (2 + fuel) (VRef l) s = (inr (VRef l'), s1)
    /\ (exists new, s1 = {| st_heap := st_heap s ++ new; st_trace := st_trace s |})
    /\ l' <> l
    /\ length (st_heap s) <= l'
    /\ deep_eq d (st_heap s) (VRef l) (st_heap s1) (VRef l')
    /\ (forall x, x < length (st_heap s) ->
          st_heap (snd (run_hook (field (st_heap s) (VRef l) "beforeSave")
                          (VRef l') s1)) !! x = st_heap s !! x)
    /\ call_fn (3 + fuel) Endpoint_saveRequestWithModel (VRef e)
         [VStr action; params; VRef l] s =
       (let* _ := run_hook (field (st_heap s) (VRef l) "beforeSave") (VRef l') in
        let* res := run_resource url action [params; VRef l'] in
        get_prop res "$promise") s1.
Proof.
  intros Hdeep Hle Hhook Hwired.
  destruct (save_run fuel d s e r l url action params Hdeep Hle Hhook Hwired)
    as (l' & s1 & Hcopy & Hnew & Hfresh & Heq & Hframe & Hrun).
  pose proof (deep_allocated d (st_heap s) l Hdeep) as Hl.
  exists l', s1. split; [exact Hcopy|]. split; [exact Hnew|].
  split; [lia|]. split; [exact Hfresh|]. split; [exact Heq|].
  split; [exact Hframe|exact Hrun].
Qed.

(** ** The hooks *)

(** [instantiateModel] on a class without [afterLoad]: the constructor runs,
    the fields are copied, and the call of the missing hook throws. *)
Lemma instantiate_hookless (fuel : nat) (h : heap) (t : list event)
    (e c : loc) (n : nat) (raw : value) (more : list value) :
  hookless_class n ->
  models h e c n ->
  raw_ok h raw ->
  exists h',
    call_fn (3 + fuel) Endpoint_instantiateModel (VRef e) (raw :: more)
      {| st_heap := h; st_trace := t |} =
    (inl (VError "TypeError" "not a function"),
     {| st_heap := h'; st_trace := t ++ [ECall n (VRef (length h)) [] []] |}).
Proof.
  intros HC (Him & Hinj & Hcfg & Hmodel) (Hraw & Hnodup & Hnohook).
  unfold field in Hinj, Hcfg, Hmodel.
  change (3 + fuel) with (S (S (S fuel))). rewrite call_fn_S.
  unfold endpoint_instantiateModel. step. rewrite Hinj. step. rewrite Hcfg. step.
  rewrite Hmodel. step. unfold construct. step. unfold run_user. step.
  set (inst := {| oproto := PCtor (User n); oprops := []; oelems := None |}).
  set (m := length h).
  assert (Hm : (h ++ [inst]) !! m = Some inst).
  { unfold m. by rewrite lookup_app_r, Nat.sub_diag by lia. }
  destruct (hc_ctor_returns _ HC (VRef m) [] (h ++ [inst])) as (r0 & Hr0 & Hobj).
  destruct (hc_ctor_instance _ HC m [] (h ++ [inst]) inst Hm eq_refl eq_refl eq_refl)
    as (o' & Ho' & Hproto & Helems & Hown).
  pose proof (hc_ctor_confined _ HC (VRef m) [] (h ++ [inst])) as [Hlen2 Hsame2].
  destruct (user_call n (VRef m) [] (h ++ [inst])) as [r h2]. cbn [fst snd] in *.
  subst r. rewrite Hobj.
  assert (Hext2 : extends h h2).
  { split; [rewrite length_app in Hlen2; lia|].
    intros l Hl. rewrite Hsame2.
    - by rewrite lookup_app_l by lia.
    - rewrite length_app. lia.
    - unfold m. intros [= Heq]. lia. }
  assert (Hraw_m : raw <> VRef m).
  { intros ->. specialize (Hraw _ eq_refl). unfold m in Hraw. lia. }
  rewrite (extend_run h2 _ m o') by done.
  rewrite (extends_own_of h h2) by done.
  set (own := extend_props (oprops o') (own_of h raw)).
  set (o2 := {| oproto := oproto o'; oprops := own; oelems := None |}).
  assert (Hm2 : m < length h2) by (by eapply lookup_lt_Some).
  assert (Hhook : obj_get o2 "afterLoad" = VUndef).
  { unfold obj_get, own_props, o2, own. cbn [oelems oprops oproto].
    rewrite extend_props_keeps, Hown, Hproto by done.
    cbn [proto_props]. by rewrite (hc_nohook _ HC). }
  unfold call_method. step. rewrite Hhook. step. by eexists.
Qed.

(** C4 (amended). [beforeSave] is presence-checked, on any endpoint: the
    write path forwards an absent payload as it is; for a payload object it
    makes the deep copy in new objects, looks the hook up on the copy, calls
    it on the copy when the copy has one and skips the call when it has
    none, and in either case the request is made with the copy.  [afterLoad]
    is not presence-checked: [instantiateModel] calls it on the instance it
    produces right after the constructor and the copy of the raw fields, and
    for a class that provides none the instantiation throws a TypeError
    after the constructor ran. *)
Theorem hooks_presence (fuel d : nat) (s : state) (e r c l : loc) (n : nat)
    (url action : string) (params raw : value) :
  wired (st_heap s) e r url action ->
  (forall data, truthy data = false ->
     call_fn (3 + fuel) Endpoint_saveRequestWithModel (VRef e)
       [VStr action; params; data] s =
     (let* res := run_resource url action [params; data] in
      get_prop res "$promise") s)
  /\ (deep d (st_heap s) (VRef l) = true ->
      d <= 2 + fuel ->
      app_hook (field (st_heap s) (VRef l) "beforeSave") ->
      exists l' new,
        angular_copy (2 + fuel) (VRef l) s =
          (inr (VRef l'), {| st_heap := st_heap s ++ new; st_trace := st_trace s |})
        /\ length (st_heap s) <= l'
        /\ deep_eq d (st_heap s) (VRef l) (st_heap s ++ new) (VRef l')
        /\ field (st_heap s ++ new) (VRef l') "beforeSave" =
             field (st_heap s) (VRef l) "beforeSave"
        /\ (truthy (field (st_heap s ++ new) (VRef l') "beforeSave") = false ->
            call_fn (3 + fuel) Endpoint_saveRequestWithModel (VRef e)
              [VStr action; params; VRef l] s =
            (let* res := run_resource url action [params; VRef l'] in
             get_prop res "$promise")
              {| st_heap := st_heap s ++ new; st_trace := st_trace s |})
        /\ (forall k,
              field (st_heap s ++ new) (VRef l') "beforeSave" = VFun (User k) ->
              call_fn (3 + fuel) Endpoint_saveRequestWithModel (VRef e)
                [VStr action; params; VRef l] s =
              (let* _ := run_user k (VRef l') [] in
               let* res := run_resource url action [params; VRef l'] in
               get_prop res "$promise")
                {| st_heap := st_heap s ++ new; st_trace := st_trace s |}))
  /\ (models (st_heap s) e c n ->
      raw_ok (st_heap s) raw ->
      (forall k, model_class n k ->
         exists own s',
           call_fn (3 + fuel) Endpoint_instantiateModel (VRef e) [raw] s =
             (inr (VRef (length (st_heap s))), s')
           /\ st_trace s' =
                st_trace s ++ [ECall n (VRef (length (st_heap s))) [] [];
                               ECall k (VRef (length (st_heap s))) [] own]
           /\ carries own (own_of (st_heap s) raw))
      /\ (hookless_class n ->
          exists s',
            call_fn (3 + fuel) Endpoint_instantiateModel (VRef e) [raw] s =
              (inl (VError "TypeError" "not a function"), s')
            /\ st_trace s' =
                 st_trace s ++ [ECall n (VRef (length (st_heap s))) [] []])).
Proof.
  intros Hwired.
  split; [|split].
  - intros data Hdata. destruct Hwired as (Hreq & Hres & Hact).
    change (3 + fuel) with (S (2 + fuel)). rewrite call_fn_S.
    unfold endpoint_saveRequestWithModel, prepare_model.
    cbn [arg lookup list_lookup default from_option id].
    assert (Hcopy : angular_copy (2 + fuel) data s = (inr data, s)).
    { destruct data; try done. }
    unfold bind at 1. unfold bind at 1. rewrite Hcopy. rewrite Hdata.
    unfold bind at 1. unfold ret at 1. unfold ret at 1.
    unfold call_method. unfold bind at 1.
    assert (Hg : get_prop (VRef e) "request" s = (inr (VFun Endpoint_request), s)).
    { destruct s as [h t]. cbn. unfold bind, read, ret. cbn.
      unfold field in Hreq. cbn in Hreq. by rewrite Hreq. }
    rewrite Hg. cbn [call_value].
    by rewrite (request_run fuel s e r url action).
  - intros Hdeep Hle Hhook.
    destruct (save_run fuel d s e r l url action params Hdeep Hle Hhook Hwired) as
      (l' & s1 & Hcopy & (new & ->) & Hfresh & Heq & _ & Hrun).
    cbn [st_heap] in *.
    assert (Hfield : field (st_heap s ++ new) (VRef l') "beforeSave" =
                     field (st_heap s) (VRef l) "beforeSave").
    { destruct d as [|d']; [done|]. eapply copy_field; [exact Heq|].
      intros x Hx. rewrite Hx in Hhook. cbn in Hhook. done. }
    exists l', new. split; [exact Hcopy|]. split; [exact Hfresh|].
    split; [exact Heq|]. split; [exact Hfield|].
    rewrite Hfield. split.
    + intros Hfalsy. rewrite Hrun.
      destruct (field (st_heap s) (VRef l) "beforeSave"); try done.
    + intros k Hk. rewrite Hrun. by rewrite Hk.
  - intros Hmodels Hraw. destruct s as [h t]. cbn [st_heap st_trace] in *. split.
    + intros k MC.
      destruct (instantiateModel_run fuel h h t e c n k raw [] MC Hmodels
                  (extends_refl h) Hraw) as (own & h' & Hrun & Hcar & _ & _).
      exists own. eexists. split; [exact Hrun|]. split; [reflexivity|exact Hcar].
    + intros HC.
      destruct (instantiate_hookless fuel h t e c n raw [] HC Hmodels Hraw) as (h' & Hrun).
      eexists. split; [exact Hrun|done].
Qed.

(** ** More symbolic execution: a heap with one old cell rewritten *)

Lemma hget_ins_lt (h l : heap) (i k : nat) (x : obj) :
  k < length h -> hget (<[i := x]> h ++ l) k = hget (<[i := x]> h) k.
Proof. intros Hk. apply hget_lt. by rewrite length_insert. Qed.

Lemma hget_ins_r (h l : heap) (i k : nat) (x : obj) :
  hget (<[i := x]> h ++ l) (length h + k) = default empty_obj (l !! k).
Proof. rewrite <- (length_insert h i x). apply hget_app_r. Qed.

Lemma hget_ins_r0 (h l : heap) (i : nat) (x : obj) :
  hget (<[i := x]> h ++ l) (length h) = default empty_obj (l !! 0).
Proof. rewrite <- (length_insert h i x). apply hget_app_r0. Qed.

Lemma insert_ins_r (h l : heap) (i k : nat) (x o : obj) :
  <[length h + k := o]> (<[i := x]> h ++ l) = <[i := x]> h ++ <[k := o]> l.
Proof. rewrite <- (length_insert h i x). apply insert_app_r. Qed.

Lemma insert_ins_r0 (h l : heap) (i : nat) (x o : obj) :
  <[length h := o]> (<[i := x]> h ++ l) = <[i := x]> h ++ <[0 := o]> l.
Proof. rewrite <- (length_insert h i x). apply insert_app_r0. Qed.

Lemma insert_ins_l (h l : heap) (i j : nat) (x o : obj) :
  j < length h -> <[j := o]> (<[i := x]> h ++ l) = <[j := o]> (<[i := x]> h) ++ l.
Proof. intros Hj. apply insert_app_l. by rewrite length_insert. Qed.

#[local] Hint Rewrite hget_ins_r hget_ins_r0 insert_ins_r insert_ins_r0 : heap.
#[local] Hint Rewrite hget_ins_lt insert_ins_l using (simpl; lia) : heap.
#[local] Hint Rewrite @list_insert_insert_eq : heap.

(** ** [enableQuery] *)

Lemma assoc_set_same (k : string) (v : value) (ps : props) :
  assoc_get k ps = Some v -> assoc_set k v ps = ps.
Proof.
  induction ps as [|[k' v'] ps IH]; cbn; [done|].
  destruct (String.eqb k k') eqn:E.
  - apply String.eqb_eq in E. by intros [= ->]; subst.
  - intros H. by rewrite IH.
Qed.

Lemma enableQuery_existing_run (fuel : nat) (h : heap) (t : list event)
    (c a x : loc) (name : value) :
  field h (VRef c) "actions" = VRef a ->
  a < length h -> a <> c -> oelems (hget h a) = None ->
  assoc_get (query_key name) (oprops (hget h a)) = Some (VRef x) ->
  x < length h -> x <> a ->
  call_fn (1 + fuel) Config_enableQuery (VRef c) [name]
    {| st_heap := h; st_trace := t |} =
  (inr (VRef c),
   {| st_heap := <[x := obj_set "isArray" (VBool true) (hget h x)]> h;
      st_trace := t |}).
Proof.
  intros Hf Ha Hac Hplain Hown Hx Hxa.
  assert (Hc : c < length h) by (by eapply field_allocated).
  assert (Hget : obj_get (hget h a) (query_key name) = VRef x).
  { unfold obj_get, own_props. by rewrite Hplain, Hown. }
  assert (Hsame : obj_set (query_key name) (VRef x) (hget h a) = hget h a).
  { rewrite obj_set_plain by done. rewrite assoc_set_same by done.
    destruct (hget h a); cbn in *; by subst. }
  unfold field in Hf. change (1 + fuel) with (S fuel). rewrite call_fn_S.
  unfold config_enableQuery. fold (query_key name).
  cbn [arg lookup list_lookup default from_option id]. fold (query_key name).
  assert (Hid : <[a := hget h a]> h = h).
  { apply list_insert_id. unfold hget. destruct (h !! a) eqn:E; [done|].
    apply lookup_ge_None in E. lia. }
  repeat (progress (step; rewrite ?Hf, ?Hget, ?Hsame, ?Hid)).
  reflexivity.
Qed.

Lemma enableQuery_absent_run (fuel : nat) (h : heap) (t : list event)
    (c a : loc) (name : value) :
  config_at h c a ->
  truthy (field h (VRef a) (query_key name)) = false ->
  call_fn (1 + fuel) Config_enableQuery (VRef c) [name]
    {| st_heap := h; st_trace := t |} =
  (inr (VRef c),
   {| st_heap := <[a := obj_set (query_key name) (VRef (length h)) (hget h a)]> h
                 ++ [plain [("isArray", VBool true)]];
      st_trace := t |}).
Proof.
  intros (Hf & Ha & Hac & Hplain) Hfalsy.
  assert (Hc : c < length h) by (by eapply field_allocated).
  unfold field in Hf, Hfalsy. change (1 + fuel) with (S fuel). rewrite call_fn_S.
  unfold config_enableQuery. fold (query_key name).
  cbn [arg lookup list_lookup default from_option id]. fold (query_key name).
  repeat (progress (step; rewrite ?Hf, ?Hfalsy; rewrite ?obj_get_set_eq by done)).
  reflexivity.
Qed.

(** X1. [enableQuery(name)] on an action that exists marks that very object
    as returning an array: nothing is allocated, the action keeps its method
    and every other field, and no other object changes. *)
Theorem enableQuery_marks_existing (fuel : nat) (s : state) (c a x : loc)
    (name : value) :
  config_at (st_heap s) c a ->
  assoc_get (query_key name) (oprops (hget (st_heap s) a)) = Some (VRef x) ->
  x < length (st_heap s) -> x <> a -> oelems (hget (st_heap s) x) = None ->
  exists s',
    call_fn (1 + fuel) Config_enableQuery (VRef c) [name] s = (inr (VRef c), s')
    /\ length (st_heap s') = length (st_heap s)
    /\ field (st_heap s') (VRef x) "isArray" = VBool true
    /\ (forall k, k <> "isArray" ->
          field (st_heap s') (VRef x) k = field (st_heap s) (VRef x) k)
    /\ (forall l, l <> x -> st_heap s' !! l = st_heap s !! l)
    /\ st_trace s' = st_trace s.
Proof.
  destruct s as [h t]. cbn [st_heap st_trace].
  intros (Hf & Ha & Hac & Hplain) Hown Hx Hxa Hxplain.
  rewrite (enableQuery_existing_run fuel h t c a x) by done.
  eexists. split; [reflexivity|]. cbn [st_heap st_trace].
  split; [apply length_insert|].
  split. { unfold field. rewrite hget_insert_eq by done. by apply obj_get_set_eq. }
  split. { intros k Hk. unfold field. rewrite hget_insert_eq by done.
           by apply obj_get_set_ne. }
  split; [|done]. intros l Hl. by apply list_lookup_insert_ne.
Qed.

(** X2. [enableQuery(name)] on a name the action map does not hold creates
    the action as a new object whose only field is [isArray: true]: it has no
    HTTP method.  The other actions are kept. *)
Theorem enableQuery_creates (fuel : nat) (s : state) (c a : loc) (name : value) :
  config_at (st_heap s) c a ->
  truthy (field (st_heap s) (VRef a) (query_key name)) = false ->
  exists s',
    call_fn (1 + fuel) Config_enableQuery (VRef c) [name] s = (inr (VRef c), s')
    /\ field (st_heap s') (VRef a) (query_key name) = VRef (length (st_heap s))
    /\ own_of (st_heap s') (VRef (length (st_heap s))) = [("isArray", VBool true)]
    /\ field (st_heap s') (VRef (length (st_heap s))) "method" = VUndef
    /\ (forall k, k <> query_key name ->
          field (st_heap s') (VRef a) k = field (st_heap s) (VRef a) k)
    /\ (forall l, l < length (st_heap s) -> l <> a ->
          st_heap s' !! l = st_heap s !! l)
    /\ st_trace s' = st_trace s.
Proof.
  destruct s as [h t]. cbn [st_heap st_trace]. intros Hcfg Hfalsy.
  rewrite (enableQuery_absent_run fuel h t c a) by done.
  destruct Hcfg as (Hf & Ha & Hac & Hplain).
  eexists. split; [reflexivity|]. cbn [st_heap st_trace].
  set (oa := obj_set (query_key name) (VRef (length h)) (hget h a)).
  assert (Hnew : hget (<[a := oa]> h ++ [plain [("isArray", VBool true)]]) (length h)
                 = plain [("isArray", VBool true)]).
  { apply hget_ins_r0. }
  split. { unfold field. rewrite hget_lt by (by rewrite length_insert).
           rewrite hget_insert_eq by done. by apply obj_get_set_eq. }
  split. { unfold own_of. by rewrite Hnew. }
  split. { unfold field. by rewrite Hnew. }
  split. { intros k Hk. unfold field. rewrite hget_lt by (by rewrite length_insert).
           rewrite hget_insert_eq by done. by apply obj_get_set_ne. }
  split; [|done]. intros l Hl Hla.
  rewrite lookup_app_l by (by rewrite length_insert). by apply list_lookup_insert_ne.
Qed.

Lemma obj_set_twice (k : string) (v : value) (o : obj) :
  oelems o = None -> obj_set k v (obj_set k v o) = obj_set k v o.
Proof.
  intros Ho. rewrite (obj_set_plain k v (obj_set k v o)) by (by rewrite obj_set_plain).
  rewrite !obj_set_plain by done. cbn [oproto oprops].
  by rewrite assoc_set_same by apply assoc_get_set_eq.
Qed.

(** X3. [enableQuery] is idempotent: whether the action existed or had to be
    created, a second call with the same name returns the config again and
    changes nothing. *)
Theorem enableQuery_idempotent (fuel : nat) (s : state) (c a : loc) (name : value) :
  config_at (st_heap s) c a ->
  entry_at (st_heap s) a (query_key name) ->
  exists s',
    call_fn (1 + fuel) Config_enableQuery (VRef c) [name] s = (inr (VRef c), s')
    /\ call_fn (1 + fuel) Config_enableQuery (VRef c) [name] s' = (inr (VRef c), s').
Proof.
  destruct s as [h t]. cbn [st_heap st_trace]. intros Hcfg Hentry.
  pose proof Hcfg as (Hf & Ha & Hac & Hplain).
  assert (Hc : c < length h) by (by eapply field_allocated).
  destruct Hentry as [Hfalsy|(x & Hown & Hx & Hxa & Hxplain)].
  - rewrite (enableQuery_absent_run fuel h t c a) by done.
    eexists. split; [reflexivity|].
    set (oa := obj_set (query_key name) (VRef (length h)) (hget h a)).
    set (h1 := <[a := oa]> h ++ [plain [("isArray", VBool true)]]).
    assert (Hlen : length h1 = length h + 1).
    { unfold h1. by rewrite length_app, length_insert. }
    assert (Hnew : hget h1 (length h) = plain [("isArray", VBool true)]).
    { unfold h1. apply hget_ins_r0. }
    assert (Hoa : hget h1 a = oa).
    { unfold h1. rewrite hget_lt by (by rewrite length_insert).
      by rewrite hget_insert_eq. }
    rewrite (enableQuery_existing_run fuel h1 t c a (length h)).
    + rewrite Hnew. do 2 f_equal. apply list_insert_id.
      unfold h1. rewrite lookup_app_r by (by rewrite length_insert).
      by rewrite length_insert, Nat.sub_diag.
    + unfold field, h1. rewrite hget_lt by (by rewrite length_insert).
      by rewrite hget_insert_ne.
    + lia.
    + done.
    + rewrite Hoa. unfold oa. by rewrite obj_set_plain.
    + rewrite Hoa. unfold oa. rewrite obj_set_plain by done. cbn [oprops].
      apply assoc_get_set_eq.
    + lia.
    + lia.
  - rewrite (enableQuery_existing_run fuel h t c a x) by done.
    eexists. split; [reflexivity|].
    set (ox := obj_set "isArray" (VBool true) (hget h x)).
    rewrite (enableQuery_existing_run fuel (<[x := ox]> h) t c a x).
    + rewrite hget_insert_eq by done. unfold ox. rewrite obj_set_twice by done.
      by rewrite list_insert_insert_eq.
    + unfold field. destruct (decide (x = c)) as [->|Hxc].
      * rewrite hget_insert_eq by done. unfold ox.
        rewrite obj_get_set_ne by done. exact Hf.
      * by rewrite hget_insert_ne.
    + by rewrite length_insert.
    + done.
    + by rewrite hget_insert_ne.
    + by rewrite hget_insert_ne.
    + by rewrite length_insert.
    + done.
Qed.

(** ** [addHttpAction]: edge and order *)

(** X4. [addHttpAction] calls [method.toUpperCase()] before it stores
    anything: with a method that is neither a string nor an object (missing,
    null, a number, ...) it throws a TypeError and the state is unchanged. *)
Theorem addHttpAction_needs_method (fuel : nat) (s : state) (c : loc)
    (method : value) (rest : list value) :
  (forall text, method <> VStr text) ->
  (forall l, method <> VRef l) ->
  exists msg,
    call_fn (1 + fuel) Config_addHttpAction (VRef c) (method :: rest) s =
    (inl (VError "TypeError" msg), s).
Proof.
  intros Hstr Href. destruct s as [h t].
  change (1 + fuel) with (S fuel). rewrite call_fn_S.
  unfold config_addHttpAction. cbn [arg lookup list_lookup default from_option id].
  unfold bind at 1. unfold get_prop at 1. unfold bind at 1, read, ret.
  cbn [st_heap st_trace].
  destruct (obj_get (hget h c) "actions") as [| | | | |a| | | |] eqn:Ha;
    try (eexists; reflexivity);
    (destruct method; try (eexists; reflexivity);
     try (exfalso; by eapply Hstr); exfalso; by eapply Href).
Qed.

Lemma query_key_text (name : string) : name <> "" -> query_key (VStr name) = name.
Proof.
  intros Hn. unfold query_key. cbn. apply String.eqb_neq in Hn. by rewrite Hn.
Qed.

(** X5. The order of [addHttpAction] and [enableQuery] on one name matters.
    Adding the action first and enabling the query after gives an action with
    the method and [isArray: true]; enabling first and adding after gives an
    action with the method only, the array mark is lost with the object that
    [addHttpAction] replaces. *)
Theorem query_before_or_after_action (fuel : nat) (s : state) (c a : loc)
    (method name : string) (params : value) :
  config_at (st_heap s) c a ->
  entry_at (st_heap s) a name ->
  name <> "" ->
  (exists s1 s2 x,
     call_fn (1 + fuel) Config_addHttpAction (VRef c)
       [VStr method; VStr name; params] s = (inr (VRef c), s1)
     /\ call_fn (1 + fuel) Config_enableQuery (VRef c) [VStr name] s1 = (inr (VRef c), s2)
     /\ field (st_heap s2) (VRef a) name = VRef x
     /\ field (st_heap s2) (VRef x) "method" = VStr (to_upper method)
     /\ field (st_heap s2) (VRef x) "isArray" = VBool true)
  /\ (exists s1 s2 x,
        call_fn (1 + fuel) Config_enableQuery (VRef c) [VStr name] s = (inr (VRef c), s1)
        /\ call_fn (1 + fuel) Config_addHttpAction (VRef c)
             [VStr method; VStr name; params] s1 = (inr (VRef c), s2)
        /\ field (st_heap s2) (VRef a) name = VRef x
        /\ field (st_heap s2) (VRef x) "method" = VStr (to_upper method)
        /\ field (st_heap s2) (VRef x) "isArray" = VUndef).
Proof.
  destruct s as [h t]. cbn [st_heap st_trace]. intros Hcfg Hentry Hname.
  pose proof Hcfg as (Hf & Ha & Hac & Hplain).
  assert (Hc : c < length h) by (by eapply field_allocated).
  pose proof (query_key_text name Hname) as Hkey.
  set (lit := plain [("method", VStr (to_upper method)); ("params", params)]).
  split.
  - pose proof (addHttpAction_run fuel h t c a method name params VUndef Hf Ha) as Hadd.
    cbn [own_of extend_props fold_left] in Hadd. fold lit in Hadd.
    set (oa := obj_set name (VRef (length h)) (hget h a)) in *.
    set (h1 := <[a := oa]> h ++ [lit]) in *.
    assert (Hoa : hget h1 a = oa).
    { unfold h1. rewrite hget_ins_lt by done. by rewrite hget_insert_eq. }
    assert (Hlit : hget h1 (length h) = lit) by apply hget_ins_r0.
    assert (Hlen : length h1 = length h + 1).
    { unfold h1. by rewrite length_app, length_insert. }
    exists {| st_heap := h1; st_trace := t |}.
    eexists. exists (length h).
    split. { apply Hadd. intros o [=]. }
    split.
    { apply (enableQuery_existing_run fuel h1 t c a (length h)).
      - unfold field, h1. rewrite hget_ins_lt by done. by rewrite hget_insert_ne.
      - lia.
      - done.
      - rewrite Hoa. unfold oa. by rewrite obj_set_plain.
      - rewrite Hkey, Hoa. unfold oa. rewrite obj_set_plain by done.
        apply assoc_get_set_eq.
      - lia.
      - lia. }
    cbn [st_heap]. rewrite Hlit. unfold field.
    split.
    { rewrite hget_insert_ne by lia. rewrite Hoa. unfold oa. by apply obj_get_set_eq. }
    rewrite hget_insert_eq by lia. split; [|by apply obj_get_set_eq].
    by rewrite obj_get_set_ne.
  - assert (Hq : exists h1,
              call_fn (1 + fuel) Config_enableQuery (VRef c) [VStr name]
                {| st_heap := h; st_trace := t |} =
              (inr (VRef c), {| st_heap := h1; st_trace := t |})
              /\ field h1 (VRef c) "actions" = VRef a
              /\ a < length h1 /\ oelems (hget h1 a) = None).
    { rewrite <- Hkey in Hentry. destruct Hentry as [Hfalsy|(x & Hown & Hx & Hxa & Hxplain)].
      - rewrite (enableQuery_absent_run fuel h t c a) by done.
        eexists. split; [reflexivity|]. unfold field.
        rewrite !hget_ins_lt by done. rewrite hget_insert_ne, hget_insert_eq by done.
        split; [done|]. split; [rewrite length_app, length_insert; lia|].
        by rewrite obj_set_plain.
      - rewrite (enableQuery_existing_run fuel h t c a x) by done.
        eexists. split; [reflexivity|]. unfold field.
        rewrite (hget_insert_ne h x a) by done. rewrite length_insert.
        split; [|done]. destruct (decide (x = c)) as [->|Hxc].
        + rewrite hget_insert_eq by done. by rewrite obj_get_set_ne.
        + by rewrite hget_insert_ne. }
    destruct Hq as (h1 & Hrun & Hf1 & Ha1 & Hplain1).
    pose proof (addHttpAction_run fuel h1 t c a method name params VUndef Hf1 Ha1) as Hadd.
    cbn [own_of extend_props fold_left] in Hadd. fold lit in Hadd.
    exists {| st_heap := h1; st_trace := t |}. eexists. exists (length h1).
    split; [exact Hrun|]. split. { apply Hadd. intros o [=]. }
    cbn [st_heap]. unfold field. rewrite hget_ins_r0. cbn [default from_option id lookup list_lookup].
    split; [|by split].
    rewrite hget_ins_lt by done. rewrite hget_insert_eq by done.
    by apply obj_get_set_eq.
Qed.

(** ** The constructor of [ApiEndpoint] *)

Lemma endpoint_bind_loop (h : heap) (t : list event) (rcell : obj) :
  forall (acts ps : props),
    Forall (fun kv => exists x, snd kv = VRef x /\ x < length h) acts ->
    Forall (fun k => ~ In k reserved) (map fst acts) ->
    Forall (fun k => assoc_get k ps = None)
      ["request"; "getRequestWithModel"; "saveRequestWithModel"] ->
    iterM (fun kv =>
             let* actionMethod := select_actionMethod (VRef (length h)) (snd kv) in
             set_prop (VRef (length h)) (fst kv)
               (angular_bind (VRef (length h)) actionMethod [VStr (fst kv)])) acts
      {| st_heap := h ++ [ {| oproto := PCtor ApiEndpoint; oprops := ps; oelems := None |};
                           rcell ];
         st_trace := t |} =
    (inr tt,
     {| st_heap := h ++ [ {| oproto := PCtor ApiEndpoint;
                             oprops := extend_props ps (callables h (length h) acts);
                             oelems := None |};
                          rcell ];
        st_trace := t |}).
Proof.
  induction acts as [|[k v] acts IH]; intros ps Hobj Hres Hps; [reflexivity|].
  apply Forall_cons in Hobj as [(x & Hv & Hx) Hobj]. cbn [snd fst] in Hv. subst v.
  cbn [map fst] in Hres. apply Forall_cons in Hres as [Hk Hres].
  pose proof Hps as Hps'.
  apply Forall_cons in Hps' as [Hp1 Hps']. apply Forall_cons in Hps' as [Hp2 Hps'].
  apply Forall_cons in Hps' as [Hp3 _].
  assert (Hnext : forall w, Forall (fun k' => assoc_get k' (assoc_set k w ps) = None)
                    ["request"; "getRequestWithModel"; "saveRequestWithModel"]).
  { intros w. repeat apply Forall_cons_2; try apply Forall_nil_2;
      (rewrite assoc_get_set_ne; [done|]; intros <-; apply Hk; cbn; tauto). }
  cbn [iterM fst snd callables map extend_props fold_left].
  fold (callables h (length h) acts).
  fold (extend_props
          (assoc_set k (VFun (Bound (strategy h (VRef x)) (VRef (length h)) [VStr k])) ps)
          (callables h (length h) acts)).
  rewrite <- (IH _ Hobj Hres (Hnext _)).
  assert (Hr1 : obj_get {| oproto := PCtor ApiEndpoint; oprops := ps; oelems := None |}
                  "request" = VFun Endpoint_request).
  { unfold obj_get. cbn [own_props oelems oprops oproto]. by rewrite Hp1. }
  assert (Hr2 : obj_get {| oproto := PCtor ApiEndpoint; oprops := ps; oelems := None |}
                  "getRequestWithModel" = VFun Endpoint_getRequestWithModel).
  { unfold obj_get. cbn [own_props oelems oprops oproto]. by rewrite Hp2. }
  assert (Hr3 : obj_get {| oproto := PCtor ApiEndpoint; oprops := ps; oelems := None |}
                  "saveRequestWithModel" = VFun Endpoint_saveRequestWithModel).
  { unfold obj_get. cbn [own_props oelems oprops oproto]. by rewrite Hp3. }
  unfold bind at 1. unfold select_actionMethod, strategy, field.
  step. rewrite ?Hr1.
  destruct (truthy (obj_get (hget h x) "model")); step.
  - destruct (is_str (obj_get (hget h x) "method") "GET"); step.
    + rewrite Hr2. step. reflexivity.
    + destruct (is_str (obj_get (hget h x) "method") "PUT"
                || is_str (obj_get (hget h x) "method") "POST"); step.
      * rewrite Hr3. step. reflexivity.
      * reflexivity.
  - reflexivity.
Qed.

Lemma iterM_ext {A} (f g : A -> M unit) (xs : list A) :
  (forall x s, f x s = g x s) -> forall s, iterM f xs s = iterM g xs s.
Proof.
  intros Hfg. induction xs as [|x xs IH]; intros s; [done|].
  cbn. unfold bind. rewrite Hfg. destruct (g x s) as [[e|[]] s']; [done|apply IH].
Qed.

(** [new ApiEndpoint(baseRoute, config)], also as the injector runs it. *)
Lemma apiEndpoint_run (fuel : nat) (h : heap) (t : list event) (c a : loc)
    (base : value) :
  field h (VRef c) "actions" = VRef a ->
  a < length h ->
  Forall (fun kv => exists x, snd kv = VRef x /\ x < length h) (own_of h (VRef a)) ->
  Forall (fun k => ~ In k reserved) (map fst (own_of h (VRef a))) ->
  construct (call_fn (1 + fuel)) (VFun ApiEndpoint) [base; VRef c]
    {| st_heap := h; st_trace := t |} =
  (inr (VRef (length h)),
   {| st_heap :=
        h ++ [ endpoint_cell h (length h) (VRef c) (length h + 1) (own_of h (VRef a));
               resource_cell (to_js_string (js_add base (field h (VRef c) "route")))
                 (own_of h (VRef a)) ];
      st_trace := t |}).
Proof.
  intros Hf Ha Hobj Hres.
  assert (Hc : c < length h) by (by eapply field_allocated).
  unfold field in Hf. unfold construct. change (1 + fuel) with (S fuel).
  unfold bind at 1. unfold alloc at 1. cbn [st_heap st_trace].
  unfold bind at 1. rewrite call_fn_S. unfold apiEndpoint, resource_factory, angular_forEach.
  cbn [arg lookup list_lookup default from_option id].
  step. rewrite Hf. step. rewrite Hf. step.
  match goal with
  | |- context [iterM ?f ?l ?s0] =>
      rewrite (iterM_ext f
                 (fun kv =>
                    let* actionMethod := select_actionMethod (VRef (length h)) (snd kv) in
                    set_prop (VRef (length h)) (fst kv)
                      (angular_bind (VRef (length h)) actionMethod [VStr (fst kv)]))
                 l (fun x s => eq_refl) s0)
  end.
  rewrite endpoint_bind_loop; [reflexivity|done|done|].
  repeat apply Forall_cons_2; try apply Forall_nil_2; reflexivity.
Qed.

Lemma assoc_get_notin (k : string) (ps : props) :
  ~ In k (map fst ps) -> assoc_get k ps = None.
Proof.
  induction ps as [|[k' v] ps IH]; intros Hk; [done|]. cbn in *.
  destruct (String.eqb k k') eqn:E.
  - apply String.eqb_eq in E. subst. exfalso. apply Hk. by left.
  - apply IH. intros Hin. apply Hk. by right.
Qed.

Lemma assoc_get_map (F : string -> value -> value) (k : string) (ps : props) :
  assoc_get k (map (fun kv => (fst kv, F (fst kv) (snd kv))) ps) =
  option_map (F k) (assoc_get k ps).
Proof.
  induction ps as [|[k' v] ps IH]; [done|]. cbn.
  destruct (String.eqb k k') eqn:E; [|done].
  apply String.eqb_eq in E. by subst.
Qed.

Lemma fst_map_keys (F : string -> value -> value) (ps : props) :
  map fst (map (fun kv => (fst kv, F (fst kv) (snd kv))) ps) = map fst ps.
Proof. induction ps as [|[k v] ps IH]; [done|]. cbn. by rewrite IH. Qed.

Lemma assoc_get_names (G : string -> value) (k : string) (v : value) (ps : props) :
  assoc_get k ps = Some v ->
  assoc_get k (map (fun n => (n, G n)) (map fst ps)) = Some (G k).
Proof.
  induction ps as [|[k' v'] ps IH]; [done|]. cbn.
  destruct (String.eqb k k') eqn:E; [|done].
  apply String.eqb_eq in E. by subst.
Qed.

Lemma assoc_get_in (k : string) (v : value) (ps : props) :
  assoc_get k ps = Some v -> In k (map fst ps).
Proof.
  induction ps as [|[k' v'] ps IH]; [done|]. cbn.
  destruct (String.eqb k k') eqn:E.
  - apply String.eqb_eq in E. subst. by left.
  - intros H. right. by apply IH.
Qed.

(** ** What the constructor leaves in the endpoint and its resource *)

Lemma callables_keys (h : heap) (e : loc) (acts : props) :
  map fst (callables h e acts) = map fst acts.
Proof.
  unfold callables.
  exact (fst_map_keys (fun k v => VFun (Bound (strategy h v) (VRef e) [VStr k])) acts).
Qed.

Lemma endpoint_cell_keeps (h : heap) (e : loc) (config : value) (res : loc)
    (acts : props) (k : string) :
  ~ In k (map fst acts) ->
  obj_get (endpoint_cell h e config res acts) k =
  obj_get {| oproto := PCtor ApiEndpoint;
             oprops := [("config", config); ("$injector", VInjector); ("resource", VRef res)];
             oelems := None |} k.
Proof.
  intros Hk. unfold endpoint_cell, obj_get, own_props. cbn [oelems oprops oproto].
  rewrite extend_props_keeps; [done|].
  apply assoc_get_notin. by rewrite callables_keys.
Qed.

Lemma endpoint_cell_action (h : heap) (e : loc) (config : value) (res : loc)
    (acts : props) (k : string) (v : value) :
  NoDup (map fst acts) -> assoc_get k acts = Some v ->
  obj_get (endpoint_cell h e config res acts) k =
  VFun (Bound (strategy h v) (VRef e) [VStr k]).
Proof.
  intros Hnd Hkv. unfold endpoint_cell, obj_get, own_props. cbn [oelems oprops oproto].
  rewrite (extend_props_gets k (VFun (Bound (strategy h v) (VRef e) [VStr k]))); [done| |].
  - by rewrite callables_keys.
  - unfold callables.
    rewrite (assoc_get_map (fun k v => VFun (Bound (strategy h v) (VRef e) [VStr k]))).
    by rewrite Hkv.
Qed.

Lemma resource_cell_action (url : string) (acts : props) (k : string) (v : value) :
  assoc_get k acts = Some v ->
  obj_get (resource_cell url acts) k = VFun (Resource_action url k).
Proof.
  intros Hkv. unfold resource_cell, obj_get, own_props, plain. cbn [oelems oprops oproto].
  by rewrite (assoc_get_names (fun n => VFun (Resource_action url n)) k v).
Qed.

Lemma reserved_fresh (acts : props) (k : string) :
  Forall (fun k => ~ In k reserved) (map fst acts) -> In k reserved ->
  ~ In k (map fst acts).
Proof.
  intros Hres Hk Hin. rewrite Forall_forall in Hres.
  apply (Hres k); [by apply list_elem_of_In|done].
Qed.

(** X6. [new ApiEndpoint(baseRoute, config)] builds two objects and touches
    nothing else: the endpoint, which refers to the config itself, and its
    resource for the URL [baseRoute + route].  For every action of the config
    the endpoint gets one callable bound to itself and to the action's name,
    wrapping the request only when the action object has a truthy [model]
    and its method is GET, PUT or POST, and the resource gets one transport
    callable of that name.  No request is made and no application code runs. *)
Theorem endpoint_construction (fuel : nat) (s : state) (c a : loc)
    (base route : string) :
  field (st_heap s) (VRef c) "actions" = VRef a ->
  a < length (st_heap s) ->
  field (st_heap s) (VRef c) "route" = VStr route ->
  actions_ok (st_heap s) (own_of (st_heap s) (VRef a)) ->
  exists s',
    new (1 + fuel) ApiEndpoint [VStr base; VRef c] s =
      (inr (VRef (length (st_heap s))), s')
    /\ length (st_heap s') = length (st_heap s) + 2
    /\ field (st_heap s') (VRef (length (st_heap s))) "config" = VRef c
    /\ field (st_heap s') (VRef (length (st_heap s))) "resource" =
         VRef (length (st_heap s) + 1)
    /\ (forall k v, assoc_get k (own_of (st_heap s) (VRef a)) = Some v ->
          field (st_heap s') (VRef (length (st_heap s))) k =
            VFun (Bound (strategy (st_heap s) v) (VRef (length (st_heap s))) [VStr k])
          /\ field (st_heap s') (VRef (length (st_heap s) + 1)) k =
               VFun (Resource_action (base ++ route) k))
    /\ (forall l, l < length (st_heap s) -> st_heap s' !! l = st_heap s !! l)
    /\ st_trace s' = st_trace s.
Proof.
  destruct s as [h t]. cbn [st_heap st_trace]. intros Hf Ha Hroute (Hobj & Hres & Hnd).
  unfold new. rewrite (apiEndpoint_run fuel h t c a) by done.
  rewrite Hroute. cbn [js_add to_js_string].
  eexists. split; [reflexivity|]. cbn [st_heap st_trace].
  split. { rewrite length_app. reflexivity. }
  unfold field. rewrite hget_app_r0, hget_app_r.
  cbn [lookup list_lookup default from_option id].
  split. { rewrite endpoint_cell_keeps; [done|]. apply reserved_fresh; cbn; tauto. }
  split. { rewrite endpoint_cell_keeps; [done|]. apply reserved_fresh; cbn; tauto. }
  split; [|split; [|done]].
  - intros k v Hkv. split.
    + by apply endpoint_cell_action.
    + by apply (resource_cell_action _ _ _ v).
  - intros l Hl. by rewrite lookup_app_l.
Qed.

(** ** [$get] *)

Lemma strategy_ext (h l : heap) (x : loc) :
  x < length h -> strategy (h ++ l) (VRef x) = strategy h (VRef x).
Proof. intros Hx. unfold strategy, field. by rewrite hget_lt. Qed.

Lemma callables_ext (h l : heap) (e : loc) (acts : props) :
  Forall (fun kv => exists x, snd kv = VRef x /\ x < length h) acts ->
  callables (h ++ l) e acts = callables h e acts.
Proof.
  induction acts as [|[k v] acts IH]; intros Hobj; [done|].
  apply Forall_cons in Hobj as [(x & Hv & Hx) Hobj]. cbn [snd] in Hv. subst v.
  cbn [callables map fst snd]. fold (callables (h ++ l) e acts). fold (callables h e acts).
  rewrite IH by done. by rewrite strategy_ext.
Qed.

Lemma config_ok_ext (h l : heap) (config : value) :
  config_ok h config -> config_ok (h ++ l) config.
Proof.
  intros (c & a & route & -> & Hf & Ha & Hroute & Hobj & Hres & Hnd).
  assert (Hc : c < length h) by (by eapply field_allocated).
  exists c, a, route. unfold field, own_of in *. rewrite !hget_lt by done.
  repeat (split; [done | ]). split; [rewrite length_app; lia | ].
  split; [done | ]. split; [ | done].
  eapply Forall_impl; [exact Hobj | ].
  intros kv (x & Hx & Hlt). exists x. split; [done | rewrite length_app; lia].
Qed.

Lemma get_iteration (fuel : nat) (h0 : heap) (t : list event) (p : loc)
    (k : string) (config : value) (done : list obj) (acc : props) :
  p < length h0 -> config_ok h0 config ->
  (let* baseRoute := get_prop (VRef p) "baseRoute" in
   let* endpoint := call_method (call_fn (S (S fuel))) VInjector "instantiate"
                      [VFun ApiEndpoint; baseRoute; config] in
   set_prop (VRef (length h0)) k endpoint)
    {| st_heap := h0 ++ plain acc :: done; st_trace := t |} =
  (inr tt,
   {| st_heap :=
        h0 ++ plain (assoc_set k (VRef (length h0 + 1 + length done)) acc)
           :: done ++ api_cells h0 (field h0 (VRef p) "baseRoute")
                        (length h0 + 1 + length done) [(k, config)];
      st_trace := t |}).
Proof.
  intros Hp (c & a & route & -> & Hf & Ha & Hroute & Hobj & Hres & Hnd).
  assert (Hc : c < length h0) by (by eapply field_allocated).
  assert (HfH : field (h0 ++ plain acc :: done) (VRef c) "actions" = VRef a).
  { unfold field. by rewrite hget_lt. }
  assert (Hown : own_of (h0 ++ plain acc :: done) (VRef a) = own_of h0 (VRef a)).
  { unfold own_of. by rewrite hget_lt. }
  assert (HrH : field (h0 ++ plain acc :: done) (VRef c) "route" =
                field h0 (VRef c) "route").
  { unfold field. by rewrite hget_lt. }
  unfold bind at 1. unfold get_prop at 1. unfold bind at 1, read at 1, ret at 1.
  cbn [st_heap]. rewrite hget_lt by done. fold (field h0 (VRef p) "baseRoute").
  unfold bind at 1. unfold call_method at 1. unfold bind at 1.
  cbn [get_prop String.eqb Ascii.eqb Bool.eqb ret call_value].
  rewrite call_fn_S. cbn [arg lookup list_lookup default from_option id tail].
  rewrite (apiEndpoint_run fuel (h0 ++ plain acc :: done) t c a).
  2: done.
  2: { rewrite length_app. lia. }
  2: { rewrite Hown. eapply Forall_impl; [exact Hobj | ].
       intros kv (x & Hx & Hlt). exists x. split; [done | rewrite length_app; lia]. }
  2: { by rewrite Hown. }
  rewrite Hown, HrH.
  unfold set_prop, bind, read, write. cbn [st_heap st_trace].
  f_equal. f_equal.
  rewrite <- app_assoc. cbn [app].
  rewrite hget_app_r0. cbn [lookup list_lookup default from_option id].
  rewrite insert_app_r0. cbn [insert list_insert].
  rewrite obj_set_plain by reflexivity.
  rewrite length_app. cbn [length].
  replace (length h0 + S (length done)) with (length h0 + 1 + length done) by lia.
  cbn [api_cells fst snd]. rewrite Hf.
  unfold endpoint_cell. rewrite callables_ext by done.
  reflexivity.
Qed.

Lemma get_loop (fuel : nat) (h0 : heap) (t : list event) (p : loc) :
  p < length h0 ->
  forall (reg : props) (done : list obj) (acc : props),
    Forall (config_ok h0) (map snd reg) ->
    iterM (fun kv =>
             let* baseRoute := get_prop (VRef p) "baseRoute" in
             let* endpoint := call_method (call_fn (S (S fuel))) VInjector "instantiate"
                                [VFun ApiEndpoint; baseRoute; snd kv] in
             set_prop (VRef (length h0)) (fst kv) endpoint) reg
      {| st_heap := h0 ++ plain acc :: done; st_trace := t |} =
    (inr tt,
     {| st_heap :=
          h0 ++ plain (extend_props acc (api_entries (length h0 + 1 + length done) reg))
             :: done ++ api_cells h0 (field h0 (VRef p) "baseRoute")
                          (length h0 + 1 + length done) reg;
        st_trace := t |}).
Proof.
  intros Hp. induction reg as [|[k config] reg IH]; intros done acc Hok.
  - cbn. by rewrite app_nil_r.
  - cbn [map snd] in Hok. apply Forall_cons in Hok as [Hc Hok].
    cbn [iterM fst snd]. unfold bind at 1.
    rewrite (get_iteration fuel h0 t p k config done acc Hp Hc).
    rewrite (IH _ _ Hok).
    cbn [api_cells api_entries extend_props fold_left fst snd].
    rewrite length_app. cbn [length].
    replace (length h0 + 1 + (length done + 2)) with (length h0 + 1 + length done + 2) by lia.
    rewrite <- app_assoc. reflexivity.
Qed.

(** [provider.$get()] on a registry of well-formed configs. *)
Lemma provider_get_run (fuel : nat) (h : heap) (t : list event) (p r : loc) :
  field h (VRef p) "endpoints" = VRef r -> r < length h ->
  Forall (config_ok h) (map snd (own_of h (VRef r))) ->
  call_fn (S (S (S fuel))) Provider_get (VRef p) [] {| st_heap := h; st_trace := t |} =
  (inr (VRef (length h)),
   {| st_heap :=
        h ++ plain (extend_props [] (api_entries (length h + 1) (own_of h (VRef r))))
          :: api_cells h (field h (VRef p) "baseRoute") (length h + 1)
               (own_of h (VRef r));
      st_trace := t |}).
Proof.
  intros Hf Hr Hok.
  assert (Hp : p < length h) by (by eapply field_allocated).
  rewrite call_fn_S. unfold provider_get.
  unfold bind at 1. unfold alloc at 1. cbn [st_heap st_trace].
  unfold bind at 1. unfold get_prop at 1. unfold bind at 1, read at 1, ret at 1.
  cbn [st_heap]. rewrite hget_lt by done. fold (field h (VRef p) "endpoints").
  rewrite Hf. unfold bind at 1. unfold angular_forEach.
  unfold bind at 1, read at 1. cbn [st_heap].
  pose proof (get_loop fuel h t p Hp (own_of h (VRef r)) [] [] Hok) as Hloop.
  cbn [length] in Hloop. rewrite Nat.add_0_r in Hloop. cbn [app] in Hloop.
  rewrite hget_lt by done. fold (own_of h (VRef r)).
  rewrite Hloop. reflexivity.
Qed.

Lemma assoc_set_fresh (k : string) (v : value) (ps : props) :
  ~ In k (map fst ps) -> assoc_set k v ps = ps ++ [(k, v)].
Proof.
  induction ps as [|[k' v'] ps IH]; intros Hk; [done|]. cbn in *.
  destruct (String.eqb k k') eqn:E.
  - apply String.eqb_eq in E. subst. exfalso. apply Hk. by left.
  - rewrite IH; [done|]. intros Hin. apply Hk. by right.
Qed.

Lemma extend_props_fresh (src : props) :
  forall acc, NoDup (map fst (acc ++ src)) -> extend_props acc src = acc ++ src.
Proof.
  induction src as [|[k v] src IH]; intros acc Hnd.
  - cbn. by rewrite app_nil_r.
  - cbn [extend_props fold_left fst snd]. fold (extend_props (assoc_set k v acc) src).
    assert (Hk : ~ In k (map fst acc)).
    { rewrite map_app in Hnd. cbn [map fst] in Hnd.
      apply NoDup_app in Hnd as (_ & Hdisj & _). intros Hin.
      apply (Hdisj k); [by apply list_elem_of_In | left]. }
    rewrite assoc_set_fresh by done.
    rewrite IH; rewrite <- app_assoc; [done|exact Hnd].
Qed.

Lemma hget_app_cons (h l : heap) (x : obj) (k : nat) :
  hget (h ++ x :: l) (length h + S k) = default empty_obj (l !! k).
Proof. by rewrite hget_app_r. Qed.

Lemma api_entries_keys (reg : props) : forall n, map fst (api_entries n reg) = map fst reg.
Proof. induction reg as [|kv reg IH]; intros n; [done|]. cbn. by rewrite IH. Qed.

(** Where [$get] puts the endpoint of a registered name and its resource. *)
Lemma api_lookup (h : heap) (base : value) (name : string) (config : value) :
  forall (reg : props) (n : nat),
    assoc_get name reg = Some config ->
    exists i,
      assoc_get name (api_entries n reg) = Some (VRef (n + 2 * i))
      /\ api_cells h base n reg !! (2 * i) =
           Some (endpoint_cell h (n + 2 * i) config (n + 2 * i + 1)
                   (own_of h (field h config "actions")))
      /\ api_cells h base n reg !! (2 * i + 1) =
           Some (resource_cell (to_js_string (js_add base (field h config "route")))
                   (own_of h (field h config "actions"))).
Proof.
  induction reg as [|[k v] reg IH]; intros n Hget; [done|].
  cbn [assoc_get] in Hget. cbn [api_entries api_cells assoc_get fst snd].
  destruct (String.eqb name k) eqn:E.
  - injection Hget as ->. exists 0.
    rewrite Nat.mul_0_r, Nat.add_0_r. by repeat split.
  - destruct (IH (n + 2) Hget) as (i & H1 & H2 & H3). exists (S i).
    replace (n + 2 * S i) with (n + 2 + 2 * i) by lia.
    replace (2 * S i) with (S (S (2 * i))) by lia.
    by repeat split.
Qed.

(** X7. [$get] materializes the registry: it returns a new api object with
    one entry per registered name, in registration order, and none else.
    The entry of a name is a new endpoint that refers to the registered
    config itself, with a resource for the URL made of the provider's base
    route at that moment and the config's route, and with one callable per
    action of the config.  Nothing that existed before changes and no request
    is made. *)
Theorem get_materializes (fuel : nat) (s : state) (p r : loc) (base : string) :
  field (st_heap s) (VRef p) "$get" = VFun Provider_get ->
  field (st_heap s) (VRef p) "endpoints" = VRef r ->
  r < length (st_heap s) ->
  field (st_heap s) (VRef p) "baseRoute" = VStr base ->
  NoDup (map fst (own_of (st_heap s) (VRef r))) ->
  Forall (config_ok (st_heap s)) (map snd (own_of (st_heap s) (VRef r))) ->
  exists s',
    invoke (4 + fuel) (VRef p) "$get" [] s = (inr (VRef (length (st_heap s))), s')
    /\ map fst (own_of (st_heap s') (VRef (length (st_heap s)))) =
         map fst (own_of (st_heap s) (VRef r))
    /\ (forall name c a route,
          assoc_get name (own_of (st_heap s) (VRef r)) = Some (VRef c) ->
          field (st_heap s) (VRef c) "actions" = VRef a ->
          field (st_heap s) (VRef c) "route" = VStr route ->
          exists e res,
            field (st_heap s') (VRef (length (st_heap s))) name = VRef e
            /\ length (st_heap s) < e
            /\ field (st_heap s') (VRef e) "config" = VRef c
            /\ field (st_heap s') (VRef e) "resource" = VRef res
            /\ forall k v, assoc_get k (own_of (st_heap s) (VRef a)) = Some v ->
                 field (st_heap s') (VRef e) k =
                   VFun (Bound (strategy (st_heap s) v) (VRef e) [VStr k])
                 /\ field (st_heap s') (VRef res) k =
                      VFun (Resource_action (base ++ route) k))
    /\ (forall l, l < length (st_heap s) -> st_heap s' !! l = st_heap s !! l)
    /\ st_trace s' = st_trace s.
Proof.
  destruct s as [h t]. cbn [st_heap st_trace].
  intros Hget Hf Hr Hbase Hnd Hok.
  assert (Hp : p < length h) by (by eapply field_allocated).
  unfold invoke, call_method. unfold bind at 1. unfold get_prop at 1.
  unfold bind at 1, read at 1, ret at 1. cbn [st_heap].
  unfold field in Hget. rewrite Hget. cbn [call_value].
  change (4 + fuel) with (S (S (S (S fuel)))).
  rewrite (provider_get_run (S fuel) h t p r Hf Hr Hok).
  eexists. split; [reflexivity|]. cbn [st_heap st_trace].
  set (reg := own_of h (VRef r)) in *.
  assert (Hnd' : NoDup (map fst ([] ++ api_entries (length h + 1) reg))).
  { cbn [app]. by rewrite api_entries_keys. }
  split; [|split; [|split; [|done]]].
  - unfold own_of. rewrite hget_app_r0.
    cbn [lookup list_lookup default from_option id own_props plain oelems oprops].
    rewrite extend_props_fresh by done. cbn [app]. apply api_entries_keys.
  - intros name c a route Hname Ha Hroute.
    destruct (api_lookup h (field h (VRef p) "baseRoute") name (VRef c) reg
                (length h + 1) Hname) as (i & H1 & H2 & H3).
    assert (Hcok : config_ok h (VRef c)).
    { rewrite Forall_forall in Hok. apply Hok. apply list_elem_of_In.
      apply in_map_iff. exists (name, VRef c). split; [done|].
      clear -Hname. induction reg as [|[k v] reg IH]; [done|].
      cbn in Hname. destruct (String.eqb name k) eqn:E.
      - apply String.eqb_eq in E. injection Hname as ->. subst. by left.
      - right. by apply IH. }
    destruct Hcok as (c' & a' & route' & [= <-] & Ha' & _ & _ & _ & Hres & Hnda).
    rewrite Ha in Ha'. injection Ha' as <-.
    rewrite Ha, Hroute, Hbase in *. cbn [js_add to_js_string] in H3.
    exists (length h + 1 + 2 * i), (length h + 1 + 2 * i + 1).
    assert (He : hget (h ++
                   plain (extend_props [] (api_entries (length h + 1) reg))
                   :: api_cells h (VStr base) (length h + 1) reg)
                   (length h + 1 + 2 * i) =
                 endpoint_cell h (length h + 1 + 2 * i) (VRef c)
                   (length h + 1 + 2 * i + 1) (own_of h (VRef a))).
    { replace (length h + 1 + 2 * i) with (length h + S (2 * i)) at 1 by lia.
      rewrite hget_app_cons. by rewrite H2. }
    assert (Hrs : hget (h ++
                   plain (extend_props [] (api_entries (length h + 1) reg))
                   :: api_cells h (VStr base) (length h + 1) reg)
                   (length h + 1 + 2 * i + 1) =
                 resource_cell (base ++ route) (own_of h (VRef a))).
    { replace (length h + 1 + 2 * i + 1) with (length h + S (2 * i + 1)) by lia.
      rewrite hget_app_cons. by rewrite H3. }
    unfold field. rewrite He, Hrs, hget_app_r0.
    cbn [lookup list_lookup default from_option id].
    split.
    { unfold obj_get, own_props, plain. cbn [oelems oprops oproto].
      rewrite extend_props_fresh by done. cbn [app]. by rewrite H1. }
    split; [lia|].
    split. { rewrite endpoint_cell_keeps; [done|]. apply reserved_fresh; cbn; tauto. }
    split. { rewrite endpoint_cell_keeps; [done|]. apply reserved_fresh; cbn; tauto. }
    intros k v Hkv. split.
    + by apply endpoint_cell_action.
    + by apply (resource_cell_action _ _ _ v).
  - intros l Hl. by rewrite lookup_app_l.
Qed.

(** ** The README configuration, end to end *)

Lemma provider_endpoint_body (fuel : nat) (h : heap) (t : list event)
    (p e : loc) (x : string) :
  field h (VRef p) "endpoints" = VRef e ->
  e < length h ->
  provider_endpoint (call_fn (S (S (S fuel)))) (VRef p) [VStr x]
    {| st_heap := h; st_trace := t |} =
  (inr (VRef (length h)),
   {| st_heap := <[e := obj_set x (VRef (length h)) (hget h e)]> h
                 ++ fresh_config (length h);
      st_trace := t |}).
Proof.
  intros Hf He. rewrite <- (provider_endpoint_run fuel h t p e x) by done.
  change (4 + fuel) with (S (S (S (S fuel)))). by rewrite call_fn_S.
Qed.

Lemma readme_usage_run (fuel : nat) (h : heap) (t : list event)
    (base name route : string) (model : value) :
  readme_usage (5 + fuel) base name route model {| st_heap := h; st_trace := t |} =
  (inr (VRef (length h + 9)),
   {| st_heap := h ++ readme_cells (length h) base name route model;
      st_trace := t |}).
Proof.
  change (5 + fuel) with (S (S (S (S (S fuel))))).
  unfold readme_usage, invoke, new, call_method, construct. step.
  rewrite (provider_endpoint_body (S fuel) _ t (length h) (length h + 1) name);
    [ | unfold field; step; reflexivity | rewrite length_app; simpl; lia ].
  unfold fresh_config. rewrite !length_app. cbn [length].
  rewrite <- !Nat.add_assoc. simpl (2 + _). step.
  reflexivity.
Qed.

(** X8. The README configuration, from a new provider to a request.  After
    [setBaseRoute(base)] and [endpoint(name).route(route).model(model)], the
    service [$get] returns has exactly the entry [name]; that endpoint refers
    to the config that was configured, whatever the model is each of the five
    default actions is a callable bound to the plain [request], and calling
    one hands the transport exactly one request, for the URL [base + route]
    and that action, with the caller's parameters and no payload.  Nothing is
    requested while configuring, and no object that existed before changes. *)
Theorem readme_end_to_end (fuel : nat) (s : state) (base name route : string)
    (model params : value) :
  exists s',
    readme_usage (5 + fuel) base name route model s =
      (inr (VRef (length (st_heap s) + 9)), s')
    /\ own_of (st_heap s') (VRef (length (st_heap s) + 9)) =
         [(name, VRef (length (st_heap s) + 10))]
    /\ field (st_heap s') (VRef (length (st_heap s) + 10)) "config" =
         VRef (length (st_heap s) + 2)
    /\ field (st_heap s') (VRef (length (st_heap s) + 2)) "route" = VStr route
    /\ field (st_heap s') (VRef (length (st_heap s) + 2)) "model" = model
    /\ st_trace s' = st_trace s
    /\ (forall l, l < length (st_heap s) -> st_heap s' !! l = st_heap s !! l)
    /\ forall action, In action (map snd defaultActions) ->
         field (st_heap s') (VRef (length (st_heap s) + 10)) action =
           VFun (Bound Endpoint_request (VRef (length (st_heap s) + 10)) [VStr action])
         /\ st_trace (snd (invoke (3 + fuel) (VRef (length (st_heap s) + 10)) action
                             [params] s')) =
            st_trace s ++ [ETransport (base ++ route) action params VUndef].
Proof.
  destruct s as [h t]. cbn [st_heap st_trace]. rewrite readme_usage_run.
  eexists. split; [reflexivity|]. cbn [st_heap st_trace].
  unfold field, own_of, readme_cells. rewrite !hget_app_r.
  cbn [lookup list_lookup default from_option id].
  do 4 (split; [reflexivity|]). split; [reflexivity|].
  split. { intros l Hl. by rewrite lookup_app_l. }
  intros action Hin.
  assert (Hbound : obj_get
            {| oproto := PCtor ApiEndpoint;
               oprops :=
                 [("config", VRef (length h + 2)); ("$injector", VInjector);
                  ("resource", VRef (length h + 11));
                  ("get", VFun (Bound Endpoint_request (VRef (length h + 10)) [VStr "get"]));
                  ("update",
                   VFun (Bound Endpoint_request (VRef (length h + 10)) [VStr "update"]));
                  ("save", VFun (Bound Endpoint_request (VRef (length h + 10)) [VStr "save"]));
                  ("patch",
                   VFun (Bound Endpoint_request (VRef (length h + 10)) [VStr "patch"]));
                  ("remove",
                   VFun (Bound Endpoint_request (VRef (length h + 10)) [VStr "remove"]))];
               oelems := None |} action =
          VFun (Bound Endpoint_request (VRef (length h + 10)) [VStr action])).
  { cbn in Hin. destruct Hin as [<-|[<-|[<-|[<-|[<-|[]]]]]]; reflexivity. }
  split; [exact Hbound|].
  unfold invoke, call_method. unfold bind at 1. unfold get_prop at 1.
  unfold bind at 1, read at 1, ret at 1. cbn [st_heap].
  rewrite hget_app_r. cbn [lookup list_lookup default from_option id].
  rewrite Hbound. cbn [call_value].
  change (3 + fuel) with (S (2 + fuel)). rewrite call_fn_S. cbn [app].
  rewrite (request_run fuel _ (length h + 10) (length h + 11) (base ++ route) action).
  - rewrite request_trace. reflexivity.
  - unfold field. cbn [st_heap]. by rewrite hget_app_r.
  - unfold field. cbn [st_heap]. rewrite hget_app_r.
    cbn [lookup list_lookup default from_option id].
    cbn in Hin. destruct Hin as [<-|[<-|[<-|[<-|[<-|[]]]]]]; reflexivity.
  - reflexivity.
Qed.

(** ** [setBaseRoute] *)

(** X9. [setBaseRoute] can be called again: the provider keeps the route of
    the last call, and everything else about it and every other object is as
    before.  It returns nothing, so unlike the config methods it cannot be
    chained: a method call on its result throws a TypeError. *)
Theorem setBaseRoute_last_wins (fuel : nat) (s : state) (p : loc)
    (a b : value) (k : string) (args : list value) :
  field (st_heap s) (VRef p) "setBaseRoute" = VFun Provider_setBaseRoute ->
  oelems (hget (st_heap s) p) = None ->
  exists s1 s2,
    invoke (1 + fuel) (VRef p) "setBaseRoute" [a] s = (inr VUndef, s1)
    /\ invoke (1 + fuel) (VRef p) "setBaseRoute" [b] s1 = (inr VUndef, s2)
    /\ field (st_heap s2) (VRef p) "baseRoute" = b
    /\ (forall k', k' <> "baseRoute" ->
          field (st_heap s2) (VRef p) k' = field (st_heap s) (VRef p) k')
    /\ (forall l, l <> p -> st_heap s2 !! l = st_heap s !! l)
    /\ st_trace s2 = st_trace s
    /\ exists msg,
         invoke (1 + fuel) VUndef k args s1 = (inl (VError "TypeError" msg), s1).
Proof.
  destruct s as [h t]. cbn [st_heap st_trace]. intros Hset Hplain.
  assert (Hp : p < length h) by (by eapply field_allocated).
  unfold field in *. change (1 + fuel) with (S fuel).
  assert (Hplain' : oelems (obj_set "baseRoute" a (hget h p)) = None).
  { by rewrite obj_set_plain. }
  eexists _, _. unfold invoke, call_method.
  split. { step. rewrite Hset. step. reflexivity. }
  split.
  { step. rewrite obj_get_set_ne by done. rewrite Hset. step. reflexivity. }
  cbn [st_heap st_trace]. rewrite hget_insert_eq by done.
  split. { by rewrite obj_get_set_eq. }
  split. { intros k' Hk'. by rewrite !obj_get_set_ne. }
  split. { intros l Hl. by rewrite list_lookup_insert_ne. }
  split; [reflexivity|].
  eexists. step. reflexivity.
Qed.

(** ** Failures on the read path *)

(** [getRequestWithModel] up to the [then]: the request is made, without a
    payload, and the callback is built around the bound [instantiateModel]. *)
Lemma read_request_run (fuel : nat) (h : heap) (t : list event) (e r : loc)
    (url action : string) (params : value) (x : loc) (h1 : heap) (g : fn) :
  wired h e r url action ->
  resource_call url action params VUndef h = (inr (VRef x), h1) ->
  field h1 (VRef e) "instantiateModel" = VFun g ->
  call_fn (3 + fuel) Endpoint_getRequestWithModel (VRef e) [VStr action; params]
    {| st_heap := h; st_trace := t |} =
  call_method (call_fn (2 + fuel)) (field h1 (VRef x) "$promise") "then"
    [VFun (OnResponse (VFun (Bound g (VRef e) [])))]
    {| st_heap := h1; st_trace := t ++ [ETransport url action params VUndef] |}.
Proof.
  intros (Hreq & Hres & Hact) Hcall Him.
  change (3 + fuel) with (S (2 + fuel)). rewrite call_fn_S.
  unfold endpoint_getRequestWithModel. cbn [arg lookup list_lookup default].
  unfold call_method at 1. unfold bind at 1. unfold bind at 1.
  assert (Hget : get_prop (VRef e) "request" {| st_heap := h; st_trace := t |} =
                 (inr (VFun Endpoint_request), {| st_heap := h; st_trace := t |})).
  { unfold field in Hreq. cbn. unfold bind, read, ret. cbn. by rewrite Hreq. }
  rewrite Hget. cbn [call_value].
  rewrite (request_run fuel _ e r url action) by done.
  unfold run_resource. cbn [arg lookup list_lookup default]. step.
  rewrite Hcall. unfold field in Him. step. rewrite Him. step.
  reflexivity.
Qed.

(** X10. When the transport fails, the read path hands the failure on and
    runs no model code: a rejected [$promise] comes back as it is, and an
    exception thrown by the transport is thrown to the caller.  In both cases
    the request was made once and the heap is as the transport left it. *)
Theorem read_failure_passes (fuel : nat) (s : state) (e r : loc)
    (url action : string) (params : value) (g : fn) :
  wired (st_heap s) e r url action ->
  (forall x h1 err,
     resource_call url action params VUndef (st_heap s) = (inr (VRef x), h1) ->
     field h1 (VRef x) "$promise" = VPromise false err ->
     field h1 (VRef e) "instantiateModel" = VFun g ->
     call_fn (3 + fuel) Endpoint_getRequestWithModel (VRef e) [VStr action; params] s =
     (inr (VPromise false err),
      {| st_heap := h1;
         st_trace := st_trace s ++ [ETransport url action params VUndef] |}))
  /\ (forall err h1,
        resource_call url action params VUndef (st_heap s) = (inl err, h1) ->
        call_fn (3 + fuel) Endpoint_getRequestWithModel (VRef e) [VStr action; params] s =
        (inl err,
         {| st_heap := h1;
            st_trace := st_trace s ++ [ETransport url action params VUndef] |})).
Proof.
  destruct s as [h t]. cbn [st_heap st_trace]. intros Hwired. split.
  - intros x h1 err Hcall Hpromise Him.
    rewrite (read_request_run fuel h t e r url action params x h1 g) by done.
    rewrite Hpromise. unfold call_method. change (2 + fuel) with (S (S fuel)).
    step. reflexivity.
  - intros err h1 Hcall. destruct Hwired as (Hreq & Hres & Hact).
    change (3 + fuel) with (S (2 + fuel)). rewrite call_fn_S.
    unfold endpoint_getRequestWithModel. cbn [arg lookup list_lookup default].
    unfold call_method at 1. unfold bind at 1. unfold bind at 1.
    assert (Hget : get_prop (VRef e) "request" {| st_heap := h; st_trace := t |} =
                   (inr (VFun Endpoint_request), {| st_heap := h; st_trace := t |})).
    { unfold field in Hreq. cbn. unfold bind, read, ret. cbn. by rewrite Hreq. }
    rewrite Hget. cbn [call_value].
    rewrite (request_run fuel _ e r url action) by done.
    unfold run_resource. cbn [arg lookup list_lookup default]. step.
    rewrite Hcall. reflexivity.
Qed.

(** X11. Whatever goes wrong while the payload of a response is wrapped (a
    model class without [afterLoad], a hook or constructor that throws, no
    model factory on the config), the caller gets no exception: the promise
    of the read path is rejected with what was thrown, and the response is
    left in the state the failed instantiation left it, its payload not
    replaced. *)
Theorem read_wrapping_failure_rejects (fuel : nat) (s : state) (e r : loc)
    (url action : string) (params : value) (x resp : loc) (h1 : heap)
    (err : value) (s2 : state) :
  wired (st_heap s) e r url action ->
  resource_call url action params VUndef (st_heap s) = (inr (VRef x), h1) ->
  field h1 (VRef x) "$promise" = VPromise true (VRef resp) ->
  field h1 (VRef e) "instantiateModel" = VFun Endpoint_instantiateModel ->
  payload_is_array h1 (field h1 (VRef resp) "data") = false ->
  call_fn (3 + fuel) Endpoint_instantiateModel (VRef e) [field h1 (VRef resp) "data"]
    {| st_heap := h1; st_trace := st_trace s ++ [ETransport url action params VUndef] |} =
    (inl err, s2) ->
  call_fn (7 + fuel) Endpoint_getRequestWithModel (VRef e) [VStr action; params] s =
  (inr (VPromise false err), s2).
Proof.
  destruct s as [h t]. cbn [st_heap st_trace].
  intros Hwired Hcall Hpromise Him Harr Hfail.
  change (7 + fuel) with (3 + (4 + fuel)).
  rewrite (read_request_run (4 + fuel) h t e r url action params x h1
             Endpoint_instantiateModel) by done.
  rewrite Hpromise. unfold call_method.
  change (2 + (4 + fuel)) with (S (S (S (3 + fuel)))).
  unfold field in Harr, Hfail.
  step.
  destruct (obj_get (hget h1 resp) "data") as [| | | | |a| | | |];
    cbn [angular_isArray payload_is_array] in *; unfold ret; step;
    try (rewrite Hfail; reflexivity).
  unfold bind, read. cbn [st_heap]. rewrite Harr.
  step. rewrite Hfail. reflexivity.
Qed.

(** ** Failures on the write path *)

(** X12. When the [beforeSave] of the payload's copy throws, the write
    path throws that same value to the caller and makes no request: the state
    is the one the hook left, and the only thing recorded is the call of the
    hook, on the copy.  The payload and every other object that existed
    before are unchanged. *)
Theorem write_hook_throws (fuel d : nat) (s : state) (e r l : loc) (k : nat)
    (url action : string) (params err : value) :
  deep d (st_heap s) (VRef l) = true ->
  d <= 2 + fuel ->
  field (st_heap s) (VRef l) "beforeSave" = VFun (User k) ->
  local k ->
  (forall l' s1, angular_copy (2 + fuel) (VRef l) s = (inr (VRef l'), s1) ->
     fst (user_call k (VRef l') [] (st_heap s1)) = inl err) ->
  wired (st_heap s) e r url action ->
  exists l' s1,
    angular_copy (2 + fuel) (VRef l) s = (inr (VRef l'), s1)
    /\ length (st_heap s) <= l'
    /\ call_fn (3 + fuel) Endpoint_saveRequestWithModel (VRef e)
         [VStr action; params; VRef l] s =
       (inl err,
        {| st_heap := snd (user_call k (VRef l') [] (st_heap s1));
           st_trace := st_trace s ++ [ECall k (VRef l') [] (own_of (st_heap s1) (VRef l'))] |})
    /\ (forall x, x < length (st_heap s) ->
          snd (user_call k (VRef l') [] (st_heap s1)) !! x = st_heap s !! x).
Proof.
  intros Hdeep Hle Hhook Hlocal Hthrows Hwired.
  assert (Happ : app_hook (field (st_heap s) (VRef l) "beforeSave")).
  { rewrite Hhook. exact Hlocal. }
  destruct (save_run fuel d s e r l url action params Hdeep Hle Happ Hwired)
    as (l' & s1 & Hcopy & (new & ->) & Hfresh & _ & Hframe & Hrun).
  pose proof (Hthrows _ _ Hcopy) as Herr.
  exists l'. eexists. split; [exact Hcopy|]. split; [exact Hfresh|].
  rewrite Hrun. rewrite Hhook in *. clear Hrun.
  destruct s as [h t]. cbn [st_heap st_trace run_hook own_of] in *.
  unfold bind at 1. unfold run_user in *. unfold bind, read, emit, ret in *.
  cbn [st_heap st_trace] in *.
  destruct (user_call k (VRef l') [] (h ++ new)) as [res h2]. cbn [fst snd] in *.
  subst res. split; [reflexivity|exact Hframe].
Qed.

(** X13. A request for an action the resource does not have throws a
    TypeError before anything is sent, and changes nothing. *)
Theorem request_unknown_action (fuel : nat) (s : state) (e r : loc)
    (action : string) (params data : value) :
  field (st_heap s) (VRef e) "resource" = VRef r ->
  field (st_heap s) (VRef r) action = VUndef ->
  exists msg,
    call_fn (1 + fuel) Endpoint_request (VRef e) [VStr action; params; data] s =
    (inl (VError "TypeError" msg), s).
Proof.
  destruct s as [h t]. cbn [st_heap]. unfold field. intros Hr Ha.
  change (1 + fuel) with (S fuel). rewrite call_fn_S.
  unfold endpoint_request, call_method.
  step. rewrite Hr. step. rewrite Ha. step. by eexists.
Qed.

End Program.

(** * The demo application *)

Lemma demo_confined (n : nat) : confined demo_call n.
Proof.
  intros this args h.
  destruct n as [|[|[|n]]]; cbn [demo_call snd]; try (split; [lia|done]);
    (destruct this; cbn [set_own]; try (split; [lia|done]);
     split; [by rewrite length_insert|];
     intros l' Hl' Hne; apply list_lookup_insert_ne; congruence).
Qed.

Lemma demo_local (n : nat) : local demo_call n.
Proof.
  intros this args h l Hl Hreach.
  destruct (demo_confined n this args h) as [_ Hsame].
  apply Hsame; [done|]. intros ->. apply Hreach. constructor.
Qed.

Lemma demo_returns (n : nat) (this : value) (args : list value) (h : heap) :
  fst (demo_call n this args h) = inr VUndef.
Proof. by destruct n as [|[|[|n]]]. Qed.

Lemma demo_song_class : model_class demo_call demo_proto 0 1.
Proof.
  split.
  - reflexivity.
  - apply demo_confined.
  - apply demo_confined.
  - intros. exists VUndef. by rewrite demo_returns.
  - intros l args h o Hl Hp He Hps. exists o. cbn. by rewrite Hps.
  - intros. exists VUndef. by rewrite demo_returns.
Qed.

Lemma demo_bare_class : hookless_class demo_call demo_proto 3.
Proof.
  split.
  - reflexivity.
  - apply demo_confined.
  - intros. exists VUndef. by rewrite demo_returns.
  - intros l args h o Hl Hp He Hps. exists o. cbn. by rewrite Hps.
Qed.

(** The demo heap is what the program builds. *)
Lemma demo_heap_built (factory : value) :
  (let* c := new demo_call demo_proto demo_resource 3 ApiEndpointConfig [] in
   let* _ := invoke demo_call demo_proto demo_resource 1 c "route" [VStr "songs/:id"] in
   let* _ := invoke demo_call demo_proto demo_resource 1 c "model" [factory] in
   let* o := alloc (plain [("model", VBool true)]) in
   let* _ := invoke demo_call demo_proto demo_resource 1 c "addHttpAction"
               [VStr "get"; VStr "get"; VUndef; o] in
   let* _ := invoke demo_call demo_proto demo_resource 1 c "addHttpAction"
               [VStr "post"; VStr "save"; VUndef; o] in
   let* o' := alloc (plain [("model", VBool true); ("isArray", VBool true)]) in
   let* _ := invoke demo_call demo_proto demo_resource 1 c "addHttpAction"
               [VStr "get"; VStr "query"; VUndef; o'] in
   let* e := new demo_call demo_proto demo_resource 1 ApiEndpoint [VStr "api/"; c] in
   let* tags := alloc (array [VStr "a"]) in
   let* _ := alloc {| oproto := PCtor (User 0);
                      oprops := [("name", VStr "x"); ("tags", tags)];
                      oelems := None |} in
   ret e) empty_state =
  (inr (VRef 12), {| st_heap := demo_heap_with factory; st_trace := [] |}).
Proof. by vm_compute. Qed.

Lemma registry_state_built :
  new demo_call demo_proto demo_resource 1 ApiProvider [] empty_state =
  (inr (VRef 0), registry_state).
Proof. by vm_compute. Qed.

(** * The properties on the demo application *)

(** C2, as stated, fails: [endpoint('x')] called twice on a fresh registry
    returns two different configs, and the template set through the first
    handle is not seen through the second. *)
Lemma endpoint_twice_not_shared :
  exists c1 c2 s1 s2 s3,
    invoke demo_call demo_proto demo_resource 5 (VRef 0) "endpoint" [VStr "x"]
      registry_state = (inr c1, s1)
    /\ invoke demo_call demo_proto demo_resource 5 (VRef 0) "endpoint" [VStr "x"]
         s1 = (inr c2, s2)
    /\ invoke demo_call demo_proto demo_resource 1 c1 "route" [VStr "a"] s2 = (inr c1, s3)
    /\ c1 <> c2
    /\ field demo_proto (st_heap s3) c1 "route" = VStr "a"
    /\ field demo_proto (st_heap s3) c2 "route" <> VStr "a".
Proof.
  exists (VRef 2), (VRef 9).
  eexists (snd (invoke demo_call demo_proto demo_resource 5 (VRef 0) "endpoint"
                  [VStr "x"] registry_state)).
  eexists (snd (invoke demo_call demo_proto demo_resource 5 (VRef 0) "endpoint" [VStr "x"]
            (snd (invoke demo_call demo_proto demo_resource 5 (VRef 0) "endpoint"
                  [VStr "x"] registry_state)))).
  eexists (snd (invoke demo_call demo_proto demo_resource 1 (VRef 2) "route" [VStr "a"]
           (snd (invoke demo_call demo_proto demo_resource 5 (VRef 0) "endpoint" [VStr "x"]
            (snd (invoke demo_call demo_proto demo_resource 5 (VRef 0) "endpoint"
                  [VStr "x"] registry_state)))))).
  split; [by vm_compute|]. split; [by vm_compute|]. split; [by vm_compute|].
  split; [by vm_compute|]. split; by vm_compute.
Qed.

(** The amended C2 on the fresh registry, for the name [x]. *)
Lemma endpoint_always_creates_witness :
  exists c1 c2 s1 s2,
    call_fn demo_call demo_proto demo_resource 4 Provider_endpoint (VRef 0) [VStr "x"]
      registry_state = (inr (VRef c1), s1)
    /\ call_fn demo_call demo_proto demo_resource 4 Provider_endpoint (VRef 0) [VStr "x"]
         s1 = (inr (VRef c2), s2)
    /\ c1 < c2.
Proof.
  destruct (endpoint_always_creates demo_call demo_proto demo_resource 0
              registry_state 0 1 "x" (VStr "a"))
    as (c1 & c2 & s1 & s2 & s3 & H1 & H2 & _ & _ & Hlt & _).
  - reflexivity.
  - vm_compute. lia.
  - lia.
  - reflexivity.
  - exists c1, c2, s1, s2. split; [exact H1|]. split; [exact H2|exact Hlt].
Defined.

(** C8, as stated, fails: when [options] carries a [method] of its own, that
    is what the stored action gets, not the upper-cased argument. *)
Lemma addHttpAction_method_overridden :
  exists s',
    (let* options := alloc (plain [("method", VStr "post")]) in
     call_fn demo_call demo_proto demo_resource 1 Config_addHttpAction (VRef 0)
       [VStr "get"; VStr "list"; VUndef; options]) demo_state = (inr (VRef 0), s')
    /\ field demo_proto (st_heap s')
         (field demo_proto (st_heap s') (VRef 1) "list") "method" = VStr "post"
    /\ VStr "post" <> VStr (to_upper "get").
Proof.
  eexists (snd ((let* options := alloc (plain [("method", VStr "post")]) in
     call_fn demo_call demo_proto demo_resource 1 Config_addHttpAction (VRef 0)
       [VStr "get"; VStr "list"; VUndef; options]) demo_state)).
  split; [by vm_compute|]. split; by vm_compute.
Qed.

(** The amended C8 on the demo config: [get] re-added as a PUT with the
    options [{model: true, isArray: true}] of object 10. *)
Lemma addHttpAction_overwrites_witness :
  exists s',
    call_fn demo_call demo_proto demo_resource 1 Config_addHttpAction (VRef 0)
      [VStr "put"; VStr "get"; VUndef; VRef 10] demo_state = (inr (VRef 0), s')
    /\ field demo_proto (st_heap s') (VRef 1) "get" = VRef 16
    /\ own_of (st_heap s') (VRef 16) =
         [("method", VStr "PUT"); ("params", VUndef); ("model", VBool true);
          ("isArray", VBool true)].
Proof.
  destruct (addHttpAction_overwrites demo_call demo_proto demo_resource 0
              demo_state 0 1 "put" "get" VUndef (VRef 10))
    as (s' & H1 & H2 & H3 & _).
  - reflexivity.
  - vm_compute. lia.
  - reflexivity.
  - intros o [= <-]. vm_compute. lia.
  - exists s'. split; [exact H1|]. split; [exact H2|exact H3].
Defined.

(** C5. On the demo endpoint the promise returned by the read-with-model
    action [get] is fulfilled with [undefined]: the model instance (object
    19, with the raw [id] and marked loaded by [afterLoad]) is stored in the
    response (object 17), which the caller never receives. *)
Theorem read_resolves_with_undefined :
  exists s',
    invoke demo_call demo_proto demo_resource 9 (VRef 12) "get" [VUndef] demo_state =
      (inr (VPromise true VUndef), s')
    /\ field demo_proto (st_heap s') (VRef 17) "data" = VRef 19
    /\ own_of (st_heap s') (VRef 19) = [("id", VNum 5); ("loaded", VBool true)].
Proof.
  eexists (snd (invoke demo_call demo_proto demo_resource 9 (VRef 12) "get"
                  [VUndef] demo_state)).
  split; [by vm_compute|]. split; by vm_compute.
Qed.

(** C4, as stated, fails: with a model class that has no [afterLoad], the
    read-with-model action does not skip the hook; its promise is rejected
    with the TypeError of the call. *)
Lemma missing_afterLoad_rejects :
  fst (invoke demo_call demo_proto demo_resource 9 (VRef 12) "get" [VUndef] bare_state) =
  inr (VPromise false (VError "TypeError" "not a function")).
Proof. by vm_compute. Qed.

(** C10 on the demo endpoint: [get] called with and without a payload. *)
Lemma read_with_model_drops_data_witness :
  call_fn demo_call demo_proto demo_resource 4
    (Bound Endpoint_getRequestWithModel (VRef 12) [VStr "get"]) VUndef
    [VNum 7; VNum 8] demo_state =
  call_fn demo_call demo_proto demo_resource 4
    (Bound Endpoint_getRequestWithModel (VRef 12) [VStr "get"]) VUndef
    [VNum 7] demo_state.
Proof.
  apply (read_with_model_drops_data demo_call demo_proto demo_resource 0
           demo_state 12 13 "api/songs/:id" "get" VUndef (VNum 7) (VNum 8));
    reflexivity.
Defined.

(** C6 on the demo endpoint: saving the song, whose [beforeSave] renames
    its receiver. *)
Lemma write_with_model_copies_witness :
  exists l' s1,
    angular_copy 2 (VRef 15) demo_state = (inr (VRef l'), s1)
    /\ 16 <= l'
    /\ call_fn demo_call demo_proto demo_resource 3 Endpoint_saveRequestWithModel
         (VRef 12) [VStr "save"; VUndef; VRef 15] demo_state =
       (let* _ := run_user demo_call 2 (VRef l') [] in
        let* res := run_resource demo_resource "api/songs/:id" "save" [VUndef; VRef l'] in
        get_prop demo_proto res "$promise") s1.
Proof.
  destruct (write_with_model_copies demo_call demo_proto demo_resource 0 2
              demo_state 12 13 15 "api/songs/:id" "save" VUndef)
    as (l' & s1 & H1 & _ & _ & H2 & _ & _ & H3).
  - reflexivity.
  - lia.
  - exact (demo_local 2).
  - repeat split; reflexivity.
  - exists l', s1. split; [exact H1|]. split; [exact H2|exact H3].
Defined.

(** The two raw items the transport answers [query] with. *)
Lemma demo_loaded_raw_ok : Forall (raw_ok demo_loaded) [VRef 16; VRef 17].
Proof.
  repeat apply Forall_cons_2; try apply Forall_nil_2;
    (split; [intros l [= <-]; vm_compute; lia|];
     split; [apply (bool_decide_unpack _); by vm_compute|reflexivity]).
Qed.

(** C7 on the demo endpoint: [query] answered with two raw items. *)
Lemma read_with_model_instantiates_witness :
  exists calls s',
    call_fn demo_call demo_proto demo_resource 8 Endpoint_getRequestWithModel (VRef 12)
      [VStr "query"; VUndef] demo_state = (inr (VPromise true VUndef), s')
    /\ st_trace s' =
         ETransport "api/songs/:id" "query" VUndef VUndef :: hook_events 0 1 calls
    /\ length calls = 2.
Proof.
  destruct (read_with_model_instantiates demo_call demo_proto demo_resource 0
              demo_state 12 13 0 19 0 1 "api/songs/:id" "query" VUndef
              (VRef 20) (VRef 18) demo_loaded)
    as (calls & s' & H1 & H2 & H3 & _).
  - exact demo_song_class.
  - repeat split; reflexivity.
  - reflexivity.
  - reflexivity.
  - vm_compute. lia.
  - reflexivity.
  - reflexivity.
  - reflexivity.
  - repeat split; reflexivity.
  - exact demo_loaded_raw_ok.
  - exists calls, s'. split; [exact H1|]. split; [exact H2|].
    apply Forall2_length in H3. cbn in H3. lia.
Defined.

(** The amended C4 on the demo endpoint, whose model class [Song] has both
    hooks: the song is saved through the [beforeSave] of its copy and a raw
    item is instantiated through the constructor and [afterLoad]; and on the
    endpoint of the class without hooks, where instantiating throws. *)
Lemma hooks_presence_witness :
  (exists l' new,
     angular_copy 2 (VRef 15) demo_state =
       (inr (VRef l'), {| st_heap := st_heap demo_state ++ new; st_trace := [] |})
     /\ 16 <= l'
     /\ call_fn demo_call demo_proto demo_resource 3 Endpoint_saveRequestWithModel (VRef 12)
          [VStr "save"; VUndef; VRef 15] demo_state =
        (let* _ := run_user demo_call 2 (VRef l') [] in
         let* res := run_resource demo_resource "api/songs/:id" "save" [VUndef; VRef l'] in
         get_prop demo_proto res "$promise")
          {| st_heap := st_heap demo_state ++ new; st_trace := [] |})
  /\ (exists own s',
        call_fn demo_call demo_proto demo_resource 3 Endpoint_instantiateModel (VRef 12)
          [VRef 15] demo_state = (inr (VRef 16), s')
        /\ st_trace s' = [ECall 0 (VRef 16) [] []; ECall 1 (VRef 16) [] own])
  /\ (exists s',
        call_fn demo_call demo_proto demo_resource 3 Endpoint_instantiateModel (VRef 12)
          [VRef 15] bare_state = (inl (VError "TypeError" "not a function"), s')
        /\ st_trace s' = [ECall 3 (VRef 16) [] []]).
Proof.
  destruct (hooks_presence demo_call demo_proto demo_resource 0 2
              demo_state 12 13 0 15 0 "api/songs/:id" "save" VUndef (VRef 15))
    as (_ & Hsave & Hload).
  { split; [reflexivity | ]. split; reflexivity. }
  destruct (hooks_presence demo_call demo_proto demo_resource 0 2
              bare_state 12 13 0 15 3 "api/songs/:id" "save" VUndef (VRef 15))
    as (_ & _ & Hbare).
  { split; [reflexivity | ]. split; reflexivity. }
  split; [ | split].
  - destruct (Hsave eq_refl) as (l' & new & H1 & H2 & _ & H3 & _ & H4).
    + lia.
    + exact (demo_local 2).
    + exists l', new. split; [exact H1 | ]. split; [exact H2 | ].
      apply (H4 2). rewrite H3. reflexivity.
  - destruct Hload as (Hhook & _).
    + split; [reflexivity | ]. split; [reflexivity | ]. split; reflexivity.
    + split; [intros l [= <-]; vm_compute; lia | ]. split; [ | reflexivity].
      apply (bool_decide_unpack _). by vm_compute.
    + destruct (Hhook 1 demo_song_class) as (own & s' & G1 & G2 & _).
      exists own, s'. split; [exact G1 | exact G2].
  - destruct Hbare as (_ & Hnone).
    + split; [reflexivity | ]. split; [reflexivity | ]. split; reflexivity.
    + split; [intros l [= <-]; vm_compute; lia | ]. split; [ | reflexivity].
      apply (bool_decide_unpack _). by vm_compute.
    + exact (Hnone demo_bare_class).
Defined.

(** * The further properties on the demo application *)

Lemma demo_config_at : config_at demo_proto (st_heap demo_state) 0 1.
Proof.
  split; [reflexivity | ]. split; [vm_compute; lia | ].
  split; [lia | reflexivity].
Qed.

Lemma demo_actions_ok :
  actions_ok (st_heap demo_state) (own_of (st_heap demo_state) (VRef 1)).
Proof.
  let x := eval vm_compute in (own_of (st_heap demo_state) (VRef 1)) in
  change (own_of (st_heap demo_state) (VRef 1)) with x.
  split; [ | split].
  - repeat apply Forall_cons_2; try apply Forall_nil_2;
      (eexists; split; [reflexivity | vm_compute; lia]).
  - repeat apply Forall_cons_2; try apply Forall_nil_2;
      (intros Hin; cbn in Hin; intuition discriminate).
  - apply (bool_decide_unpack _). by vm_compute.
Qed.

(** X1 on the demo config: [enableQuery('query')], the action being object 11. *)
Lemma enableQuery_marks_existing_witness :
  exists s',
    call_fn demo_call demo_proto demo_resource 1 Config_enableQuery (VRef 0)
      [VStr "query"] demo_state = (inr (VRef 0), s')
    /\ field demo_proto (st_heap s') (VRef 11) "isArray" = VBool true.
Proof.
  destruct (enableQuery_marks_existing demo_call demo_proto demo_resource 0
              demo_state 0 1 11 (VStr "query"))
    as (s' & H1 & _ & H2 & _).
  - exact demo_config_at.
  - reflexivity.
  - vm_compute. lia.
  - lia.
  - reflexivity.
  - exists s'. split; [exact H1 | exact H2].
Defined.

(** X2 on the demo config: [enableQuery('list')], a name it does not hold. *)
Lemma enableQuery_creates_witness :
  exists s',
    call_fn demo_call demo_proto demo_resource 1 Config_enableQuery (VRef 0)
      [VStr "list"] demo_state = (inr (VRef 0), s')
    /\ field demo_proto (st_heap s') (VRef 1) "list" = VRef 16
    /\ field demo_proto (st_heap s') (VRef 16) "method" = VUndef.
Proof.
  destruct (enableQuery_creates demo_call demo_proto demo_resource 0
              demo_state 0 1 (VStr "list"))
    as (s' & H1 & H2 & _ & H3 & _).
  - exact demo_config_at.
  - reflexivity.
  - exists s'. split; [exact H1 | ]. split; [exact H2 | exact H3].
Defined.

(** X3 on the demo config, for the query action it holds. *)
Lemma enableQuery_idempotent_witness :
  exists s',
    call_fn demo_call demo_proto demo_resource 1 Config_enableQuery (VRef 0)
      [VStr "query"] demo_state = (inr (VRef 0), s')
    /\ call_fn demo_call demo_proto demo_resource 1 Config_enableQuery (VRef 0)
         [VStr "query"] s' = (inr (VRef 0), s').
Proof.
  apply (enableQuery_idempotent demo_call demo_proto demo_resource 0
           demo_state 0 1 (VStr "query")).
  - exact demo_config_at.
  - right. exists 11. split; [reflexivity | ]. split; [vm_compute; lia | ].
    split; [lia | reflexivity].
Defined.

(** X4 on the demo config: [addHttpAction()] without a method. *)
Lemma addHttpAction_needs_method_witness :
  exists msg,
    call_fn demo_call demo_proto demo_resource 1 Config_addHttpAction (VRef 0)
      [VUndef; VStr "list"] demo_state = (inl (VError "TypeError" msg), demo_state).
Proof.
  apply (addHttpAction_needs_method demo_call demo_proto demo_resource 0
           demo_state 0 VUndef [VStr "list"]); intros; discriminate.
Defined.

(** X5 on the demo config, for a GET action [list]. *)
Lemma query_before_or_after_action_witness :
  (exists s1 s2 x,
     call_fn demo_call demo_proto demo_resource 1 Config_addHttpAction (VRef 0)
       [VStr "get"; VStr "list"; VUndef] demo_state = (inr (VRef 0), s1)
     /\ call_fn demo_call demo_proto demo_resource 1 Config_enableQuery (VRef 0)
          [VStr "list"] s1 = (inr (VRef 0), s2)
     /\ field demo_proto (st_heap s2) (VRef 1) "list" = VRef x
     /\ field demo_proto (st_heap s2) (VRef x) "method" = VStr (to_upper "get")
     /\ field demo_proto (st_heap s2) (VRef x) "isArray" = VBool true)
  /\ (exists s1 s2 x,
        call_fn demo_call demo_proto demo_resource 1 Config_enableQuery (VRef 0)
          [VStr "list"] demo_state = (inr (VRef 0), s1)
        /\ call_fn demo_call demo_proto demo_resource 1 Config_addHttpAction (VRef 0)
             [VStr "get"; VStr "list"; VUndef] s1 = (inr (VRef 0), s2)
        /\ field demo_proto (st_heap s2) (VRef 1) "list" = VRef x
        /\ field demo_proto (st_heap s2) (VRef x) "method" = VStr (to_upper "get")
        /\ field demo_proto (st_heap s2) (VRef x) "isArray" = VUndef).
Proof.
  apply (query_before_or_after_action demo_call demo_proto demo_resource 0
           demo_state 0 1 "get" "list" VUndef).
  - exact demo_config_at.
  - left. reflexivity.
  - discriminate.
Defined.

(** X6 on the demo config: a second endpoint built from it. *)
Lemma endpoint_construction_witness :
  exists s',
    new demo_call demo_proto demo_resource 1 ApiEndpoint [VStr "api/"; VRef 0]
      demo_state = (inr (VRef 16), s')
    /\ field demo_proto (st_heap s') (VRef 16) "config" = VRef 0
    /\ field demo_proto (st_heap s') (VRef 16) "save" =
         VFun (Bound Endpoint_saveRequestWithModel (VRef 16) [VStr "save"])
    /\ field demo_proto (st_heap s') (VRef 17) "save" =
         VFun (Resource_action "api/songs/:id" "save").
Proof.
  destruct (endpoint_construction demo_call demo_proto demo_resource 0
              demo_state 0 1 "api/" "songs/:id")
    as (s' & H1 & _ & H2 & _ & H3 & _).
  - reflexivity.
  - vm_compute. lia.
  - reflexivity.
  - exact demo_actions_ok.
  - exists s'. split; [exact H1 | ]. split; [exact H2 | ].
    exact (H3 "save" (VRef 9) eq_refl).
Defined.

Lemma songs_state_built :
  readme_usage demo_call demo_proto demo_resource 5 "api/" "songs" "songs/:id"
    (VFun (User 0)) empty_state = (inr (VRef 9), songs_state).
Proof. by vm_compute. Qed.

Lemma songs_config_ok : config_ok demo_proto (st_heap songs_state) (VRef 2).
Proof.
  exists 2, 3, "songs/:id". split; [reflexivity | ]. split; [reflexivity | ].
  split; [vm_compute; lia | ]. split; [reflexivity | ].
  let x := eval vm_compute in (own_of (st_heap songs_state) (VRef 3)) in
  change (own_of (st_heap songs_state) (VRef 3)) with x.
  split; [ | split].
  - repeat apply Forall_cons_2; try apply Forall_nil_2;
      (eexists; split; [reflexivity | vm_compute; lia]).
  - repeat apply Forall_cons_2; try apply Forall_nil_2;
      (intros Hin; cbn in Hin; intuition discriminate).
  - apply (bool_decide_unpack _). by vm_compute.
Qed.

(** X7 on the registry of [songs_state]: a second [$get]. *)
Lemma get_materializes_witness :
  exists s' e res,
    invoke demo_call demo_proto demo_resource 4 (VRef 0) "$get" [] songs_state =
      (inr (VRef 12), s')
    /\ field demo_proto (st_heap s') (VRef 12) "songs" = VRef e
    /\ field demo_proto (st_heap s') (VRef e) "config" = VRef 2
    /\ field demo_proto (st_heap s') (VRef e) "resource" = VRef res
    /\ field demo_proto (st_heap s') (VRef res) "get" =
         VFun (Resource_action "api/songs/:id" "get").
Proof.
  destruct (get_materializes demo_call demo_proto demo_resource 0
              songs_state 0 1 "api/")
    as (s' & H1 & _ & H2 & _).
  - reflexivity.
  - reflexivity.
  - vm_compute. lia.
  - reflexivity.
  - apply (bool_decide_unpack _). by vm_compute.
  - apply Forall_cons_2; [exact songs_config_ok | apply Forall_nil_2].
  - destruct (H2 "songs" 2 3 "songs/:id" eq_refl eq_refl eq_refl)
      as (e & res & G1 & _ & G2 & G3 & G4).
    exists s', e, res. split; [exact H1 | ]. split; [exact G1 | ].
    split; [exact G2 | ]. split; [exact G3 | ].
    exact (proj2 (G4 "get" (VRef 4) eq_refl)).
Defined.

(** X9 on the fresh registry. *)
Lemma setBaseRoute_last_wins_witness :
  exists s1 s2,
    invoke demo_call demo_proto demo_resource 1 (VRef 0) "setBaseRoute" [VStr "a/"]
      registry_state = (inr VUndef, s1)
    /\ invoke demo_call demo_proto demo_resource 1 (VRef 0) "setBaseRoute" [VStr "b/"]
         s1 = (inr VUndef, s2)
    /\ field demo_proto (st_heap s2) (VRef 0) "baseRoute" = VStr "b/"
    /\ exists msg,
         invoke demo_call demo_proto demo_resource 1 VUndef "endpoint" [VStr "songs"] s1 =
         (inl (VError "TypeError" msg), s1).
Proof.
  destruct (setBaseRoute_last_wins demo_call demo_proto demo_resource 0
              registry_state 0 (VStr "a/") (VStr "b/") "endpoint" [VStr "songs"])
    as (s1 & s2 & H1 & H2 & H3 & _ & _ & _ & H4).
  - reflexivity.
  - reflexivity.
  - exists s1, s2. split; [exact H1 | ]. split; [exact H2 | ].
    split; [exact H3 | exact H4].
Defined.

(** X10 on the demo endpoint behind the failing transport: [get] is rejected,
    [remove] throws. *)
Lemma read_failure_passes_witness :
  call_fn demo_call demo_proto failing_resource 3 Endpoint_getRequestWithModel (VRef 12)
    [VStr "get"; VUndef] demo_state =
  (inr (VPromise false (VStr "500")),
   {| st_heap := st_heap demo_state ++ [plain [("$promise", VPromise false (VStr "500"))]];
      st_trace := [ETransport "api/songs/:id" "get" VUndef VUndef] |})
  /\ call_fn demo_call demo_proto failing_resource 3 Endpoint_getRequestWithModel (VRef 12)
       [VStr "remove"; VUndef] demo_state =
     (inl (VError "Error" "offline"),
      {| st_heap := st_heap demo_state;
         st_trace := [ETransport "api/songs/:id" "remove" VUndef VUndef] |}).
Proof.
  split.
  - refine (proj1 (read_failure_passes demo_call demo_proto failing_resource 0
                     demo_state 12 13 "api/songs/:id" "get" VUndef
                     Endpoint_instantiateModel _) 16 _ (VStr "500") _ _ _).
    + split; [reflexivity | ]. split; reflexivity.
    + reflexivity.
    + reflexivity.
    + reflexivity.
  - refine (proj2 (read_failure_passes demo_call demo_proto failing_resource 0
                     demo_state 12 13 "api/songs/:id" "remove" VUndef
                     Endpoint_instantiateModel _) _ _ _).
    + split; [reflexivity | ]. split; reflexivity.
    + reflexivity.
Defined.

(** X11 on the endpoint of the class without hooks: [get] is rejected with
    the TypeError of the missing [afterLoad]. *)
Lemma read_wrapping_failure_rejects_witness :
  call_fn demo_call demo_proto demo_resource 7 Endpoint_getRequestWithModel (VRef 12)
    [VStr "get"; VUndef] bare_state =
  (inr (VPromise false (VError "TypeError" "not a function")),
   snd (call_fn demo_call demo_proto demo_resource 3 Endpoint_instantiateModel
          (VRef 12) [VRef 16]
          {| st_heap := snd (demo_resource "api/songs/:id" "get" VUndef VUndef
                               (st_heap bare_state));
             st_trace := [ETransport "api/songs/:id" "get" VUndef VUndef] |})).
Proof.
  apply (read_wrapping_failure_rejects demo_call demo_proto demo_resource 0
           bare_state 12 13 "api/songs/:id" "get" VUndef 18 17
           (snd (demo_resource "api/songs/:id" "get" VUndef VUndef (st_heap bare_state)))).
  - split; [reflexivity | ]. split; reflexivity.
  - reflexivity.
  - reflexivity.
  - reflexivity.
  - reflexivity.
  - by vm_compute.
Defined.

Lemma strict_local (n : nat) : local strict_call n.
Proof.
  intros this args h l Hl Hreach. unfold strict_call.
  destruct this; try reflexivity.
  destruct (truthy _); reflexivity.
Qed.

(** X12 on the demo endpoint with the application whose hooks validate: the
    song has no [id], so the [beforeSave] of its copy throws. *)
Lemma write_hook_throws_witness :
  exists l' s1,
    angular_copy 2 (VRef 15) demo_state = (inr (VRef l'), s1)
    /\ 16 <= l'
    /\ call_fn strict_call demo_proto demo_resource 3 Endpoint_saveRequestWithModel (VRef 12)
         [VStr "save"; VUndef; VRef 15] demo_state =
       (inl (VError "Error" "invalid"),
        {| st_heap := snd (strict_call 2 (VRef l') [] (st_heap s1));
           st_trace := [ECall 2 (VRef l') [] (own_of (st_heap s1) (VRef l'))] |}).
Proof.
  destruct (write_hook_throws strict_call demo_proto demo_resource 0 2
              demo_state 12 13 15 2 "api/songs/:id" "save" VUndef
              (VError "Error" "invalid"))
    as (l' & s1 & H1 & H2 & H3 & _).
  - reflexivity.
  - lia.
  - reflexivity.
  - exact (strict_local 2).
  - intros l' s1 Hcopy. vm_compute in Hcopy. injection Hcopy as <- <-. reflexivity.
  - split; [reflexivity | ]. split; reflexivity.
  - exists l', s1. split; [exact H1 | ]. split; [exact H2 | exact H3].
Defined.

(** X13 on the demo endpoint: an action it was not built with. *)
Lemma request_unknown_action_witness :
  exists msg,
    call_fn demo_call demo_proto demo_resource 1 Endpoint_request (VRef 12)
      [VStr "list"; VUndef; VUndef] demo_state =
    (inl (VError "TypeError" msg), demo_state).
Proof.
  apply (request_unknown_action demo_call demo_proto demo_resource 0
           demo_state 12 13 "list" VUndef VUndef); reflexivity.
Defined.
